(** * Course-completion webhook: award issuance pipeline

    A shallow embedding of the ingestion endpoint
    ([src/pages/api/webhooks/course-completion.ts]), the notification
    sender ([lib/resend]), and the certificate generator
    ([lib/certificatePdf], in its storage-template and bundled-template
    variants), together with the properties the specification states
    about them.

    Conventions.
    - A JavaScript string is a [string] of 8-bit units, read as ASCII.
      [trim], [toLowerCase] and [toUpperCase] are the ECMAScript
      primitives on ASCII strings ([Js.isAscii]): the non-ASCII white
      space (U+00A0, U+FEFF, U+2028, ...) and the non-ASCII case
      mappings are not modelled, and the theorems about the resolver
      and about normalisation itself take ASCII input as a hypothesis.
    - [undefined] is [None]; a value that may be any parsed JSON is a
      [json].
    - The datastore, the object storage, the mail provider and the
      headless browser are external.  Their state is part of [World];
      what they answer beyond what that state determines (transport
      faults, generated identifiers, the clock, rendered bytes) is read
      from an [Env], one per request. *)

From Stdlib Require Import Ascii String NArith Lia Bool.
From stdpp Require Import base option list strings gmap.

Local Open Scope string_scope.
Local Open Scope list_scope.

(** ** ECMAScript string primitives *)

Module Js.

(** [!!s]: every string but the empty one is truthy. *)
Definition truthy (s : string) : bool :=
  match s with
  | EmptyString => false
  | String _ _ => true
  end.

(** [a || b] on strings that may be [undefined]. *)
Definition or_else (a : option string) (b : string) : string :=
  match a with
  | Some s => if truthy s then s else b
  | None => b
  end.

(** WhiteSpace and LineTerminator code points below 128. *)
Definition isWhiteSpace (c : ascii) : bool :=
  match c with
  | "009" | "010" | "011" | "012" | "013" | " " => true
  | _ => false
  end%char.

Fixpoint trimStart (s : string) : string :=
  match s with
  | EmptyString => EmptyString
  | String c s' => if isWhiteSpace c then trimStart s' else s
  end.

Fixpoint trimEnd (s : string) : string :=
  match s with
  | EmptyString => EmptyString
  | String c s' =>
      match trimEnd s' with
      | EmptyString => if isWhiteSpace c then EmptyString else String c EmptyString
      | t => String c t
      end
  end.

Definition trim (s : string) : string := trimEnd (trimStart s).

Definition lowerChar (c : ascii) : ascii :=
  let n := N_of_ascii c in
  if (65 <=? n)%N && (n <=? 90)%N then ascii_of_N (n + 32) else c.

Definition upperChar (c : ascii) : ascii :=
  let n := N_of_ascii c in
  if (97 <=? n)%N && (n <=? 122)%N then ascii_of_N (n - 32) else c.

Fixpoint mapChars (f : ascii -> ascii) (s : string) : string :=
  match s with
  | EmptyString => EmptyString
  | String c s' => String (f c) (mapChars f s')
  end.

Definition toLowerCase : string -> string := mapChars lowerChar.
Definition toUpperCase : string -> string := mapChars upperChar.

(** The unit is an ASCII character. *)
Definition isAsciiChar (c : ascii) : bool := (N_of_ascii c <? 128)%N.

(** The string holds ASCII characters only: on such a string the
    primitives above are the ECMAScript ones. *)
Fixpoint isAscii (s : string) : bool :=
  match s with
  | EmptyString => true
  | String c s' => isAsciiChar c && isAscii s'
  end.

(** [s.startsWith(p)]. *)
Fixpoint startsWith (p s : string) : bool :=
  match p, s with
  | EmptyString, _ => true
  | String a p', String b s' => if Ascii.eqb a b then startsWith p' s' else false
  | String _ _, EmptyString => false
  end.

(** [s.includes(p)]. *)
Fixpoint includes (s p : string) : bool :=
  startsWith p s ||
  match s with
  | EmptyString => false
  | String _ s' => includes s' p
  end.

(** [s.endsWith(p)]. *)
Fixpoint endsWith (s p : string) : bool :=
  String.eqb s p ||
  match s with
  | EmptyString => false
  | String _ s' => endsWith s' p
  end.

Fixpoint drop (n : nat) (s : string) : string :=
  match n, s with
  | O, _ => s
  | S n', String _ s' => drop n' s'
  | S _, EmptyString => EmptyString
  end.

(** GetSubstitution (ECMA-262, 22.1.3.19.1) for a string pattern: there
    are no capture groups, so [$1]..[$99] and [$<] stay literal. *)
Fixpoint getSubstitution (matched before after repl : string) : string :=
  match repl with
  | EmptyString => EmptyString
  | String "$" (String "$" r) => String "$" (getSubstitution matched before after r)
  | String "$" (String "&" r) => matched +:+ getSubstitution matched before after r
  | String "$" (String "`" r) => before +:+ getSubstitution matched before after r
  | String "$" (String "'" r) => after +:+ getSubstitution matched before after r
  | String c r => String c (getSubstitution matched before after r)
  end.

(** The scan of [String.prototype.replaceAll] with a string pattern.
    [before] is the part of the subject already passed, [skip] the
    number of units still covered by the last match. *)
Fixpoint replaceAllFrom (pat repl before s : string) (skip : nat) : string :=
  match skip with
  | S k =>
      match s with
      | EmptyString => EmptyString
      | String c s' => replaceAllFrom pat repl (before +:+ String c EmptyString) s' k
      end
  | O =>
      if startsWith pat s then
        getSubstitution pat before (drop (String.length pat) s) repl +:+
        match s with
        | EmptyString => EmptyString
        | String c s' =>
            match pat with
            | EmptyString =>
                String c (replaceAllFrom pat repl (before +:+ String c EmptyString) s' 0)
            | String _ p' =>
                replaceAllFrom pat repl (before +:+ String c EmptyString) s'
                  (String.length p')
            end
        end
      else
        match s with
        | EmptyString => EmptyString
        | String c s' =>
            String c (replaceAllFrom pat repl (before +:+ String c EmptyString) s' 0)
        end
  end.

(** [s.replaceAll(pat, repl)] for strings [pat] and [repl]. *)
Definition replaceAll (s pat repl : string) : string :=
  replaceAllFrom pat repl EmptyString s 0.

(** The scan of [String.prototype.replace] with a string pattern: only
    the first occurrence is replaced. *)
Fixpoint replaceFrom (pat repl before s : string) : string :=
  if startsWith pat s then
    getSubstitution pat before (drop (String.length pat) s) repl +:+
    drop (String.length pat) s
  else
    match s with
    | EmptyString => EmptyString
    | String c s' => String c (replaceFrom pat repl (before +:+ String c EmptyString) s')
    end.

Definition replace (s pat repl : string) : string :=
  replaceFrom pat repl EmptyString s.

End Js.

(** ** Badge resolver ([course-completion.ts], lines 38-85)

    The alias table is an object literal read by key.  Besides its own
    entries such a read finds the members every object literal inherits
    from [Object.prototype]: for one of those names the resolver
    returns a function or an object, not a slug. *)

Definition COURSE_TO_BADGE_SLUG : gmap string string :=
  list_to_map
    [ ("green-software-practitioner", "green-software-practitioner");
      ("green software practitioner", "green-software-practitioner");
      ("green-software-for-practitioners", "green-software-practitioner");
      ("green software for practitioners", "green-software-practitioner");
      ("gsp", "green-software-practitioner");
      ("sustainable-cloud-specialist", "sustainable-cloud-specialist");
      ("sustainable cloud specialist", "sustainable-cloud-specialist");
      ("scs", "sustainable-cloud-specialist") ].

Definition DEFAULT_BADGE_SLUG : string := "green-software-practitioner".

(** The names [Object.prototype] defines. *)
Definition OBJECT_PROTOTYPE_MEMBERS : list string :=
  [ "constructor"; "__defineGetter__"; "__defineSetter__"; "hasOwnProperty";
    "__lookupGetter__"; "__lookupSetter__"; "isPrototypeOf";
    "propertyIsEnumerable"; "toString"; "valueOf"; "__proto__"; "toLocaleString" ].

(** What the read [COURSE_TO_BADGE_SLUG[key]] evaluates to when it is
    not [undefined]: the slug of an own entry, or the inherited member
    of that name (the function [Object] for [constructor], the object
    [Object.prototype] for [__proto__], a built-in method for the other
    names). *)
Inductive TableValue :=
| Slug (slug : string)
| Member (name : string).

Definition tableRead (key : string) : option TableValue :=
  match COURSE_TO_BADGE_SLUG !! key with
  | Some slug => Some (Slug slug)
  | None =>
      if existsb (String.eqb key) OBJECT_PROTOTYPE_MEMBERS then Some (Member key)
      else None
  end.

(** [!!v]: a function and an object are truthy. *)
Definition truthyValue (v : TableValue) : bool :=
  match v with
  | Slug slug => Js.truthy slug
  | Member _ => true
  end.

(** The string conversion of a table value, as a template literal and
    the filter of a datastore query perform it.  A built-in function
    prints in the form the V8 engine gives it. *)
Definition toText (v : TableValue) : string :=
  match v with
  | Slug slug => slug
  | Member name =>
      if String.eqb name "__proto__" then "[object Object]"
      else
        "function " +:+ (if String.eqb name "constructor" then "Object" else name)
        +:+ "() { [native code] }"
  end.

Definition normalize (value : option string) : option string :=
  match value with
  | Some v => if Js.truthy v then Some (Js.toLowerCase (Js.trim v)) else None
  | None => None
  end.

Record SlugParams := {
  p_badgeSlug : option string;
  p_courseId : option string;
  p_courseName : option string
}.

(** [xs.filter(Boolean)] on an array of [string | undefined]. *)
Fixpoint filterBoolean (xs : list (option string)) : list string :=
  match xs with
  | [] => []
  | Some s :: xs' => if Js.truthy s then s :: filterBoolean xs' else filterBoolean xs'
  | None :: xs' => filterBoolean xs'
  end.

Definition candidates (params : SlugParams) : list string :=
  filterBoolean
    [ normalize (p_badgeSlug params);
      normalize (p_courseId params);
      normalize (p_courseName params) ].

(** The table read [COURSE_TO_BADGE_SLUG[candidate]], tested for
    truthiness. *)
Definition aliasHit (candidate : string) : option TableValue :=
  match tableRead candidate with
  | Some v => if truthyValue v then Some v else None
  | None => None
  end.

(** The [for ... of] loop over the candidates, with its early return. *)
Fixpoint firstAliasHit (cs : list string) : option TableValue :=
  match cs with
  | [] => None
  | c :: cs' =>
      match aliasHit c with
      | Some v => Some v
      | None => firstAliasHit cs'
      end
  end.

(** The declared result is [string | undefined]; the value returned is
    whatever the table read gave. *)
Definition resolveBadgeSlug (params : SlugParams) : option TableValue :=
  match firstAliasHit (candidates params) with
  | Some v => Some v
  | None => Some (Slug DEFAULT_BADGE_SLUG)
  end.

(** ** Parsed request bodies and the two payload schemas *)

(** A value produced by [JSON.parse].  A number keeps its literal text:
    the pipeline never computes with one. *)
#[warnings="-register-all"]
Inductive json :=
| JNull
| JBool (b : bool)
| JNum (literal : string)
| JStr (s : string)
| JArr (items : list json)
| JObj (fields : list (string * json)).

(** Property read on a parsed object: of two members with the same key
    [JSON.parse] keeps the later one. *)
Fixpoint jget (key : string) (fields : list (string * json)) : option json :=
  match fields with
  | [] => None
  | (k, v) :: rest =>
      match jget key rest with
      | Some v' => Some v'
      | None => if String.eqb k key then Some v else None
      end
  end.

(** Whether the string conversion of a parsed value throws.  A
    primitive converts.  An array joins the conversions of its
    elements.  An object converts through [Object.prototype.toString]
    unless it has an own [toString] member: after [JSON.parse] such a
    member is not callable, [valueOf] gives back the object, and the
    conversion ends in a [TypeError]. *)
Fixpoint toStringThrows (v : json) : bool :=
  match v with
  | JArr items => existsb toStringThrows items
  | JObj fields =>
      match jget "toString" fields with
      | Some _ => true
      | None => false
      end
  | _ => false
  end.

(** [z.string()] on a key: the key must be present and hold a string. *)
Definition zString (v : option json) : option string :=
  match v with
  | Some (JStr s) => Some s
  | _ => None
  end.

(** [z.string().optional()]: absent, or a string ([null] is rejected). *)
Definition zOptionalString (v : option json) : option (option string) :=
  match v with
  | None => Some None
  | Some (JStr s) => Some (Some s)
  | Some _ => None
  end.

(** [z.record(z.any()).optional()]: absent, or a plain object. *)
Definition zOptionalRecord (v : option json)
  : option (option (list (string * json))) :=
  match v with
  | None => Some None
  | Some (JObj fs) => Some (Some fs)
  | Some _ => None
  end.

Record DirectPayload := {
  dp_name : string;
  dp_email : string;
  dp_badgeSlug : option string;
  dp_courseId : option string;
  dp_courseName : option string;
  dp_personalizedDescription : option string
}.

Record WebhookRecord := {
  wr_course_id : string;
  wr_course_name : option string;
  wr_user_email : string;
  wr_user_name : string;
  wr_metadata : option (list (string * json))
}.

(** What the handler binds after parsing, whichever shape was sent. *)
Record Fields := {
  f_name : string;
  f_email : string;
  f_badgeSlug : option string;
  f_courseId : option string;
  f_courseName : option string;
  f_personalizedDescription : option json
}.

(** ** Datastore rows and queries *)

Record Badge := {
  badge_id : string;
  badge_slug : string;
  badge_name : string
}.

Record Person := {
  person_id : string;
  person_name : string;
  person_email : string
}.

Record Award := {
  award_id : string;
  award_person_id : string;
  award_badge_id : string;
  award_issued_at : option string;
  award_personalized_description : option json
}.

Record DB := {
  badges : list Badge;
  people : list Person;
  awards : list Award
}.

(** The [{ data, error }] pair of a query; an error is kept as its
    message. *)
Record QueryResult (A : Type) := {
  q_data : option A;
  q_error : option string
}.
Arguments q_data {A} _.
Arguments q_error {A} _.

Definition qOk {A} (row : option A) : QueryResult A :=
  {| q_data := row; q_error := None |}.
Definition qFail {A} (message : string) : QueryResult A :=
  {| q_data := None; q_error := Some message |}.

Definition NOT_SINGLE_ROW : string :=
  "JSON object requested, multiple (or no) rows returned".

(** [.single()]: exactly one row, anything else is an error. *)
Definition single {A} (rows : list A) : QueryResult A :=
  match rows with
  | [row] => qOk (Some row)
  | _ => qFail NOT_SINGLE_ROW
  end.

(** [.maybeSingle()]: no row is [null] without error, several rows are
    an error. *)
Definition maybeSingle {A} (rows : list A) : QueryResult A :=
  match rows with
  | [] => qOk None
  | [row] => qOk (Some row)
  | _ => qFail NOT_SINGLE_ROW
  end.

(** A fault reported by the datastore client overrides the answer. *)
Definition withFault {A} (fault : option string) (answer : QueryResult A)
  : QueryResult A :=
  match fault with
  | Some message => qFail message
  | None => answer
  end.

Definition badgesBySlug (slug : string) (d : DB) : list Badge :=
  List.filter (fun b => String.eqb (badge_slug b) slug) (badges d).

Definition peopleByEmail (email : string) (d : DB) : list Person :=
  List.filter (fun p => String.eqb (person_email p) email) (people d).

Definition awardsByPersonBadge (pid bid : string) (d : DB) : list Award :=
  List.filter
    (fun a => String.eqb (award_person_id a) pid && String.eqb (award_badge_id a) bid)
    (awards d).

Definition insertPerson (p : Person) (d : DB) : DB :=
  {| badges := badges d; people := people d ++ [p]; awards := awards d |}.

Definition insertAward (a : Award) (d : DB) : DB :=
  {| badges := badges d; people := people d; awards := awards d ++ [a] |}.

(** ** Object storage, mail, and the world the handler acts on *)

(** The [status] and [statusCode] members of a storage error can each
    be a number or a string. *)
Inductive StatusVal :=
| SNum (n : N)
| SStr (s : string).

Record StorageError := {
  se_status : option StatusVal;
  se_statusCode : option StatusVal;
  se_message : string
}.

Record StoredObject := {
  obj_body : string;
  obj_contentType : string;
  obj_cacheControl : string
}.

Record Storage := {
  buckets : gmap string bool;
  objects : gmap (string * string) StoredObject
}.

Record UploadOptions := {
  up_contentType : string;
  up_cacheControl : string;
  up_upsert : bool
}.

(** One call of [resend.emails.send]. *)
Record Email := {
  mail_from : string;
  mail_to : string;
  mail_subject : string
}.

Inductive EmailSendStatus :=
| sent
| skipped (reason : string)
| failed (reason : string).

Record World := {
  db : DB;
  storage : Storage;
  outbox : list Email;
  console : list string
}.

Inductive FileRead :=
| FileData (bytes : string)
| FileENOENT
| FileError (message : string).

Inductive FetchResult :=
| FetchThrew (message : string)
| FetchResponse (ok : bool) (status statusText body : string).

(** What [resend.emails.send] does: resolve without error, resolve with
    an error object (whose message may be missing), or throw (an
    [Error] with a message, or some other value). *)
Inductive SendResult :=
| SendDelivered
| SendError (message : option string)
| SendThrew (errorMessage : option string).

(** What the outside answers during one request.  A fault, when
    present, is the error every call of that operation reports during
    the request; [env_not_found] is the error the storage service
    reports for a bucket or an object that does not exist;
    [env_site_urls] lists, in the order they are consulted, the site
    URL variables of the deployment. *)
Record Env := {
  env_SUPABASE_SERVICE_ROLE_KEY : option string;
  env_RESEND_API_KEY : option string;
  env_RESEND_FROM_EMAIL : option string;
  env_site_urls : list (option string);
  env_now : string;
  env_fault_badges_select : option string;
  env_fault_people_select : option string;
  env_fault_people_insert : option string;
  env_new_person_id : string;
  env_fault_awards_select : option string;
  env_fault_awards_insert : option string;
  env_new_award_id : string;
  env_not_found : StorageError;
  env_fault_getBucket : option StorageError;
  env_fault_createBucket : option string;
  env_fault_download : option StorageError;
  env_fault_upload : option string;
  env_local_file : string -> FileRead;
  env_remote_fetch : string -> FetchResult;
  env_render_pdf : string -> string + string;
  env_send : SendResult
}.

(** ** Computations that act on the world and may leave early

    [Exit e] is a thrown [Error] (its message) in the library code and
    an early [return] or an uncaught exception in the handler. *)

Inductive result (E A : Type) :=
| Ok (a : A)
| Exit (e : E).
Arguments Ok {E A} _.
Arguments Exit {E A} _.

Definition Eff (E A : Type) : Type := World -> World * result E A.

Definition ret {E A} (a : A) : Eff E A := fun w => (w, Ok a).

Definition exit {E A} (e : E) : Eff E A := fun w => (w, Exit e).

Definition bind {E A B} (m : Eff E A) (k : A -> Eff E B) : Eff E B :=
  fun w =>
    match m w with
    | (w', Ok a) => k a w'
    | (w', Exit e) => (w', Exit e)
    end.

Notation "'let!' x ':=' m 'in' k" := (bind m (fun x => k))
  (at level 10, x pattern, m at level 100, k at level 200).

(** [try { m } catch (e) { h e }]. *)
Definition catch {E E' A} (m : Eff E A) (h : E -> Eff E' A) : Eff E' A :=
  fun w =>
    match m w with
    | (w', Ok a) => (w', Ok a)
    | (w', Exit e) => h e w'
    end.

Definition gets {E A} (f : World -> A) : Eff E A := fun w => (w, Ok (f w)).

Definition modify {E} (f : World -> World) : Eff E unit := fun w => (f w, Ok tt).

Definition setDb (d : DB) (w : World) : World :=
  {| db := d; storage := storage w; outbox := outbox w; console := console w |}.

Definition setStorage (s : Storage) (w : World) : World :=
  {| db := db w; storage := s; outbox := outbox w; console := console w |}.

Definition pushMail (m : Email) (w : World) : World :=
  {| db := db w; storage := storage w; outbox := outbox w ++ [m]; console := console w |}.

Definition consoleError (line : string) (w : World) : World :=
  {| db := db w; storage := storage w; outbox := outbox w; console := console w ++ [line] |}.

(** ** Certificate generator, storage-template variant
       ([unnamed/part_001]) *)

Definition dquote : string := String "034"%char EmptyString.

Definition CERT_BUCKET : string := "certificates".
Definition TEMPLATE_STORAGE_PATH : string := "templates/certificate-preview.html".
Definition NAME_PLACEHOLDER : string := "${Name}".
Definition DATE_PLACEHOLDER : string := "{Date}".
Definition COURSE_PLACEHOLDER : string := "${CourseName}".
Definition DEFAULT_ASSET_BASE : string := "https://gsf-credentials.netlify.app/".
Definition ALREADY_EXISTS : string := "The resource already exists".

Record GenerateOptions := {
  go_recipientName : string;
  go_issuedAt : string;
  go_verificationCode : string;
  go_badgeTitle : string;
  go_assetBaseUrl : option string
}.

Record Certificate := {
  publicUrl : string;
  storagePath : string;
  issuedDateLabel : string
}.

(** [getSupabaseAdminClient]: the client is built once; building it
    throws when the service-role key is not configured. *)
Definition getSupabaseAdminClient {E} (env : Env) (raise : string -> E) : Eff E unit :=
  if Js.truthy (Js.or_else (env_SUPABASE_SERVICE_ROLE_KEY env) EmptyString)
  then ret tt
  else exit (raise "SUPABASE_SERVICE_ROLE_KEY is not set; required for server-side writes.").

(** *** The storage service *)

Definition getBucket {E} (env : Env) (id : string)
  : Eff E (option bool * option StorageError) :=
  gets (fun w =>
    match env_fault_getBucket env with
    | Some e => (None, Some e)
    | None =>
        match buckets (storage w) !! id with
        | Some public => (Some public, None)
        | None => (None, Some (env_not_found env))
        end
    end).

Definition createBucket {E} (env : Env) (id : string) (public : bool)
  : Eff E (option string) :=
  fun w =>
    match env_fault_createBucket env with
    | Some message => (w, Ok (Some message))
    | None =>
        match buckets (storage w) !! id with
        | Some _ => (w, Ok (Some ALREADY_EXISTS))
        | None =>
            (setStorage {| buckets := <[id := public]> (buckets (storage w));
                           objects := objects (storage w) |} w,
             Ok None)
        end
    end.

Definition download {E} (env : Env) (bucket path : string)
  : Eff E (option string * option StorageError) :=
  gets (fun w =>
    match env_fault_download env with
    | Some e => (None, Some e)
    | None =>
        match objects (storage w) !! (bucket, path) with
        | Some o => (Some (obj_body o), None)
        | None => (None, Some (env_not_found env))
        end
    end).

(** [upload]: without [upsert] an existing object is an error; with it
    the object is replaced. *)
Definition upload {E} (env : Env) (bucket path body : string) (opts : UploadOptions)
  : Eff E (option string) :=
  fun w =>
    match env_fault_upload env with
    | Some message => (w, Ok (Some message))
    | None =>
        match buckets (storage w) !! bucket with
        | None => (w, Ok (Some (se_message (env_not_found env))))
        | Some _ =>
            if bool_decide (is_Some (objects (storage w) !! (bucket, path)))
               && negb (up_upsert opts)
            then (w, Ok (Some ALREADY_EXISTS))
            else
              (setStorage
                 {| buckets := buckets (storage w);
                    objects :=
                      <[(bucket, path) :=
                          {| obj_body := body;
                             obj_contentType := up_contentType opts;
                             obj_cacheControl := up_cacheControl opts |}]>
                        (objects (storage w)) |} w,
               Ok None)
        end
    end.

(** [error.status ?? error.statusCode]. *)
Definition errorStatus (e : StorageError) : option StatusVal :=
  match se_status e with
  | Some s => Some s
  | None => se_statusCode e
  end.

(** [status === 404 || status === "404"]. *)
Definition is404 (status : option StatusVal) : bool :=
  match status with
  | Some (SNum n) => (n =? 404)%N
  | Some (SStr s) => String.eqb s "404"
  | None => false
  end.

Definition ensurePublicBucket (env : Env) : Eff string unit :=
  let! _ := getSupabaseAdminClient env id in
  let! (data, error) := getBucket env CERT_BUCKET in
  match data with
  | Some _ => ret tt
  | None =>
      let! _ :=
        match error with
        | Some e =>
            if is404 (errorStatus e) then ret tt
            else exit ("Failed to check bucket: " +:+ se_message e)
        | None => ret tt
        end in
      let! createError := createBucket env CERT_BUCKET true in
      match createError with
      | Some message =>
          exit ("Failed to create bucket '" +:+ CERT_BUCKET +:+ "': " +:+ message)
      | None => ret tt
      end
  end.

Definition downloadTemplateFromStorage (env : Env) : Eff string string :=
  let! _ := getSupabaseAdminClient env id in
  let! _ := ensurePublicBucket env in
  let! (data, error) := download env CERT_BUCKET TEMPLATE_STORAGE_PATH in
  match error with
  | Some e =>
      if is404 (errorStatus e) then
        exit ("Certificate template not found in storage at '" +:+ TEMPLATE_STORAGE_PATH
              +:+ "'. " +:+ "Upload the latest template before generating certificates.")
      else exit ("Failed to download certificate template: " +:+ se_message e)
  | None =>
      match data with
      | None => exit "Certificate template download returned empty response"
      | Some bytes => ret bytes
      end
  end.

(** The loop of [replacePlaceholders]: each placeholder is looked for
    in the text as rewritten so far, then replaced everywhere. *)
Fixpoint replaceEach (replacements : list (string * string)) (res : string)
  : result string string :=
  match replacements with
  | [] => Ok res
  | (placeholder, value) :: rest =>
      if Js.includes res placeholder
      then replaceEach rest (Js.replaceAll res placeholder value)
      else Exit ("Certificate template missing placeholder " +:+ placeholder)
  end.

Definition replacePlaceholders (template recipientName issuedDateLabel badgeTitle : string)
  : result string string :=
  let badgeTitleUpper := Js.toUpperCase badgeTitle in
  replaceEach
    [ (NAME_PLACEHOLDER, recipientName);
      (DATE_PLACEHOLDER, issuedDateLabel);
      (COURSE_PLACEHOLDER, badgeTitleUpper) ]
    template.

Definition mimeTypeFor (filename : string) : string :=
  if Js.endsWith filename ".svg" then "image/svg+xml"
  else if Js.endsWith filename ".png" then "image/png"
  else if Js.endsWith filename ".jpg" || Js.endsWith filename ".jpeg" then "image/jpeg"
  else "application/octet-stream".

(** The first truthy value of an [a || b || ...] chain. *)
Fixpoint firstTruthy (xs : list (option string)) : option string :=
  match xs with
  | [] => None
  | x :: xs' =>
      match x with
      | Some s => if Js.truthy s then Some s else firstTruthy xs'
      | None => firstTruthy xs'
      end
  end.

Definition getAssetBaseUrl (env : Env) (preferred : option string) : string :=
  let envBase := firstTruthy (preferred :: env_site_urls env) in
  let base := Js.or_else envBase DEFAULT_ASSET_BASE in
  if Js.endsWith base "/" then base else base +:+ "/".

Definition fetchAsset (env : Env) (relativeSrc : string) (assetBaseUrl : option string)
  : Eff string string :=
  match env_local_file env relativeSrc with
  | FileData bytes => ret bytes
  | FileError message => exit message
  | FileENOENT =>
      let baseUrl := getAssetBaseUrl env assetBaseUrl in
      let url := baseUrl +:+ relativeSrc in
      match env_remote_fetch env url with
      | FetchThrew message => exit message
      | FetchResponse ok status statusText body =>
          if ok then ret body
          else exit ("Failed to fetch asset from " +:+ url +:+ ": " +:+ status +:+ " "
                     +:+ statusText)
      end
  end.

(** The matches of the global regular expression of [inlineAssetSources]
    (the attribute [src=], a double quote, an optional slash, then the
    captured [assets/] followed by one or more characters other than a
    double quote, then a double quote): for each match, its capture
    group.  [spanNotQuote] is the greedy run of characters other than a
    double quote. *)
Fixpoint spanNotQuote (s : string) : string * string :=
  match s with
  | EmptyString => (EmptyString, EmptyString)
  | String c s' =>
      if Ascii.eqb c "034"%char then (EmptyString, s)
      else let (body, rest) := spanNotQuote s' in (String c body, rest)
  end.

(** A match starting exactly here: the capture and the length of the
    whole match. *)
Definition matchAssetSrc (s : string) : option (string * nat) :=
  if Js.startsWith ("src=" +:+ dquote) s then
    let s1 := Js.drop 5 s in
    let slash := Js.startsWith "/" s1 in
    let s2 := if slash then Js.drop 1 s1 else s1 in
    if Js.startsWith "assets/" s2 then
      let (body, rest) := spanNotQuote (Js.drop 7 s2) in
      if Js.truthy body && Js.startsWith dquote rest
      then Some ("assets/" +:+ body,
                 5 + (if slash then 1 else 0) + 7 + String.length body + 1)
      else None
    else None
  else None.

Fixpoint assetMatchesFrom (s : string) (skip : nat) : list string :=
  match s with
  | EmptyString => []
  | String _ s' =>
      match skip with
      | S k => assetMatchesFrom s' k
      | O =>
          match matchAssetSrc s with
          | Some (capture, len) => capture :: assetMatchesFrom s' (len - 1)
          | None => assetMatchesFrom s' 0
          end
      end
  end.

Definition assetMatches (html : string) : list string := assetMatchesFrom html 0.

Record NotificationArgs := {
  n_to : string;
  n_recipientName : string;
  n_credentialName : string;
  n_verificationCode : string;
  n_badgeUrl : string;
  n_personalizedDescription : option json;
  n_certificateUrl : option string
}.

Record AwardView := {
  av_id : string;
  av_verificationCode : string;
  av_issuedAt : string;
  av_personalizedDescription : option json;
  av_url : string;
  av_certificateUrl : option string
}.

(** The body of the success response; its [status] member is the
    constant ["ok"]. *)
Record OkBody := {
  ok_badgeSlug : string;
  ok_recipientEmail : string;
  ok_recipientName : string;
  ok_award : AwardView;
  ok_email : EmailSendStatus
}.

Inductive Body :=
| BodyError (error : string) (details : option string)
| BodyInvalidPayload
| BodyOk (ok : OkBody).

Record Response := {
  status : N;
  body : Body
}.

Definition jsonResponse (b : Body) (st : N) : Response :=
  {| status := st; body := b |}.

(** How a call of the handler ends: with a response, or with an
    exception nobody caught. *)
Inductive Outcome :=
| Responded (r : Response)
| Threw (message : string).

Record Request := {
  req_body : option json;
  req_origin : string
}.

(** Library functions the code calls and the deployment constants it
    reads: the e-mail check of the schema library,
    [Date.prototype.toLocaleDateString] for en-US with a long month,
    [Buffer.prototype.toString("base64")], the public URL the storage
    client builds for a bucket and a path, and the [file:] URL of the
    public directory. *)
Record Runtime := {
  isEmail : string -> bool;
  toLocaleDateString : string -> string;
  base64 : string -> string;
  getPublicUrl : string -> string -> string;
  publicDirHref : string
}.

Section Pipeline.

Variable rt : Runtime.

(** [new Date(issuedAt).toLocaleDateString("en-US", { year, month: "long", day })]. *)
Definition formatIssuedDate (issuedAt : string) : string :=
  toLocaleDateString rt issuedAt.

Definition injectBaseHref (template : string) : string :=
  let baseHref := publicDirHref rt in
  let baseTag := "<base href=" +:+ dquote +:+ baseHref +:+ dquote +:+ ">" in
  if Js.includes template baseTag then template
  else if Js.includes template "<base" then template
  else Js.replace template "<head>" ("<head>" +:+ baseTag).

Fixpoint inlineEach (env : Env) (assetBaseUrl : option string)
    (matches : list string) (res : string) : Eff string string :=
  match matches with
  | [] => ret res
  | relativeSrc :: rest =>
      let! data := fetchAsset env relativeSrc assetBaseUrl in
      let mimeType := mimeTypeFor relativeSrc in
      let dataUri := "data:" +:+ mimeType +:+ ";base64," +:+ base64 rt data in
      inlineEach env assetBaseUrl rest
        (Js.replaceAll res
           ("src=" +:+ dquote +:+ relativeSrc +:+ dquote)
           ("src=" +:+ dquote +:+ dataUri +:+ dquote))
  end.

Definition inlineAssetSources (env : Env) (html : string) (assetBaseUrl : option string)
  : Eff string string :=
  match assetMatches html with
  | [] => ret html
  | matches => inlineEach env assetBaseUrl matches html
  end.

Definition liftResult {E A} (r : result E A) : Eff E A :=
  match r with
  | Ok a => ret a
  | Exit e => exit e
  end.

Definition buildCertificateHtml (env : Env)
    (recipientName issuedLabel badgeTitle : string) (assetBaseUrl : option string)
  : Eff string string :=
  let! template := downloadTemplateFromStorage env in
  let withBase := injectBaseHref template in
  let! withValues :=
    liftResult (replacePlaceholders withBase recipientName issuedLabel badgeTitle) in
  inlineAssetSources env withValues assetBaseUrl.

(** [htmlToPdf]: the headless browser either prints the page or the
    call throws. *)
Definition htmlToPdf (env : Env) (html : string) : Eff string string :=
  match env_render_pdf env html with
  | inl message => exit message
  | inr bytes => ret bytes
  end.

Definition generateCertificatePdf (env : Env) (options : GenerateOptions)
  : Eff string string :=
  let issuedLabel := formatIssuedDate (go_issuedAt options) in
  let! html :=
    buildCertificateHtml env (go_recipientName options) issuedLabel
      (go_badgeTitle options) (go_assetBaseUrl options) in
  htmlToPdf env html.

Definition awardStoragePath (verificationCode : string) : string :=
  "awards/" +:+ verificationCode +:+ ".pdf".

Definition certificateUploadOptions : UploadOptions :=
  {| up_contentType := "application/pdf"; up_cacheControl := "0"; up_upsert := true |}.

Definition generateCertificateAndUpload (env : Env) (options : GenerateOptions)
  : Eff string Certificate :=
  let verificationCode := go_verificationCode options in
  let issuedLabel := formatIssuedDate (go_issuedAt options) in
  let! pdfBytes := generateCertificatePdf env options in
  let pdfBuffer := pdfBytes in
  let! _ := ensurePublicBucket env in
  let! _ := getSupabaseAdminClient env id in
  let path := awardStoragePath verificationCode in
  let! uploadError := upload env CERT_BUCKET path pdfBuffer certificateUploadOptions in
  match uploadError with
  | Some message => exit ("Failed to upload certificate: " +:+ message)
  | None =>
      ret {| publicUrl := getPublicUrl rt CERT_BUCKET path;
             storagePath := path;
             issuedDateLabel := issuedLabel |}
  end.

(** ** Notification sender ([lib/resend]) *)

Definition NOT_CONFIGURED : string :=
  "Resend not configured (missing API key or from address)".

(** [getResendClient]: a client exists once an API key is configured. *)
Definition getResendClient (env : Env) : option string :=
  match env_RESEND_API_KEY env with
  | Some key => if Js.truthy key then Some key else None
  | None => None
  end.

Definition getFromAddress (env : Env) : option string := env_RESEND_FROM_EMAIL env.

(** The message of the [TypeError] of a failed string conversion. *)
Definition NOT_PRIMITIVE : string := "Cannot convert object to primitive value".

(** [description] is the supplied description when that is truthy and
    a generated sentence otherwise; the template literal of
    [htmlContent] converts it to a string.  Only an array or an object,
    both truthy, can make the conversion throw. *)
Definition descriptionThrows (personalizedDescription : option json) : bool :=
  match personalizedDescription with
  | Some v => toStringThrows v
  | None => false
  end.

(** [htmlContent] is built after the configuration check and before the
    [try] block: a [TypeError] of the conversion leaves the function,
    an error of the send is caught inside it. *)
Definition sendAwardNotification {E} (env : Env) (raise : string -> E)
    (a : NotificationArgs) : Eff E EmailSendStatus :=
  let resend := getResendClient env in
  let from := getFromAddress env in
  match resend, from with
  | Some _, Some fromAddress =>
      if Js.truthy fromAddress then
        let subject :=
          "Your " +:+ n_credentialName a +:+ " badge from Green Software Foundation" in
        if descriptionThrows (n_personalizedDescription a)
        then exit (raise NOT_PRIMITIVE)
        else
          let! _ :=
            modify (pushMail {| mail_from := fromAddress; mail_to := n_to a;
                                mail_subject := subject |}) in
          match env_send env with
          | SendDelivered => ret sent
          | SendError message =>
              ret (failed (Js.or_else message "Domain not verified or other Resend error"))
          | SendThrew errorMessage =>
              let! _ := modify (consoleError "Failed to send award notification email") in
              ret (failed (match errorMessage with
                           | Some message => message
                           | None => "Unknown error sending email"
                           end))
          end
      else ret (skipped NOT_CONFIGURED)
  | _, _ => ret (skipped NOT_CONFIGURED)
  end.

(** ** Ingestion endpoint ([course-completion.ts]) *)

Definition directPayloadSchema (j : json) : option DirectPayload :=
  match j with
  | JObj fs =>
      name ← zString (jget "name" fs);
      email ← zString (jget "email" fs);
      badgeSlug ← zOptionalString (jget "badgeSlug" fs);
      courseId ← zOptionalString (jget "courseId" fs);
      courseName ← zOptionalString (jget "courseName" fs);
      personalizedDescription ← zOptionalString (jget "personalizedDescription" fs);
      if Js.truthy name && isEmail rt email then
        Some {| dp_name := name; dp_email := email; dp_badgeSlug := badgeSlug;
                dp_courseId := courseId; dp_courseName := courseName;
                dp_personalizedDescription := personalizedDescription |}
      else None
  | _ => None
  end.

Definition webhookRecordSchema (j : option json) : option WebhookRecord :=
  match j with
  | Some (JObj fs) =>
      course_id ← zString (jget "course_id" fs);
      course_name ← zOptionalString (jget "course_name" fs);
      user_email ← zString (jget "user_email" fs);
      user_name ← zString (jget "user_name" fs);
      metadata ← zOptionalRecord (jget "metadata" fs);
      if isEmail rt user_email then
        Some {| wr_course_id := course_id; wr_course_name := course_name;
                wr_user_email := user_email; wr_user_name := user_name;
                wr_metadata := metadata |}
      else None
  | _ => None
  end.

(** [supabaseWebhookSchema]; [old_record] is [z.any().nullable()] and
    accepts whatever is there, or nothing. *)
Definition supabaseWebhookSchema (j : json) : option WebhookRecord :=
  match j with
  | JObj fs =>
      _ ← zString (jget "type" fs);
      _ ← zString (jget "table" fs);
      _ ← zString (jget "schema" fs);
      webhookRecordSchema (jget "record" fs)
  | _ => None
  end.

(** The two-shape dispatch at the head of [POST]. *)
Definition parsePayload (j : json) : option Fields :=
  match supabaseWebhookSchema j with
  | Some record =>
      Some {| f_name := wr_user_name record;
              f_email := wr_user_email record;
              f_badgeSlug := None;
              f_courseId := Some (wr_course_id record);
              f_courseName := wr_course_name record;
              f_personalizedDescription :=
                match wr_metadata record with
                | Some fs => jget "personalizedDescription" fs
                | None => None
                end |}
  | None =>
      match directPayloadSchema j with
      | Some data =>
          Some {| f_name := dp_name data;
                  f_email := dp_email data;
                  f_badgeSlug := dp_badgeSlug data;
                  f_courseId := dp_courseId data;
                  f_courseName := dp_courseName data;
                  f_personalizedDescription := JStr <$> dp_personalizedDescription data |}
      | None => None
      end
  end.

Definition generatedDescription (courseName : string) : string :=
  "Recognized for successfully completing the " +:+ courseName
  +:+ " certification program.".

(** [if (courseName) personalizedDescription = ...]. *)
Definition effectiveDescription (f : Fields) : option json :=
  match f_courseName f with
  | Some courseName =>
      if Js.truthy courseName then Some (JStr (generatedDescription courseName))
      else f_personalizedDescription f
  | None => f_personalizedDescription f
  end.

Definition normalizedEmailOf (email : string) : string :=
  Js.or_else (normalize (Some email)) (Js.toLowerCase email).

Definition respond {A} (b : Body) (st : N) : Eff Outcome A :=
  exit (Responded (jsonResponse b st)).

(** [supabase.from("badges").select("id, slug, name").eq("slug", slug).single()]. *)
Definition selectBadge {E} (env : Env) (slug : string) : Eff E (QueryResult Badge) :=
  gets (fun w =>
    withFault (env_fault_badges_select env) (single (badgesBySlug slug (db w)))).

(** [supabase.from("people").select("id, name").eq("email", email).maybeSingle()]. *)
Definition selectPerson {E} (env : Env) (email : string) : Eff E (QueryResult Person) :=
  gets (fun w =>
    withFault (env_fault_people_select env) (maybeSingle (peopleByEmail email (db w)))).

(** [supabase.from("people").insert({ name, email }).select("id").single()]. *)
Definition createPerson {E} (env : Env) (name email : string)
  : Eff E (QueryResult Person) :=
  fun w =>
    match env_fault_people_insert env with
    | Some message => (w, Ok (qFail message))
    | None =>
        let row := {| person_id := env_new_person_id env; person_name := name;
                      person_email := email |} in
        (setDb (insertPerson row (db w)) w, Ok (qOk (Some row)))
    end.

(** [supabase.from("awards").select("id, issued_at").eq("person_id", personId)
    .eq("badge_id", badgeId).maybeSingle()]. *)
Definition selectAward {E} (env : Env) (personId badgeId : string)
  : Eff E (QueryResult Award) :=
  gets (fun w =>
    withFault (env_fault_awards_select env)
      (maybeSingle (awardsByPersonBadge personId badgeId (db w)))).

(** [supabase.from("awards").insert({ ... }).select("id, issued_at").single()]. *)
Definition createAward {E} (env : Env) (personId badgeId issuedAt : string)
    (personalizedDescription : option json) : Eff E (QueryResult Award) :=
  fun w =>
    match env_fault_awards_insert env with
    | Some message => (w, Ok (qFail message))
    | None =>
        let row := {| award_id := env_new_award_id env;
                      award_person_id := personId;
                      award_badge_id := badgeId;
                      award_issued_at := Some issuedAt;
                      award_personalized_description := personalizedDescription |} in
        (setDb (insertAward row (db w)) w, Ok (qOk (Some row)))
    end.

Definition CERTIFICATE_FAILED : string :=
  "Failed to generate or upload certificate SVG - check SUPABASE_SERVICE_ROLE_KEY".

(** Lines 92-138: the body is read as JSON and tried against the two
    schemas. *)
Definition parseRequest (request : Request) : Eff Outcome Fields :=
  match req_body request with
  | None => respond (BodyError "Invalid JSON payload" None) 400
  | Some json =>
      match parsePayload json with
      | None => respond BodyInvalidPayload 400
      | Some f => ret f
      end
  end.

(** Lines 147-164: the slug is resolved and the badge looked up.  The
    filter [.eq("slug", resolvedBadgeSlug)] and the error message both
    interpolate the resolved value, that is, use its string
    conversion. *)
Definition lookupBadge (env : Env) (f : Fields) : Eff Outcome Badge :=
  match resolveBadgeSlug {| p_badgeSlug := f_badgeSlug f; p_courseId := f_courseId f;
                            p_courseName := f_courseName f |} with
  | None => respond (BodyError "Badge could not be resolved from payload" None) 400
  | Some resolvedBadgeSlug =>
      if negb (truthyValue resolvedBadgeSlug)
      then respond (BodyError "Badge could not be resolved from payload" None) 400
      else
        let! badgeQuery := selectBadge env (toText resolvedBadgeSlug) in
        match q_error badgeQuery, q_data badgeQuery with
        | None, Some badge => ret badge
        | _, _ =>
            respond (BodyError ("Badge '" +:+ toText resolvedBadgeSlug +:+ "' not found")
                       (q_error badgeQuery)) 404
        end
  end.

(** Lines 166-198: upsert person by email. *)
Definition upsertPerson (env : Env) (name normalizedEmail : string)
  : Eff Outcome string :=
  let! personQuery := selectPerson env normalizedEmail in
  match q_error personQuery with
  | Some message => respond (BodyError "Failed to lookup person" (Some message)) 500
  | None =>
      let existingPerson := q_data personQuery in
      let insertNewPerson : Eff Outcome string :=
        let! created := createPerson env name normalizedEmail in
        match q_error created, q_data created with
        | None, Some createdPerson => ret (person_id createdPerson)
        | _, _ => respond (BodyError "Failed to create person" (q_error created)) 500
        end in
      match person_id <$> existingPerson with
      | Some personId => if Js.truthy personId then ret personId else insertNewPerson
      | None => insertNewPerson
      end
  end.

(** Lines 200-242: the existing award for this badge and person is
    reused when present, a new one inserted otherwise. *)
Definition upsertAward (env : Env) (personId badgeId issuedAt : string)
    (personalizedDescription : option json) : Eff Outcome Award :=
  let! awardQuery := selectAward env personId badgeId in
  match q_error awardQuery with
  | Some message =>
      respond (BodyError "Failed to lookup existing award" (Some message)) 500
  | None =>
      let existingAward := q_data awardQuery in
      match existingAward with
      | Some awardRecord => ret awardRecord
      | None =>
          let! created :=
            createAward env personId badgeId issuedAt personalizedDescription in
          match q_error created, q_data created with
          | None, Some createdAward => ret createdAward
          | _, _ => respond (BodyError "Failed to create award" (q_error created)) 500
          end
      end
  end.

(** Lines 244-260: the certificate is generated and uploaded inside
    [try]; the [catch] logs and leaves [certificateUrl] undefined. *)
Definition certificateUrlFor {E} (env : Env) (name issuedAtForCertificate : string)
    (awardRecord : Award) (badge : Badge) : Eff E (option string) :=
  catch
    (let! certificate :=
       generateCertificateAndUpload env
         {| go_recipientName := name;
            go_issuedAt := issuedAtForCertificate;
            go_verificationCode := award_id awardRecord;
            go_badgeTitle := badge_name badge;
            go_assetBaseUrl := None |} in
     ret (Some (publicUrl certificate)))
    (fun err =>
       let! _ := modify (consoleError (CERTIFICATE_FAILED +:+ " " +:+ err)) in
       ret None).

(** Lines 262-287: the notification is sent and the response built.
    The call of [sendAwardNotification] is not inside a [try]: what it
    throws leaves the handler. *)
Definition notifyAndRespond (env : Env) (request : Request) (f : Fields)
    (badge : Badge) (awardRecord : Award) (certificateUrl : option string)
  : Eff Outcome Response :=
  let name := f_name f in
  let personalizedDescription := effectiveDescription f in
  let normalizedEmail := normalizedEmailOf (f_email f) in
  let issuedAt := env_now env in
  let badgeUrl := req_origin request +:+ "/awards/" +:+ award_id awardRecord in
  let! emailResult :=
    sendAwardNotification env Threw
      {| n_to := normalizedEmail;
         n_recipientName := name;
         n_credentialName := badge_name badge;
         n_verificationCode := award_id awardRecord;
         n_badgeUrl := badgeUrl;
         n_personalizedDescription := personalizedDescription;
         n_certificateUrl := certificateUrl |} in
  let emailStatus := emailResult in
  ret (jsonResponse
         (BodyOk
            {| ok_badgeSlug := badge_slug badge;
               ok_recipientEmail := normalizedEmail;
               ok_recipientName := name;
               ok_award :=
                 {| av_id := award_id awardRecord;
                    av_verificationCode := award_id awardRecord;
                    av_issuedAt := default issuedAt (award_issued_at awardRecord);
                    av_personalizedDescription := personalizedDescription;
                    av_url := badgeUrl;
                    av_certificateUrl := certificateUrl |};
               ok_email := emailStatus |})
         200).

(** Everything up to and including the award upsert: the part of the
    handler that may still answer with an error status. *)
Definition issueAward (env : Env) (request : Request)
  : Eff Outcome (Fields * Badge * Award) :=
  let! f := parseRequest request in
  let personalizedDescription := effectiveDescription f in
  let! _ := getSupabaseAdminClient env Threw in
  let! badge := lookupBadge env f in
  let normalizedEmail := normalizedEmailOf (f_email f) in
  let! personId := upsertPerson env (f_name f) normalizedEmail in
  let issuedAt := env_now env in
  let! awardRecord :=
    upsertAward env personId (badge_id badge) issuedAt personalizedDescription in
  ret (f, badge, awardRecord).

(** The handler.  [emailStatus] starts as the "existing award reused"
    skip, as in the source (line 219), and is then assigned the result
    of the send (line 271). *)
Definition POST (env : Env) (request : Request) : Eff Outcome Response :=
  let! (f, badge, awardRecord) := issueAward env request in
  let emailStatus := skipped "existing award reused" in
  let issuedAt := env_now env in
  let issuedAtForCertificate := default issuedAt (award_issued_at awardRecord) in
  let! certificateUrl :=
    certificateUrlFor env (f_name f) issuedAtForCertificate awardRecord badge in
  notifyAndRespond env request f badge awardRecord certificateUrl.

(** One request served: the world after it and how the call ended. *)
Definition serve (env : Env) (request : Request) (w : World) : World * Outcome :=
  match POST env request w with
  | (w', Ok r) => (w', Responded r)
  | (w', Exit o) => (w', o)
  end.

End Pipeline.

(** ** Certificate generator, bundled-template variant
       ([unnamed/part_000])

    The template is a file of the public directory; the recipient line
    and the badge title are injected by regular-expression replacement.
    [ensurePublicBucket], [injectBaseHref], [mimeTypeFor] and the upload
    are the same as in the storage-template variant. *)

Module Bundled.

Definition TEMPLATE_HTML_PATH : string := "certificate-preview.html".
Definition ENOENT : string := "ENOENT: no such file or directory".

(** [readFile] of a path below the public directory. *)
Definition readFile (env : Env) (path : string) : Eff string string :=
  match env_local_file env path with
  | FileData bytes => ret bytes
  | FileENOENT => exit ENOENT
  | FileError message => exit message
  end.

Fixpoint take (n : nat) (s : string) : string :=
  match n, s with
  | S n', String c s' => String c (take n' s')
  | _, _ => EmptyString
  end.

(** The greedy run of characters other than [<]. *)
Fixpoint spanNotLt (s : string) : string * string :=
  match s with
  | EmptyString => (EmptyString, EmptyString)
  | String c s' =>
      if Ascii.eqb c "<"%char then (EmptyString, s)
      else let (run, rest) := spanNotLt s' in (String c run, rest)
  end.

(** A match of [/Awarded to[^<]+/] starting exactly here: its length. *)
Definition matchAwardLine (s : string) : option nat :=
  if Js.startsWith "Awarded to" s then
    let (run, _) := spanNotLt (Js.drop 10 s) in
    if Js.truthy run then Some (10 + String.length run) else None
  else None.

(** [template.replace(/Awarded to[^<]+/g, line)]. *)
Fixpoint replaceAwardLineFrom (line before s : string) (skip : nat) : string :=
  match s with
  | EmptyString => EmptyString
  | String c s' =>
      match skip with
      | S k => replaceAwardLineFrom line (before +:+ String c EmptyString) s' k
      | O =>
          match matchAwardLine s with
          | Some len =>
              Js.getSubstitution (take len s) before (Js.drop len s) line +:+
              replaceAwardLineFrom line (before +:+ String c EmptyString) s' (len - 1)
          | None =>
              String c (replaceAwardLineFrom line (before +:+ String c EmptyString) s' 0)
          end
      end
  end.

Definition replaceAwardLine (template line : string) : string :=
  replaceAwardLineFrom line EmptyString template 0.

Definition injectAwardLine (template recipientName issuedLabel : string)
  : result string string :=
  let line := "Awarded to " +:+ recipientName +:+ " on " +:+ issuedLabel in
  let replaced := replaceAwardLine template line in
  if negb (Js.includes replaced line)
  then Exit "Failed to inject name/date into certificate template"
  else Ok replaced.

Definition injectBadgeTitle (template badgeTitle : string) : result string string :=
  let badgeTitleUpper := Js.toUpperCase badgeTitle in
  let replaced := Js.replaceAll template "GREEN SOFTWARE PRACTITIONER" badgeTitleUpper in
  if negb (Js.includes replaced badgeTitleUpper)
  then Exit "Failed to inject badge title into certificate template"
  else Ok replaced.

Section Generator.

Variable rt : Runtime.

Fixpoint inlineEach (env : Env) (matches : list string) (res : string)
  : Eff string string :=
  match matches with
  | [] => ret res
  | relativeSrc :: rest =>
      let! data := readFile env relativeSrc in
      let mimeType := mimeTypeFor relativeSrc in
      let dataUri := "data:" +:+ mimeType +:+ ";base64," +:+ base64 rt data in
      inlineEach env rest
        (Js.replaceAll res
           ("src=" +:+ dquote +:+ relativeSrc +:+ dquote)
           ("src=" +:+ dquote +:+ dataUri +:+ dquote))
  end.

Definition inlineAssetSources (env : Env) (html : string) : Eff string string :=
  match assetMatches html with
  | [] => ret html
  | matches => inlineEach env matches html
  end.

Definition buildCertificateHtml (env : Env)
    (recipientName issuedLabel badgeTitle : string) : Eff string string :=
  let! template := readFile env TEMPLATE_HTML_PATH in
  let withBase := injectBaseHref rt template in
  let! withAwardLine := liftResult (injectAwardLine withBase recipientName issuedLabel) in
  let! withBadge := liftResult (injectBadgeTitle withAwardLine badgeTitle) in
  inlineAssetSources env withBadge.

Definition generateCertificatePdf (env : Env) (options : GenerateOptions)
  : Eff string string :=
  let issuedLabel := formatIssuedDate rt (go_issuedAt options) in
  let! html :=
    buildCertificateHtml env (go_recipientName options) issuedLabel
      (go_badgeTitle options) in
  htmlToPdf env html.

Definition generateCertificateAndUpload (env : Env) (options : GenerateOptions)
  : Eff string Certificate :=
  let verificationCode := go_verificationCode options in
  let issuedLabel := formatIssuedDate rt (go_issuedAt options) in
  let! pdfBytes := generateCertificatePdf env options in
  let pdfBuffer := pdfBytes in
  let! _ := ensurePublicBucket env in
  let! _ := getSupabaseAdminClient env id in
  let path := awardStoragePath verificationCode in
  let! uploadError := upload env CERT_BUCKET path pdfBuffer certificateUploadOptions in
  match uploadError with
  | Some message => exit ("Failed to upload certificate: " +:+ message)
  | None =>
      ret {| publicUrl := getPublicUrl rt CERT_BUCKET path;
             storagePath := path;
             issuedDateLabel := issuedLabel |}
  end.

End Generator.

End Bundled.

(** ** The e-mail check of the schema library

    [z.string().email()] tests the whole string against a regular
    expression.  In zod 3.23 it reads, case-insensitively: the string
    does not begin with a dot and has no two dots in a row; a local
    part of letters, digits and the characters _ ' + - . that ends in a
    letter, a digit or one of _ + -; an at sign; one or more labels,
    each a letter or digit followed by letters, digits and hyphens and
    closed by a dot; a last label of two or more letters. *)

Module Zod.

Definition between (lo hi : N) (c : ascii) : bool :=
  let n := N_of_ascii c in (lo <=? n)%N && (n <=? hi)%N.

Definition isLetter (c : ascii) : bool := between 65 90 c || between 97 122 c.

Definition isAlnum (c : ascii) : bool := isLetter c || between 48 57 c.

Definition localChar (c : ascii) : bool :=
  isAlnum c ||
  match c with
  | "_" | "'" | "+" | "-" | "." => true
  | _ => false
  end%char.

Definition localLast (c : ascii) : bool :=
  isAlnum c ||
  match c with
  | "_" | "+" | "-" => true
  | _ => false
  end%char.

Definition labelChar (c : ascii) : bool := isAlnum c || Ascii.eqb c "-".

Fixpoint allChars (f : ascii -> bool) (s : string) : bool :=
  match s with
  | EmptyString => true
  | String c s' => f c && allChars f s'
  end.

Fixpoint lastChar (s : string) : option ascii :=
  match s with
  | EmptyString => None
  | String c s' =>
      match lastChar s' with
      | Some d => Some d
      | None => Some c
      end
  end.

(** The string before and the string after the first at sign. *)
Fixpoint splitAtSign (s : string) : option (string * string) :=
  match s with
  | EmptyString => None
  | String c s' =>
      if Ascii.eqb c "@" then Some (EmptyString, s')
      else
        match splitAtSign s' with
        | Some (before, after) => Some (String c before, after)
        | None => None
        end
  end.

(** The strings between the dots. *)
Fixpoint labels (s : string) : list string :=
  match s with
  | EmptyString => [EmptyString]
  | String c s' =>
      if Ascii.eqb c "." then EmptyString :: labels s'
      else
        match labels s' with
        | l :: ls => String c l :: ls
        | [] => [String c EmptyString]
        end
  end.

Definition labelOk (l : string) : bool :=
  match l with
  | EmptyString => false
  | String c l' => isAlnum c && allChars labelChar l'
  end.

Definition lastLabelOk (l : string) : bool :=
  allChars isLetter l && Nat.leb 2 (String.length l).

Fixpoint labelsThenLast (ls : list string) : bool :=
  match ls with
  | [] => false
  | [l] => lastLabelOk l
  | l :: rest => labelOk l && labelsThenLast rest
  end.

Definition domainOk (domain : string) : bool :=
  match labels domain with
  | l :: (_ :: _) as rest => labelOk l && labelsThenLast rest
  | _ => false
  end.

Definition localOk (local : string) : bool :=
  allChars localChar local &&
  match lastChar local with
  | Some c => localLast c
  | None => false
  end.

Definition email (s : string) : bool :=
  negb (Js.startsWith "." s) && negb (Js.includes s "..") &&
  match splitAtSign s with
  | Some (local, domain) => localOk local && domainOk domain
  | None => false
  end.

End Zod.

(** ** A concrete deployment, for the worked examples *)

Definition demoRuntime : Runtime := {|
  isEmail := Zod.email;
  toLocaleDateString := fun _ => "March 3, 2025";
  base64 := fun bytes => bytes;
  getPublicUrl := fun bucket path =>
    "https://db.example/storage/v1/object/public/" +:+ bucket +:+ "/" +:+ path;
  publicDirHref := "file:///var/task/public/"
|}.

Definition demoEnv : Env := {|
  env_SUPABASE_SERVICE_ROLE_KEY := Some "service-role";
  env_RESEND_API_KEY := Some "re_key";
  env_RESEND_FROM_EMAIL := Some "badges@example.org";
  env_site_urls := [];
  env_now := "2025-03-03T10:00:00.000Z";
  env_fault_badges_select := None;
  env_fault_people_select := None;
  env_fault_people_insert := None;
  env_new_person_id := "p-1";
  env_fault_awards_select := None;
  env_fault_awards_insert := None;
  env_new_award_id := "a-1";
  env_not_found :=
    {| se_status := Some (SNum 404); se_statusCode := None;
       se_message := "Object not found" |};
  env_fault_getBucket := None;
  env_fault_createBucket := None;
  env_fault_download := None;
  env_fault_upload := None;
  env_local_file := fun _ => FileENOENT;
  env_remote_fetch := fun _ => FetchThrew "fetch failed";
  env_render_pdf := fun html => inr ("%PDF-1.7 " +:+ html);
  env_send := SendDelivered
|}.

Definition demoTemplate : string :=
  "<html><head></head><body><h1>${CourseName}</h1><p>${Name}</p><p>{Date}</p></body></html>".

Definition demoBadge : Badge :=
  {| badge_id := "b-1"; badge_slug := "green-software-practitioner";
     badge_name := "Green Software Practitioner" |}.

Definition demoWorld : World := {|
  db := {| badges := [demoBadge]; people := []; awards := [] |};
  storage :=
    {| buckets := {[ CERT_BUCKET := true ]};
       objects :=
         {[ (CERT_BUCKET, TEMPLATE_STORAGE_PATH) :=
              {| obj_body := demoTemplate; obj_contentType := "text/html";
                 obj_cacheControl := "0" |} ]} |};
  outbox := [];
  console := []
|}.

Definition directRequest (members : list (string * json)) : Request :=
  {| req_body := Some (JObj members); req_origin := "https://badges.example" |}.

Definition demoRequest : Request :=
  directRequest
    [ ("name", JStr "Jane Doe"); ("email", JStr "jane@x.com"); ("courseId", JStr "gsp") ].


(** * Properties *)

(** ** Badge resolution *)

(** The alias of one optional payload member: normalised, then read
    from the table. *)
Definition lookupAlias (v : option string) : option TableValue :=
  match normalize v with
  | Some c => aliasHit c
  | None => None
  end.

Lemma alias_entries :
  map_to_list COURSE_TO_BADGE_SLUG ≡ₚ
    [ ("green-software-practitioner", "green-software-practitioner");
      ("green software practitioner", "green-software-practitioner");
      ("green-software-for-practitioners", "green-software-practitioner");
      ("green software for practitioners", "green-software-practitioner");
      ("gsp", "green-software-practitioner");
      ("sustainable-cloud-specialist", "sustainable-cloud-specialist");
      ("sustainable cloud specialist", "sustainable-cloud-specialist");
      ("scs", "sustainable-cloud-specialist") ].
Proof.
  unfold COURSE_TO_BADGE_SLUG. apply map_to_list_to_map.
  refine (bool_decide_unpack _ _). vm_compute. reflexivity.
Qed.

Definition PRACTITIONER : string := "green-software-practitioner".
Definition CLOUD_SPECIALIST : string := "sustainable-cloud-specialist".

(** Every own entry of the table holds one of the two canonical
    slugs. *)
Lemma alias_values (c slug : string) :
  COURSE_TO_BADGE_SLUG !! c = Some slug -> slug = PRACTITIONER \/ slug = CLOUD_SPECIALIST.
Proof.
  intros H.
  assert ((c, slug) ∈ map_to_list COURSE_TO_BADGE_SLUG) as Hin.
  { apply elem_of_map_to_list. exact H. }
  rewrite alias_entries in Hin. apply list_elem_of_In in Hin. simpl in Hin.
  repeat (destruct Hin as [Hin | Hin];
          [injection Hin as <- <-; first [now left | now right]|]).
  contradiction.
Qed.



Lemma aliasHit_empty : aliasHit EmptyString = None.
Proof. vm_compute. reflexivity. Qed.

(** A hit is what the table read gave. *)
Lemma aliasHit_tableRead (c : string) (v : TableValue) :
  aliasHit c = Some v -> tableRead c = Some v.
Proof.
  unfold aliasHit. destruct (tableRead c) as [v'|]; [|discriminate].
  destruct (truthyValue v'); [|discriminate]. now intros [= <-].
Qed.

Lemma filterBoolean_cons (x : option string) (xs : list (option string)) :
  filterBoolean (x :: xs) =
  match x with
  | Some s => if Js.truthy s then s :: filterBoolean xs else filterBoolean xs
  | None => filterBoolean xs
  end.
Proof. destruct x; reflexivity. Qed.

(** A member that normalises to nothing usable contributes no
    candidate and no alias. *)
Lemma firstAliasHit_step (v : option string) (rest : list (option string)) :
  firstAliasHit (filterBoolean (normalize v :: rest)) =
  match lookupAlias v with
  | Some hit => Some hit
  | None => firstAliasHit (filterBoolean rest)
  end.
Proof.
  unfold lookupAlias. rewrite filterBoolean_cons.
  destruct (normalize v) as [c|]; [|reflexivity].
  destruct c as [|a c]; simpl.
  - rewrite aliasHit_empty. reflexivity.
  - destruct (aliasHit (String a c)); reflexivity.
Qed.

Lemma resolveBadgeSlug_cascade (p : SlugParams) :
  resolveBadgeSlug p =
  match lookupAlias (p_badgeSlug p) with
  | Some hit => Some hit
  | None =>
      match lookupAlias (p_courseId p) with
      | Some hit => Some hit
      | None =>
          match lookupAlias (p_courseName p) with
          | Some hit => Some hit
          | None => Some (Slug DEFAULT_BADGE_SLUG)
          end
      end
  end.
Proof.
  unfold resolveBadgeSlug, candidates.
  rewrite !firstAliasHit_step. simpl.
  destruct (lookupAlias (p_badgeSlug p)); [reflexivity|].
  destruct (lookupAlias (p_courseId p)); [reflexivity|].
  destruct (lookupAlias (p_courseName p)); reflexivity.
Qed.


(** *** Candidates are lower-case *)

Lemma lowerChar_idem (c : ascii) : Js.lowerChar (Js.lowerChar c) = Js.lowerChar c.
Proof. destruct c as [[] [] [] [] [] [] [] []]; vm_compute; reflexivity. Qed.

Lemma toLowerCase_idem (s : string) :
  Js.toLowerCase (Js.toLowerCase s) = Js.toLowerCase s.
Proof.
  unfold Js.toLowerCase. induction s as [|c s IH]; [reflexivity|].
  simpl. now rewrite lowerChar_idem, IH.
Qed.

Lemma normalize_lower (v : option string) (c : string) :
  normalize v = Some c -> Js.toLowerCase c = c.
Proof.
  unfold normalize. destruct v as [s|]; [|discriminate].
  destruct (Js.truthy s); [|discriminate]. intros [= <-]. apply toLowerCase_idem.
Qed.



(** Of the names [Object.prototype] defines, two are lower-case. *)
Lemma lower_member (c : string) :
  Js.toLowerCase c = c ->
  existsb (String.eqb c) OBJECT_PROTOTYPE_MEMBERS = true ->
  c = "constructor" \/ c = "__proto__".
Proof.
  intros Hl Hm. unfold OBJECT_PROTOTYPE_MEMBERS in Hm. cbn [existsb] in Hm.
  repeat (apply orb_true_iff in Hm as [Hm | Hm];
          [apply String.eqb_eq in Hm; subst c;
           first [now left | now right | (vm_compute in Hl; discriminate Hl)]|]).
  discriminate Hm.
Qed.




(** What a lower-case candidate can hit. *)
Lemma aliasHit_range (c : string) (v : TableValue) :
  Js.toLowerCase c = c -> aliasHit c = Some v ->
  v = Slug PRACTITIONER \/ v = Slug CLOUD_SPECIALIST \/
  v = Member "constructor" \/ v = Member "__proto__".
Proof.
  intros Hl Hhit. apply aliasHit_tableRead in Hhit. unfold tableRead in Hhit.
  destruct (COURSE_TO_BADGE_SLUG !! c) as [slug|] eqn:Hown.
  - injection Hhit as <-. destruct (alias_values _ _ Hown) as [-> | ->]; auto.
  - destruct (existsb (String.eqb c) OBJECT_PROTOTYPE_MEMBERS) eqn:Hm; [|discriminate].
    injection Hhit as <-. destruct (lower_member c Hl Hm) as [-> | ->]; auto.
Qed.

Lemma lookupAlias_range (v : option string) (hit : TableValue) :
  lookupAlias v = Some hit ->
  hit = Slug PRACTITIONER \/ hit = Slug CLOUD_SPECIALIST \/
  hit = Member "constructor" \/ hit = Member "__proto__".
Proof.
  unfold lookupAlias. destruct (normalize v) as [c|] eqn:Hn; [|discriminate].
  apply aliasHit_range. eapply normalize_lower, Hn.
Qed.

(** *** The payload members are ASCII strings *)

Definition optAscii (v : option string) : bool :=
  match v with
  | Some s => Js.isAscii s
  | None => true
  end.

Definition asciiParams (p : SlugParams) : Prop :=
  optAscii (p_badgeSlug p) = true /\ optAscii (p_courseId p) = true /\
  optAscii (p_courseName p) = true.






(** The inherited names at work: the explicit slug [constructor] hits
    the function [Object], whatever the course id says, and the handler
    goes on to look for a badge whose slug is the text of that
    function. *)
Example resolveBadgeSlug_constructor :
  let p := {| p_badgeSlug := Some "constructor"; p_courseId := Some "scs";
              p_courseName := None |} in
  resolveBadgeSlug p = Some (Member "constructor") /\
  toText (Member "constructor") = "function Object() { [native code] }".
Proof. split; vm_compute; reflexivity. Qed.






(** ** E-mail normalisation *)

Fixpoint allWhite (s : string) : bool :=
  match s with
  | EmptyString => true
  | String c s' => Js.isWhiteSpace c && allWhite s'
  end.

Lemma trimStart_empty (s : string) :
  Js.trimStart s = EmptyString -> allWhite s = true.
Proof.
  induction s as [|c s IH]; simpl; [reflexivity|].
  destruct (Js.isWhiteSpace c); [exact IH|discriminate].
Qed.

Lemma trimEnd_empty (s : string) :
  Js.trimEnd s = EmptyString -> allWhite s = true.
Proof.
  induction s as [|c s IH]; simpl; [reflexivity|].
  destruct (Js.trimEnd s) eqn:Ht; [|discriminate].
  destruct (Js.isWhiteSpace c); [intros _; now apply IH|discriminate].
Qed.

Lemma allWhite_trimStart (s : string) :
  allWhite (Js.trimStart s) = true -> allWhite s = true.
Proof.
  induction s as [|c s IH]; simpl; [reflexivity|].
  destruct (Js.isWhiteSpace c) eqn:Hc; simpl; [exact IH|].
  rewrite Hc. discriminate.
Qed.

Lemma trim_empty (s : string) : Js.trim s = EmptyString -> allWhite s = true.
Proof. intros H. apply allWhite_trimStart, trimEnd_empty, H. Qed.

Lemma white_is_not_at (c : ascii) :
  Js.isWhiteSpace c = true -> Ascii.eqb "@" c = false.
Proof.
  destruct c as [[] [] [] [] [] [] [] []]; simpl; intros H;
    first [reflexivity | discriminate H].
Qed.

Lemma allWhite_no_at (s : string) :
  allWhite s = true -> Js.includes s "@" = false.
Proof.
  induction s as [|c s IH]; [reflexivity|].
  cbn [allWhite]. intros [Hc Hs]%andb_true_iff.
  change (Js.includes (String c s) "@")
    with ((if Ascii.eqb "@" c then true else false) || Js.includes s "@").
  rewrite (white_is_not_at c Hc), (IH Hs). reflexivity.
Qed.

(** An address that contains an [@] is not blank. *)
Lemma trim_nonempty_of_at (e : string) :
  Js.includes e "@" = true -> Js.trim e <> EmptyString.
Proof.
  intros Hat Hblank. apply trim_empty, allWhite_no_at in Hblank. congruence.
Qed.

Lemma mapChars_truthy (f : ascii -> ascii) (s : string) :
  Js.truthy (Js.mapChars f s) = Js.truthy s.
Proof. destruct s; reflexivity. Qed.

(** For an address that is not blank, the identity key is the trimmed,
    lower-cased address. *)
Lemma normalizedEmailOf_trim (e : string) :
  Js.trim e <> EmptyString -> normalizedEmailOf e = Js.toLowerCase (Js.trim e).
Proof.
  intros Hne. unfold normalizedEmailOf, normalize.
  destruct e as [|c e]; [now contradiction Hne|].
  simpl Js.truthy. cbv iota. unfold Js.or_else, Js.toLowerCase.
  rewrite mapChars_truthy.
  destruct (Js.trim (String c e)); [now contradiction Hne|reflexivity].
Qed.

(** *** What the e-mail check of the schema library accepts *)

(** An ASCII character that is not white space. *)
Definition plainChar (c : ascii) : bool :=
  Js.isAsciiChar c && negb (Js.isWhiteSpace c).

Lemma allChars_app (f : ascii -> bool) (a b : string) :
  Zod.allChars f (a +:+ b) = Zod.allChars f a && Zod.allChars f b.
Proof.
  induction a as [|c a IH]; [reflexivity|].
  change (Zod.allChars f (String c a +:+ b)) with (f c && Zod.allChars f (a +:+ b)).
  rewrite IH. apply andb_assoc.
Qed.

Lemma allChars_impl (f g : ascii -> bool) (s : string) :
  (forall c, f c = true -> g c = true) ->
  Zod.allChars f s = true -> Zod.allChars g s = true.
Proof.
  intros Hfg. induction s as [|c s IH]; [reflexivity|]. simpl.
  intros [Hc Hs]%andb_true_iff. rewrite (Hfg c Hc). now apply IH.
Qed.

Lemma splitAtSign_app (s local domain : string) :
  Zod.splitAtSign s = Some (local, domain) -> s = local +:+ String "@" domain.
Proof.
  revert local. induction s as [|c s IH]; intros local; [discriminate|]. simpl.
  destruct (Ascii.eqb c "@") eqn:Hc.
  - apply Ascii.eqb_eq in Hc. subst c. now intros [= <- <-].
  - destruct (Zod.splitAtSign s) as [[before after]|]; [|discriminate].
    intros [= <- <-]. pose proof (IH before eq_refl) as ->. reflexivity.
Qed.

Lemma includes_at (a b : string) : Js.includes (a +:+ String "@" b) "@" = true.
Proof.
  induction a as [|c a IH]; [reflexivity|].
  change (Js.includes (String c a +:+ String "@" b) "@")
    with ((if Ascii.eqb "@" c then true else false)
          || Js.includes (a +:+ String "@" b) "@").
  rewrite IH. apply orb_true_r.
Qed.

Lemma labels_chars (P : ascii -> bool) (d : string) :
  Forall (fun l => Zod.allChars P l = true) (Zod.labels d) ->
  Zod.allChars (fun c => P c || Ascii.eqb c ".") d = true.
Proof.
  induction d as [|c d IH]; [reflexivity|]. simpl.
  destruct (Ascii.eqb c ".") eqn:Hc.
  - intros H. apply Forall_cons in H as [_ H]. rewrite orb_true_r. now apply IH.
  - destruct (Zod.labels d) as [|l ls].
    + intros H. apply Forall_cons in H as [H _]. simpl in H.
      apply andb_true_iff in H as [H _]. rewrite H. simpl. apply IH. constructor.
    + intros H. apply Forall_cons in H as [H Hls]. simpl in H.
      apply andb_true_iff in H as [H Hl]. rewrite H. simpl. apply IH.
      now constructor.
Qed.

Lemma letter_label (c : ascii) : Zod.isLetter c = true -> Zod.labelChar c = true.
Proof. intros H. unfold Zod.labelChar, Zod.isAlnum. now rewrite H. Qed.

Lemma labelOk_chars (l : string) :
  Zod.labelOk l = true -> Zod.allChars Zod.labelChar l = true.
Proof.
  destruct l as [|c l]; [discriminate|]. simpl.
  intros [Hc Hl]%andb_true_iff. unfold Zod.labelChar at 1. now rewrite Hc, Hl.
Qed.

Lemma labelsThenLast_chars (ls : list string) :
  Zod.labelsThenLast ls = true ->
  Forall (fun l => Zod.allChars Zod.labelChar l = true) ls.
Proof.
  induction ls as [|l ls IH]; [discriminate|].
  destruct ls as [|l' ls].
  - simpl. unfold Zod.lastLabelOk. intros [H _]%andb_true_iff.
    constructor; [|constructor]. eapply allChars_impl, H. apply letter_label.
  - change (Zod.labelsThenLast (l :: l' :: ls))
      with (Zod.labelOk l && Zod.labelsThenLast (l' :: ls)).
    intros [Hl Hrest]%andb_true_iff.
    constructor; [now apply labelOk_chars|now apply IH].
Qed.

Lemma domainOk_chars (d : string) :
  Zod.domainOk d = true ->
  Zod.allChars (fun c => Zod.labelChar c || Ascii.eqb c ".") d = true.
Proof.
  unfold Zod.domainOk. intros H. apply labels_chars.
  destruct (Zod.labels d) as [|l [|l' ls]]; try discriminate.
  apply andb_true_iff in H as [Hl Hrest].
  constructor; [now apply labelOk_chars|now apply labelsThenLast_chars].
Qed.

Lemma localChar_plain (c : ascii) : Zod.localChar c = true -> plainChar c = true.
Proof.
  destruct c as [[] [] [] [] [] [] [] []]; vm_compute; intros H;
    first [reflexivity | discriminate H].
Qed.

Lemma domainChar_plain (c : ascii) :
  Zod.labelChar c || Ascii.eqb c "." = true -> plainChar c = true.
Proof.
  destruct c as [[] [] [] [] [] [] [] []]; vm_compute; intros H;
    first [reflexivity | discriminate H].
Qed.

(** An accepted address consists of ASCII characters other than white
    space, one of them an at sign. *)
Lemma email_plain (s : string) :
  Zod.email s = true -> Zod.allChars plainChar s = true /\ Js.includes s "@" = true.
Proof.
  unfold Zod.email. intros [_ H]%andb_true_iff.
  destruct (Zod.splitAtSign s) as [[local domain]|] eqn:Hs; [|discriminate].
  apply splitAtSign_app in Hs. subst s.
  apply andb_true_iff in H as [Hl Hd]. unfold Zod.localOk in Hl.
  apply andb_true_iff in Hl as [Hl _]. apply domainOk_chars in Hd.
  split; [|apply includes_at].
  rewrite allChars_app. apply andb_true_iff. split.
  - eapply allChars_impl, Hl. apply localChar_plain.
  - simpl. eapply allChars_impl, Hd. apply domainChar_plain.
Qed.

Lemma plain_isAscii (s : string) :
  Zod.allChars plainChar s = true -> Js.isAscii s = true.
Proof.
  induction s as [|c s IH]; [reflexivity|]. simpl.
  intros [Hc Hs]%andb_true_iff. unfold plainChar in Hc.
  apply andb_true_iff in Hc as [Hc _]. rewrite Hc. now apply IH.
Qed.

Lemma plain_trimEnd (s : string) :
  Zod.allChars plainChar s = true -> Js.trimEnd s = s.
Proof.
  induction s as [|c s IH]; [reflexivity|]. cbn [Zod.allChars Js.trimEnd].
  intros [Hc Hs]%andb_true_iff. rewrite (IH Hs).
  unfold plainChar in Hc. apply andb_true_iff in Hc as [_ Hc].
  apply negb_true_iff in Hc. rewrite Hc. now destruct s.
Qed.

Lemma plain_trim (s : string) : Zod.allChars plainChar s = true -> Js.trim s = s.
Proof.
  intros H. unfold Js.trim.
  assert (Js.trimStart s = s) as ->; [|now apply plain_trimEnd].
  destruct s as [|c s]; [reflexivity|]. simpl in *.
  apply andb_true_iff in H as [Hc _]. unfold plainChar in Hc.
  apply andb_true_iff in Hc as [_ Hc]. apply negb_true_iff in Hc. now rewrite Hc.
Qed.

(** What is assumed of the e-mail check of the schema library: an
    address it accepts is an ASCII string, contains an at sign, and has
    no white space at either end. *)
Definition validatorStrict (rt : Runtime) : Prop :=
  forall e,
    isEmail rt e = true ->
    Js.isAscii e = true /\ Js.includes e "@" = true /\ Js.trim e = e.

(** The check of zod 3.23 is of that kind. *)
Lemma zod_email_strict : validatorStrict demoRuntime.
Proof.
  intros e H. change (Zod.email e = true) in H.
  apply email_plain in H as [Hplain Hat].
  split; [now apply plain_isAscii|]. split; [exact Hat|now apply plain_trim].
Qed.

(** ** Placeholder substitution *)

Lemma replacePlaceholders_missing_name
    (template recipientName issuedLabel badgeTitle : string) :
  Js.includes template NAME_PLACEHOLDER = false ->
  replacePlaceholders template recipientName issuedLabel badgeTitle
  = Exit ("Certificate template missing placeholder " +:+ NAME_PLACEHOLDER).
Proof. intros H. unfold replacePlaceholders. simpl. now rewrite H. Qed.

(** A template from which the date placeholder was dropped. *)
Definition templateWithoutDate : string :=
  "<html><head></head><body><h1>${CourseName}</h1><p>${Name}</p></body></html>".

(** C7 at the failing input: the template has no date placeholder, the
    recipient name is the text of that placeholder.  The check for the
    date placeholder runs on the text in which the name has already
    been substituted, finds the placeholder there, and the function
    returns a document (with the date where the name belongs) instead
    of failing. *)
Theorem replacePlaceholders_missing_date_undetected :
  Js.includes templateWithoutDate DATE_PLACEHOLDER = false /\
  replacePlaceholders templateWithoutDate "{Date}" "March 3, 2025"
    "Green Software Practitioner"
  = Ok "<html><head></head><body><h1>GREEN SOFTWARE PRACTITIONER</h1><p>March 3, 2025</p></body></html>".
Proof. split; vm_compute; reflexivity. Qed.

(** The same template with an ordinary recipient name is rejected. *)
Example replacePlaceholders_missing_date_detected :
  replacePlaceholders templateWithoutDate "Jane Doe" "March 3, 2025"
    "Green Software Practitioner"
  = Exit "Certificate template missing placeholder {Date}".
Proof. vm_compute. reflexivity. Qed.

(** A replacement value is read as a replacement pattern: a name that
    contains [$&] puts the placeholder back. *)
Example replacePlaceholders_dollar_pattern :
  replacePlaceholders demoTemplate "A$&B" "March 3, 2025" "Green Software Practitioner"
  = Ok "<html><head></head><body><h1>GREEN SOFTWARE PRACTITIONER</h1><p>A${Name}B</p><p>March 3, 2025</p></body></html>".
Proof. vm_compute. reflexivity. Qed.

(** The bundled-template variant: the badge title check passes on a
    template without the title placeholder when the upper-cased title
    occurs elsewhere in the document. *)
Example injectBadgeTitle_missing_undetected :
  let template := "<h1>GREEN SOFTWARE FOUNDATION</h1><p>Awarded to Jane Doe on March 3, 2025</p>" in
  Js.includes template "GREEN SOFTWARE PRACTITIONER" = false /\
  Bundled.injectBadgeTitle template "Green Software" = Ok template.
Proof. split; vm_compute; reflexivity. Qed.

Example injectAwardLine_replaces :
  Bundled.injectAwardLine "<p>Awarded to NAME on DATE</p>" "Jane Doe" "March 3, 2025"
  = Ok "<p>Awarded to Jane Doe on March 3, 2025</p>".
Proof. vm_compute. reflexivity. Qed.

Example injectAwardLine_missing :
  Bundled.injectAwardLine "<p>Presented to NAME</p>" "Jane Doe" "March 3, 2025"
  = Exit "Failed to inject name/date into certificate template".
Proof. vm_compute. reflexivity. Qed.

(** ** What a computation leaves untouched *)

(** [preserves proj m]: running [m] never changes the [proj] component
    of the world, whether it returns or leaves early. *)
Definition preserves {E A S} (proj : World -> S) (m : Eff E A) : Prop :=
  forall w, proj (fst (m w)) = proj w.

Section Preserves.

Context {S : Type} (proj : World -> S).

Lemma preserves_ret {E A} (a : A) : preserves proj (ret (E := E) a).
Proof. intros w. reflexivity. Qed.

Lemma preserves_exit {E A} (e : E) : preserves proj (exit (A := A) e).
Proof. intros w. reflexivity. Qed.

Lemma preserves_gets {E A} (f : World -> A) : preserves proj (gets (E := E) f).
Proof. intros w. reflexivity. Qed.

Lemma preserves_modify {E} (f : World -> World) :
  (forall w, proj (f w) = proj w) -> preserves proj (modify (E := E) f).
Proof. intros H w. apply H. Qed.

Lemma preserves_bind {E A B} (m : Eff E A) (k : A -> Eff E B) :
  preserves proj m -> (forall a, preserves proj (k a)) -> preserves proj (bind m k).
Proof.
  intros Hm Hk w. unfold bind. specialize (Hm w).
  destruct (m w) as [w1 [a|e]]; simpl in *; [|exact Hm].
  rewrite Hk. exact Hm.
Qed.

Lemma preserves_catch {E E' A} (m : Eff E A) (h : E -> Eff E' A) :
  preserves proj m -> (forall e, preserves proj (h e)) -> preserves proj (catch m h).
Proof.
  intros Hm Hh w. unfold catch. specialize (Hm w).
  destruct (m w) as [w1 [a|e]]; simpl in *; [exact Hm|].
  rewrite Hh. exact Hm.
Qed.

Lemma preserves_liftResult {E A} (r : result E A) : preserves proj (liftResult r).
Proof. destruct r; intros w; reflexivity. Qed.

Lemma preserves_getSupabaseAdminClient {E} (env : Env) (raise : string -> E) :
  preserves proj (getSupabaseAdminClient env raise).
Proof.
  unfold getSupabaseAdminClient.
  destruct (Js.truthy _); [apply preserves_ret|apply preserves_exit].
Qed.

End Preserves.

Create HintDb frame.

#[export] Hint Resolve preserves_ret preserves_exit preserves_gets
  preserves_liftResult preserves_getSupabaseAdminClient : frame.

(** One step of a frame proof: split a [bind] or a [catch], or case on
    what a branch scrutinises. *)
Ltac frame_step :=
  match goal with
  | |- preserves _ (bind _ _) => apply preserves_bind; [|intros ?]
  | |- preserves _ (catch _ _) => apply preserves_catch; [|intros ?]
  | |- preserves _ (match ?x with _ => _ end) => destruct x
  end.

Ltac frame := repeat first [solve [auto with frame] | frame_step].

(** A component of the world that the storage service and the console
    do not touch. *)
Definition storageBlind {S} (proj : World -> S) : Prop :=
  (forall s w, proj (setStorage s w) = proj w) /\
  (forall line w, proj (consoleError line w) = proj w).

Lemma db_storageBlind : storageBlind db.
Proof. split; reflexivity. Qed.

Lemma outbox_storageBlind : storageBlind outbox.
Proof. split; reflexivity. Qed.

(** A component of the world that the mail provider and the console do
    not touch. *)
Definition mailBlind {S} (proj : World -> S) : Prop :=
  (forall m w, proj (pushMail m w) = proj w) /\
  (forall line w, proj (consoleError line w) = proj w).

Lemma db_mailBlind : mailBlind db.
Proof. split; reflexivity. Qed.

Lemma storage_mailBlind : mailBlind storage.
Proof. split; reflexivity. Qed.

Section StorageFrame.

Context {S : Type} (proj : World -> S) (Hblind : storageBlind proj).

Lemma preserves_getBucket {E} env id : preserves proj (getBucket (E := E) env id).
Proof. apply preserves_gets. Qed.

Lemma preserves_download {E} env bucket path :
  preserves proj (download (E := E) env bucket path).
Proof. apply preserves_gets. Qed.

Lemma preserves_createBucket {E} env id public :
  preserves proj (createBucket (E := E) env id public).
Proof.
  intros w. unfold createBucket.
  destruct (env_fault_createBucket env); [reflexivity|].
  destruct (buckets (storage w) !! id); [reflexivity|]. apply Hblind.
Qed.

Lemma preserves_upload {E} env bucket path body opts :
  preserves proj (upload (E := E) env bucket path body opts).
Proof.
  intros w. unfold upload.
  destruct (env_fault_upload env); [reflexivity|].
  destruct (buckets (storage w) !! bucket); [|reflexivity].
  destruct (_ && _); [reflexivity|]. apply Hblind.
Qed.

Hint Resolve preserves_getBucket preserves_download preserves_createBucket
  preserves_upload : frame.

Lemma preserves_ensurePublicBucket env : preserves proj (ensurePublicBucket env).
Proof. unfold ensurePublicBucket. frame. Qed.

Hint Resolve preserves_ensurePublicBucket : frame.

Lemma preserves_downloadTemplateFromStorage env :
  preserves proj (downloadTemplateFromStorage env).
Proof. unfold downloadTemplateFromStorage. frame. Qed.

Lemma preserves_fetchAsset env relativeSrc assetBaseUrl :
  preserves proj (fetchAsset env relativeSrc assetBaseUrl).
Proof. unfold fetchAsset. frame. Qed.

Lemma preserves_htmlToPdf env html : preserves proj (htmlToPdf env html).
Proof. unfold htmlToPdf. frame. Qed.

Hint Resolve preserves_downloadTemplateFromStorage preserves_fetchAsset
  preserves_htmlToPdf : frame.

Lemma preserves_inlineEach rt env assetBaseUrl matches res :
  preserves proj (inlineEach rt env assetBaseUrl matches res).
Proof.
  revert res. induction matches as [|m ms IH]; intros res; simpl; frame.
Qed.

Hint Resolve preserves_inlineEach : frame.

Lemma preserves_inlineAssetSources rt env html assetBaseUrl :
  preserves proj (inlineAssetSources rt env html assetBaseUrl).
Proof. unfold inlineAssetSources. frame. Qed.

Hint Resolve preserves_inlineAssetSources : frame.

Lemma preserves_generateCertificatePdf rt env options :
  preserves proj (generateCertificatePdf rt env options).
Proof. unfold generateCertificatePdf, buildCertificateHtml. frame. Qed.

Hint Resolve preserves_generateCertificatePdf : frame.

Lemma preserves_generateCertificateAndUpload rt env options :
  preserves proj (generateCertificateAndUpload rt env options).
Proof. unfold generateCertificateAndUpload. frame. Qed.

Lemma preserves_certificateUrlFor {E} rt env name issuedAt award badge :
  preserves proj (certificateUrlFor (E := E) rt env name issuedAt award badge).
Proof.
  unfold certificateUrlFor.
  apply preserves_catch.
  - apply preserves_bind; [apply preserves_generateCertificateAndUpload|].
    intros c. apply preserves_ret.
  - intros err. apply preserves_bind; [|intros; apply preserves_ret].
    apply preserves_modify. intros w. apply Hblind.
Qed.

End StorageFrame.

Section MailFrame.

Context {S : Type} (proj : World -> S) (Hblind : mailBlind proj).

Lemma preserves_sendAwardNotification {E} env (raise : string -> E) a :
  preserves proj (sendAwardNotification env raise a).
Proof.
  unfold sendAwardNotification.
  destruct (getResendClient env); [|apply preserves_ret].
  destruct (getFromAddress env); [|apply preserves_ret].
  destruct (Js.truthy _); [|apply preserves_ret].
  destruct (descriptionThrows _); [apply preserves_exit|].
  apply preserves_bind.
  - apply preserves_modify. intros w. apply Hblind.
  - intros _. destruct (env_send env); try apply preserves_ret.
    apply preserves_bind; [|intros; apply preserves_ret].
    apply preserves_modify. intros w. apply Hblind.
Qed.

Lemma preserves_notifyAndRespond env request f badge award url :
  preserves proj (notifyAndRespond env request f badge award url).
Proof.
  unfold notifyAndRespond.
  apply preserves_bind; [apply preserves_sendAwardNotification|].
  intros st. apply preserves_ret.
Qed.

End MailFrame.

(** ** The notification step, in closed form *)

(** Both a client and a sender address are configured. *)
Definition mailConfigured (env : Env) : bool :=
  match getResendClient env, getFromAddress env with
  | Some _, Some fromAddress => Js.truthy fromAddress
  | _, _ => false
  end.

(** The provider is configured and the description handed over cannot
    be converted to a string: the one case in which
    [sendAwardNotification] throws. *)
Definition notificationThrows (env : Env) (description : option json) : bool :=
  mailConfigured env && descriptionThrows description.

(** The status [sendAwardNotification] reports under [env], when it
    returns. *)
Definition notificationStatus (env : Env) : EmailSendStatus :=
  if mailConfigured env then
    match env_send env with
    | SendDelivered => sent
    | SendError message =>
        failed (Js.or_else message "Domain not verified or other Resend error")
    | SendThrew errorMessage =>
        failed (default "Unknown error sending email" errorMessage)
    end
  else skipped NOT_CONFIGURED.

Definition mailOf (env : Env) (a : NotificationArgs) : Email :=
  {| mail_from := default EmptyString (getFromAddress env);
     mail_to := n_to a;
     mail_subject :=
       "Your " +:+ n_credentialName a +:+ " badge from Green Software Foundation" |}.

(** The world after [sendAwardNotification], when it returns. *)
Definition mailWorld (env : Env) (a : NotificationArgs) (w : World) : World :=
  if mailConfigured env then
    match env_send env with
    | SendThrew _ =>
        consoleError "Failed to send award notification email" (pushMail (mailOf env a) w)
    | _ => pushMail (mailOf env a) w
    end
  else w.

Lemma sendAwardNotification_run {E} (env : Env) (raise : string -> E)
    (a : NotificationArgs) (w : World) :
  sendAwardNotification env raise a w =
  if notificationThrows env (n_personalizedDescription a)
  then (w, Exit (raise NOT_PRIMITIVE))
  else (mailWorld env a w, Ok (notificationStatus env)).
Proof.
  unfold sendAwardNotification, notificationThrows, mailWorld, notificationStatus,
    mailConfigured, mailOf.
  destruct (getResendClient env) as [client|]; [|reflexivity].
  destruct (getFromAddress env) as [fromAddress|]; [|reflexivity].
  destruct (Js.truthy fromAddress); [|reflexivity].
  destruct (descriptionThrows (n_personalizedDescription a)); [reflexivity|].
  destruct (env_send env) as [|message|[message|]]; reflexivity.
Qed.

Definition notificationArgs (request : Request) (f : Fields) (badge : Badge)
    (award : Award) (url : option string) : NotificationArgs :=
  {| n_to := normalizedEmailOf (f_email f);
     n_recipientName := f_name f;
     n_credentialName := badge_name badge;
     n_verificationCode := award_id award;
     n_badgeUrl := req_origin request +:+ "/awards/" +:+ award_id award;
     n_personalizedDescription := effectiveDescription f;
     n_certificateUrl := url |}.

(** The success response for an award, a certificate URL and a mail
    status. *)
Definition okBody (env : Env) (request : Request) (f : Fields) (badge : Badge)
    (award : Award) (url : option string) (st : EmailSendStatus) : OkBody :=
  {| ok_badgeSlug := badge_slug badge;
     ok_recipientEmail := normalizedEmailOf (f_email f);
     ok_recipientName := f_name f;
     ok_award :=
       {| av_id := award_id award;
          av_verificationCode := award_id award;
          av_issuedAt := default (env_now env) (award_issued_at award);
          av_personalizedDescription := effectiveDescription f;
          av_url := req_origin request +:+ "/awards/" +:+ award_id award;
          av_certificateUrl := url |};
     ok_email := st |}.

Lemma notifyAndRespond_run env request f badge award url w :
  notifyAndRespond env request f badge award url w =
  if notificationThrows env (effectiveDescription f)
  then (w, Exit (Threw NOT_PRIMITIVE))
  else
    (mailWorld env (notificationArgs request f badge award url) w,
     Ok (jsonResponse
           (BodyOk (okBody env request f badge award url (notificationStatus env))) 200)).
Proof.
  unfold notifyAndRespond, bind. rewrite sendAwardNotification_run. simpl.
  destruct (notificationThrows env (effectiveDescription f)); reflexivity.
Qed.

Lemma mailWorld_db env a w : db (mailWorld env a w) = db w.
Proof.
  unfold mailWorld. destruct (mailConfigured env); [|reflexivity].
  destruct (env_send env); reflexivity.
Qed.

Lemma mailWorld_storage env a w : storage (mailWorld env a w) = storage w.
Proof.
  unfold mailWorld. destruct (mailConfigured env); [|reflexivity].
  destruct (env_send env); reflexivity.
Qed.

(** ** The certificate step always completes *)

Definition certificateOptions (name issuedAt : string) (award : Award) (badge : Badge)
  : GenerateOptions :=
  {| go_recipientName := name;
     go_issuedAt := issuedAt;
     go_verificationCode := award_id award;
     go_badgeTitle := badge_name badge;
     go_assetBaseUrl := None |}.

Lemma certificateUrlFor_total {E} rt env name issuedAt award badge w :
  exists w' url,
    certificateUrlFor (E := E) rt env name issuedAt award badge w = (w', Ok url) /\
    db w' = db w /\ outbox w' = outbox w /\
    match generateCertificateAndUpload rt env
            (certificateOptions name issuedAt award badge) w with
    | (_, Ok certificate) => url = Some (publicUrl certificate)
    | (_, Exit _) => url = None
    end.
Proof.
  pose proof (preserves_certificateUrlFor db db_storageBlind (E := E)
                rt env name issuedAt award badge w) as Hdb.
  pose proof (preserves_certificateUrlFor outbox outbox_storageBlind (E := E)
                rt env name issuedAt award badge w) as Hout.
  unfold certificateUrlFor, catch, bind, certificateOptions in *.
  destruct (generateCertificateAndUpload rt env _ w) as [w1 [c|err]]; simpl in *;
    eexists _, _; repeat split; eauto.
Qed.

(** ** The datastore phases, in closed form *)

Definition errorResponse (message : string) (details : option string) (st : N)
  : Outcome :=
  Responded (jsonResponse (BodyError message details) st).

Definition paramsOf (f : Fields) : SlugParams :=
  {| p_badgeSlug := f_badgeSlug f; p_courseId := f_courseId f;
     p_courseName := f_courseName f |}.

Lemma resolveBadgeSlug_truthy (p : SlugParams) (v : TableValue) :
  resolveBadgeSlug p = Some v -> truthyValue v = true.
Proof.
  unfold resolveBadgeSlug.
  destruct (firstAliasHit (candidates p)) as [s|] eqn:Hhit.
  - intros [= <-]. induction (candidates p) as [|c cs IH]; [discriminate|].
    simpl in Hhit. destruct (aliasHit c) as [s'|] eqn:Hc; [|auto].
    injection Hhit as ->. unfold aliasHit in Hc.
    destruct (tableRead c) as [v|]; [|discriminate].
    destruct (truthyValue v) eqn:Hv; [|discriminate]. now injection Hc as <-.
  - intros [= <-]. reflexivity.
Qed.

(** The value the resolver returns for the fields of a request, and
    the text under which the handler then looks the badge up. *)
Definition resolvedValue (f : Fields) : TableValue :=
  default (Slug DEFAULT_BADGE_SLUG) (firstAliasHit (candidates (paramsOf f))).

Definition resolvedSlug (f : Fields) : string := toText (resolvedValue f).

Lemma resolveBadgeSlug_resolvedValue (f : Fields) :
  resolveBadgeSlug (paramsOf f) = Some (resolvedValue f).
Proof.
  unfold resolveBadgeSlug, resolvedValue.
  destruct (firstAliasHit (candidates (paramsOf f))); reflexivity.
Qed.

Lemma lookupBadge_run env f w :
  lookupBadge env f w =
  (w,
   match env_fault_badges_select env with
   | Some message =>
       Exit (errorResponse ("Badge '" +:+ resolvedSlug f +:+ "' not found")
               (Some message) 404)
   | None =>
       match badgesBySlug (resolvedSlug f) (db w) with
       | [badge] => Ok badge
       | _ =>
           Exit (errorResponse ("Badge '" +:+ resolvedSlug f +:+ "' not found")
                   (Some NOT_SINGLE_ROW) 404)
       end
   end).
Proof.
  unfold lookupBadge. fold (paramsOf f).
  rewrite resolveBadgeSlug_resolvedValue.
  rewrite (resolveBadgeSlug_truthy _ _ (resolveBadgeSlug_resolvedValue f)).
  fold (resolvedSlug f).
  unfold bind, selectBadge, gets, withFault, respond, exit, ret, errorResponse. simpl.
  destruct (env_fault_badges_select env); [reflexivity|].
  destruct (badgesBySlug (resolvedSlug f) (db w)) as [|b [|b' bs]]; reflexivity.
Qed.

Definition newPerson (env : Env) (name email : string) : Person :=
  {| person_id := env_new_person_id env; person_name := name; person_email := email |}.

(** The insert branch of the person upsert. *)
Definition insertNewPersonRun (env : Env) (name email : string) (w : World)
  : World * result Outcome string :=
  match env_fault_people_insert env with
  | Some message => (w, Exit (errorResponse "Failed to create person" (Some message) 500))
  | None =>
      (setDb (insertPerson (newPerson env name email) (db w)) w,
       Ok (env_new_person_id env))
  end.

Lemma upsertPerson_run env name email w :
  upsertPerson env name email w =
  match env_fault_people_select env with
  | Some message => (w, Exit (errorResponse "Failed to lookup person" (Some message) 500))
  | None =>
      match peopleByEmail email (db w) with
      | [] => insertNewPersonRun env name email w
      | [p] =>
          if Js.truthy (person_id p) then (w, Ok (person_id p))
          else insertNewPersonRun env name email w
      | _ :: _ :: _ =>
          (w, Exit (errorResponse "Failed to lookup person" (Some NOT_SINGLE_ROW) 500))
      end
  end.
Proof.
  unfold upsertPerson, bind, selectPerson, gets, withFault, respond, exit, ret,
    errorResponse, insertNewPersonRun, createPerson, newPerson. simpl.
  destruct (env_fault_people_select env); [reflexivity|].
  destruct (peopleByEmail email (db w)) as [|p [|p' ps]]; simpl.
  - destruct (env_fault_people_insert env); reflexivity.
  - destruct (Js.truthy (person_id p)); [reflexivity|].
    destruct (env_fault_people_insert env); reflexivity.
  - reflexivity.
Qed.

Definition newAward (env : Env) (personId badgeId issuedAt : string)
    (description : option json) : Award :=
  {| award_id := env_new_award_id env;
     award_person_id := personId;
     award_badge_id := badgeId;
     award_issued_at := Some issuedAt;
     award_personalized_description := description |}.

Lemma upsertAward_run env personId badgeId issuedAt description w :
  upsertAward env personId badgeId issuedAt description w =
  match env_fault_awards_select env with
  | Some message =>
      (w, Exit (errorResponse "Failed to lookup existing award" (Some message) 500))
  | None =>
      match awardsByPersonBadge personId badgeId (db w) with
      | [] =>
          match env_fault_awards_insert env with
          | Some message =>
              (w, Exit (errorResponse "Failed to create award" (Some message) 500))
          | None =>
              let row := newAward env personId badgeId issuedAt description in
              (setDb (insertAward row (db w)) w, Ok row)
          end
      | [award] => (w, Ok award)
      | _ :: _ :: _ =>
          (w, Exit (errorResponse "Failed to lookup existing award"
                      (Some NOT_SINGLE_ROW) 500))
      end
  end.
Proof.
  unfold upsertAward, bind, selectAward, gets, withFault, respond, exit, ret,
    errorResponse, createAward, newAward. simpl.
  destruct (env_fault_awards_select env); [reflexivity|].
  destruct (awardsByPersonBadge personId badgeId (db w)) as [|a [|a' l]]; simpl.
  - destruct (env_fault_awards_insert env); reflexivity.
  - reflexivity.
  - reflexivity.
Qed.

Definition clientConfigured (env : Env) : bool :=
  Js.truthy (Js.or_else (env_SUPABASE_SERVICE_ROLE_KEY env) EmptyString).

Definition CLIENT_ERROR : string :=
  "SUPABASE_SERVICE_ROLE_KEY is not set; required for server-side writes.".

Lemma issueAward_run rt env request w :
  issueAward rt env request w =
  match req_body request with
  | None => (w, Exit (errorResponse "Invalid JSON payload" None 400))
  | Some json =>
      match parsePayload rt json with
      | None => (w, Exit (Responded (jsonResponse BodyInvalidPayload 400)))
      | Some f =>
          if clientConfigured env then
            match lookupBadge env f w with
            | (w1, Exit o) => (w1, Exit o)
            | (w1, Ok badge) =>
                match upsertPerson env (f_name f) (normalizedEmailOf (f_email f)) w1 with
                | (w2, Exit o) => (w2, Exit o)
                | (w2, Ok personId) =>
                    match upsertAward env personId (badge_id badge) (env_now env)
                            (effectiveDescription f) w2 with
                    | (w3, Exit o) => (w3, Exit o)
                    | (w3, Ok award) => (w3, Ok (f, badge, award))
                    end
                end
            end
          else (w, Exit (Threw CLIENT_ERROR))
      end
  end.
Proof.
  unfold issueAward, parseRequest, getSupabaseAdminClient, clientConfigured,
    bind, respond, exit, ret, errorResponse.
  destruct (req_body request) as [json|]; [|reflexivity].
  destruct (parsePayload rt json) as [f|]; [|reflexivity].
  destruct (Js.truthy _); [|reflexivity].
  destruct (lookupBadge env f w) as [w1 [badge|o]]; [|reflexivity].
  destruct (upsertPerson env _ _ w1) as [w2 [personId|o]]; [|reflexivity].
  destruct (upsertAward env _ _ _ _ w2) as [w3 [award|o]]; reflexivity.
Qed.

(** The handler after a successful award upsert. *)
Lemma serve_issued rt env request w w1 f badge award :
  issueAward rt env request w = (w1, Ok (f, badge, award)) ->
  exists w2 url,
    certificateUrlFor (E := Outcome) rt env (f_name f)
      (default (env_now env) (award_issued_at award)) award badge w1 = (w2, Ok url) /\
    db w2 = db w1 /\ outbox w2 = outbox w1 /\
    match generateCertificateAndUpload rt env
            (certificateOptions (f_name f)
               (default (env_now env) (award_issued_at award)) award badge) w1 with
    | (_, Ok certificate) => url = Some (publicUrl certificate)
    | (_, Exit _) => url = None
    end /\
    serve rt env request w =
      if notificationThrows env (effectiveDescription f)
      then (w2, Threw NOT_PRIMITIVE)
      else
        (mailWorld env (notificationArgs request f badge award url) w2,
         Responded
           (jsonResponse
              (BodyOk (okBody env request f badge award url (notificationStatus env)))
              200)).
Proof.
  intros Hissue.
  destruct (certificateUrlFor_total (E := Outcome) rt env (f_name f)
              (default (env_now env) (award_issued_at award)) award badge w1)
    as (w2 & url & Hcert & Hdb & Hout & Hurl).
  exists w2, url. repeat split; try assumption.
  unfold serve, POST, bind. rewrite Hissue. simpl.
  rewrite Hcert. rewrite notifyAndRespond_run.
  destruct (notificationThrows env (effectiveDescription f)); reflexivity.
Qed.

(** The mail status of a response, when there is one. *)
Lemma serve_issued_responded rt env request w w1 f badge award w' r :
  issueAward rt env request w = (w1, Ok (f, badge, award)) ->
  serve rt env request w = (w', Responded r) ->
  notificationThrows env (effectiveDescription f) = false /\
  exists w2 url,
    certificateUrlFor (E := Outcome) rt env (f_name f)
      (default (env_now env) (award_issued_at award)) award badge w1 = (w2, Ok url) /\
    db w2 = db w1 /\ outbox w2 = outbox w1 /\
    w' = mailWorld env (notificationArgs request f badge award url) w2 /\
    r = jsonResponse
          (BodyOk (okBody env request f badge award url (notificationStatus env))) 200.
Proof.
  intros Hissue Hserve.
  destruct (serve_issued _ _ _ _ _ _ _ _ Hissue) as (w2 & url & Hcert & Hdb & Hout & _ & Hs).
  rewrite Hs in Hserve.
  destruct (notificationThrows env (effectiveDescription f)); [discriminate Hserve|].
  injection Hserve as <- <-. split; [reflexivity|].
  exists w2, url. repeat split; assumption.
Qed.

Lemma serve_not_issued rt env request w w1 o :
  issueAward rt env request w = (w1, Exit o) -> serve rt env request w = (w1, o).
Proof. intros H. unfold serve, POST, bind. now rewrite H. Qed.

(** ** Datastore invariants and the outcome of the upsert phases *)

(** Identifiers are generated by the datastore and are never empty. *)
Definition idsOk (d : DB) : Prop :=
  Forall (fun p => Js.truthy (person_id p) = true) (people d).

(** An outcome that is not the success response. *)
Definition isErrorOutcome (o : Outcome) : Prop :=
  match o with
  | Threw _ => True
  | Responded r => status r <> 200%N /\ forall ok, body r <> BodyOk ok
  end.

Lemma errorResponse_isError message details st :
  st <> 200%N -> isErrorOutcome (errorResponse message details st).
Proof. intros H. split; [exact H|]. intros ok. discriminate. Qed.

Lemma peopleByEmail_email email d p :
  In p (peopleByEmail email d) -> person_email p = email /\ In p (people d).
Proof.
  unfold peopleByEmail. intros [Hin Heq]%List.filter_In.
  split; [now apply String.eqb_eq|exact Hin].
Qed.

Lemma peopleByEmail_insert email d p :
  person_email p = email ->
  peopleByEmail email (insertPerson p d) = peopleByEmail email d ++ [p].
Proof.
  intros <-. unfold peopleByEmail, insertPerson. simpl.
  rewrite List.filter_app. simpl. now rewrite String.eqb_refl.
Qed.

Lemma awardsByPersonBadge_insert pid bid d a :
  award_person_id a = pid -> award_badge_id a = bid ->
  awardsByPersonBadge pid bid (insertAward a d) = awardsByPersonBadge pid bid d ++ [a].
Proof.
  intros <- <-. unfold awardsByPersonBadge, insertAward. simpl.
  rewrite List.filter_app. simpl. now rewrite !String.eqb_refl.
Qed.

Lemma lookupBadge_ok env f w w1 badge :
  lookupBadge env f w = (w1, Ok badge) ->
  w1 = w /\ badgesBySlug (resolvedSlug f) (db w) = [badge].
Proof.
  rewrite lookupBadge_run. intros [= <- H]. split; [reflexivity|].
  destruct (env_fault_badges_select env); [discriminate|].
  destruct (badgesBySlug (resolvedSlug f) (db w)) as [|b [|b' bs]]; try discriminate.
  now injection H as ->.
Qed.

Lemma lookupBadge_exit env f w w1 o :
  lookupBadge env f w = (w1, Exit o) -> w1 = w /\ isErrorOutcome o.
Proof.
  rewrite lookupBadge_run. intros [= <- H]. split; [reflexivity|].
  destruct (env_fault_badges_select env).
  - injection H as <-. now apply errorResponse_isError.
  - destruct (badgesBySlug (resolvedSlug f) (db w)) as [|b [|b' bs]];
      try discriminate; injection H as <-; now apply errorResponse_isError.
Qed.

Lemma insertNewPersonRun_exit env name email w w1 o :
  insertNewPersonRun env name email w = (w1, Exit o) -> w1 = w /\ isErrorOutcome o.
Proof.
  unfold insertNewPersonRun. destruct (env_fault_people_insert env); [|discriminate].
  intros [= <- <-]. split; [reflexivity|]. now apply errorResponse_isError.
Qed.

Lemma upsertPerson_exit env name email w w1 o :
  upsertPerson env name email w = (w1, Exit o) -> w1 = w /\ isErrorOutcome o.
Proof.
  rewrite upsertPerson_run.
  destruct (env_fault_people_select env).
  { intros [= <- <-]. split; [reflexivity|]. now apply errorResponse_isError. }
  destruct (peopleByEmail email (db w)) as [|p [|p' ps]].
  - apply insertNewPersonRun_exit.
  - destruct (Js.truthy (person_id p)); [discriminate|]. apply insertNewPersonRun_exit.
  - intros [= <- <-]. split; [reflexivity|]. now apply errorResponse_isError.
Qed.

Lemma upsertAward_exit env pid bid issuedAt description w w1 o :
  upsertAward env pid bid issuedAt description w = (w1, Exit o) ->
  w1 = w /\ isErrorOutcome o.
Proof.
  rewrite upsertAward_run.
  destruct (env_fault_awards_select env).
  { intros [= <- <-]. split; [reflexivity|]. now apply errorResponse_isError. }
  destruct (awardsByPersonBadge pid bid (db w)) as [|a [|a' l]].
  - destruct (env_fault_awards_insert env); [|discriminate].
    intros [= <- <-]. split; [reflexivity|]. now apply errorResponse_isError.
  - discriminate.
  - intros [= <- <-]. split; [reflexivity|]. now apply errorResponse_isError.
Qed.

(** A successful person upsert: afterwards exactly one person has the
    address, and it is either the one found or the one just inserted. *)
Lemma upsertPerson_ok env name email w w1 pid :
  upsertPerson env name email w = (w1, Ok pid) ->
  idsOk (db w) -> Js.truthy (env_new_person_id env) = true ->
  exists p,
    peopleByEmail email (db w1) = [p] /\ person_id p = pid /\
    Js.truthy pid = true /\ person_email p = email /\ idsOk (db w1) /\
    badges (db w1) = badges (db w) /\ awards (db w1) = awards (db w) /\
    storage w1 = storage w /\ outbox w1 = outbox w /\
    (w1 = w \/
     peopleByEmail email (db w) = [] /\ people (db w1) = people (db w) ++ [p] /\
     p = newPerson env name email).
Proof.
  intros Hrun Hids Hnew. rewrite upsertPerson_run in Hrun.
  destruct (env_fault_people_select env); [discriminate|].
  assert (forall w' pid',
            peopleByEmail email (db w) = [] ->
            insertNewPersonRun env name email w = (w', Ok pid') ->
            exists p,
              peopleByEmail email (db w') = [p] /\ person_id p = pid' /\
              Js.truthy pid' = true /\ person_email p = email /\ idsOk (db w') /\
              badges (db w') = badges (db w) /\ awards (db w') = awards (db w) /\
              storage w' = storage w /\ outbox w' = outbox w /\
              (w' = w \/
               peopleByEmail email (db w) = [] /\
               people (db w') = people (db w) ++ [p] /\
               p = newPerson env name email)) as Hinsert.
  { intros w' pid' Hnone. unfold insertNewPersonRun.
    destruct (env_fault_people_insert env); [discriminate|].
    intros [= <- <-]. exists (newPerson env name email). simpl.
    rewrite peopleByEmail_insert by reflexivity. rewrite Hnone.
    repeat split; try reflexivity; try assumption.
    - unfold idsOk. simpl. apply Forall_app. split; [exact Hids|].
      constructor; [exact Hnew|constructor].
    - right. repeat split. }
  destruct (peopleByEmail email (db w)) as [|p [|p' ps]] eqn:Hq.
  - now apply Hinsert.
  - assert (In p (peopleByEmail email (db w))) as Hin by (rewrite Hq; now left).
    apply peopleByEmail_email in Hin as [Hmail Hin].
    assert (Js.truthy (person_id p) = true) as Hp.
    { unfold idsOk in Hids. rewrite List.Forall_forall in Hids. now apply Hids. }
    rewrite Hp in Hrun. injection Hrun as <- <-.
    exists p. repeat split; try assumption. now left.
  - discriminate.
Qed.

(** A successful award upsert: afterwards exactly one award links the
    person and the badge, and it is either the one found or the one
    just inserted. *)
Lemma upsertAward_ok env pid bid issuedAt description w w1 a :
  upsertAward env pid bid issuedAt description w = (w1, Ok a) ->
  awardsByPersonBadge pid bid (db w1) = [a] /\
  people (db w1) = people (db w) /\ badges (db w1) = badges (db w) /\
  storage w1 = storage w /\ outbox w1 = outbox w /\
  (w1 = w /\ awardsByPersonBadge pid bid (db w) = [a] \/
   awardsByPersonBadge pid bid (db w) = [] /\
   awards (db w1) = awards (db w) ++ [a] /\
   a = newAward env pid bid issuedAt description).
Proof.
  rewrite upsertAward_run.
  destruct (env_fault_awards_select env); [discriminate|].
  destruct (awardsByPersonBadge pid bid (db w)) as [|a0 [|a' l]] eqn:Hq.
  - destruct (env_fault_awards_insert env); [discriminate|].
    intros [= <- <-]. simpl.
    rewrite awardsByPersonBadge_insert by reflexivity. rewrite Hq.
    repeat split. right. repeat split.
  - intros [= <- <-]. repeat split; try assumption. left. now split.
  - discriminate.
Qed.

(** What holds of the datastore once the handler has an award in hand:
    one badge has the resolved slug, one person has the normalised
    address, one award links the two. *)
Definition settled (f : Fields) (badge : Badge) (award : Award) (d : DB) : Prop :=
  badgesBySlug (resolvedSlug f) d = [badge] /\
  exists p,
    peopleByEmail (normalizedEmailOf (f_email f)) d = [p] /\
    Js.truthy (person_id p) = true /\
    awardsByPersonBadge (person_id p) (badge_id badge) d = [award].

Lemma badgesBySlug_badges slug d d' :
  badges d' = badges d -> badgesBySlug slug d' = badgesBySlug slug d.
Proof. unfold badgesBySlug. now intros ->. Qed.

Lemma peopleByEmail_people email d d' :
  people d' = people d -> peopleByEmail email d' = peopleByEmail email d.
Proof. unfold peopleByEmail. now intros ->. Qed.

Lemma issueAward_ok rt env request w w1 f badge award :
  issueAward rt env request w = (w1, Ok (f, badge, award)) ->
  idsOk (db w) -> Js.truthy (env_new_person_id env) = true ->
  (exists json, req_body request = Some json /\ parsePayload rt json = Some f) /\
  settled f badge award (db w1) /\ idsOk (db w1) /\
  storage w1 = storage w /\ outbox w1 = outbox w.
Proof.
  intros Hrun Hids Hnew. rewrite issueAward_run in Hrun.
  destruct (req_body request) as [json|]; [|discriminate].
  destruct (parsePayload rt json) as [f'|] eqn:Hparse; [|discriminate].
  destruct (clientConfigured env); [|discriminate].
  destruct (lookupBadge env f' w) as [wa [b|o]] eqn:Hbadge; [|discriminate].
  apply lookupBadge_ok in Hbadge as [-> Hb].
  destruct (upsertPerson env _ _ w) as [wb [pid|o]] eqn:Hperson; [|discriminate].
  apply upsertPerson_ok in Hperson
    as (p & Hp & Hpid & Htruthy & _ & Hids' & Hbadges & _ & Hst & Hout & _);
    [|assumption..].
  destruct (upsertAward env pid _ _ _ wb) as [wc [a|o]] eqn:Haward; [|discriminate].
  apply upsertAward_ok in Haward as (Ha & Hpeople & Hbadges' & Hst' & Hout' & _).
  injection Hrun as <- <- <- <-.
  split; [now exists json|]. split; [|split; [|split]].
  - split.
    + rewrite (badgesBySlug_badges _ (db wb) (db wc) Hbadges').
      now rewrite (badgesBySlug_badges _ (db w) (db wb) Hbadges).
    + exists p. rewrite (peopleByEmail_people _ (db wb) (db wc) Hpeople).
      subst pid. repeat split; assumption.
  - unfold idsOk in *. now rewrite Hpeople.
  - congruence.
  - congruence.
Qed.

Lemma issueAward_exit rt env request w w1 o :
  issueAward rt env request w = (w1, Exit o) ->
  isErrorOutcome o /\ awards (db w1) = awards (db w).
Proof.
  rewrite issueAward_run.
  destruct (req_body request) as [json|];
    [|intros [= <- <-]; split; [now apply errorResponse_isError|reflexivity]].
  destruct (parsePayload rt json) as [f|];
    [|intros [= <- <-]; split; [|reflexivity]; split; [discriminate|intros; discriminate]].
  destruct (clientConfigured env); [|intros [= <- <-]; now split].
  destruct (lookupBadge env f w) as [wa [b|o']] eqn:Hbadge.
  2:{ apply lookupBadge_exit in Hbadge as [-> Ho]. intros [= <- <-]. now split. }
  apply lookupBadge_ok in Hbadge as [-> Hb].
  destruct (upsertPerson env _ _ w) as [wb [pid|o']] eqn:Hperson.
  2:{ apply upsertPerson_exit in Hperson as [-> Ho]. intros [= <- <-]. now split. }
  destruct (upsertAward env pid _ _ _ wb) as [wc [a|o']] eqn:Haward; [discriminate|].
  apply upsertAward_exit in Haward as [-> Ho]. intros [= <- <-]. split; [exact Ho|].
  rewrite upsertPerson_run in Hperson.
  destruct (env_fault_people_select env); [discriminate|].
  assert (forall w' x, insertNewPersonRun env (f_name f)
                         (normalizedEmailOf (f_email f)) w = (w', Ok x) ->
                       awards (db w') = awards (db w)) as Hins.
  { intros w' x. unfold insertNewPersonRun.
    destruct (env_fault_people_insert env); [discriminate|]. now intros [= <- _]. }
  destruct (peopleByEmail _ (db w)) as [|p [|p' ps]]; try discriminate.
  - eapply Hins, Hperson.
  - destruct (Js.truthy (person_id p)); [now injection Hperson as <- _|].
    eapply Hins, Hperson.
Qed.

(** No read of the datastore is answered with a fault, and the
    datastore client is configured. *)
Definition readsOk (env : Env) : Prop :=
  clientConfigured env = true /\
  env_fault_badges_select env = None /\
  env_fault_people_select env = None /\
  env_fault_awards_select env = None.

(** On a settled datastore the upsert phases change nothing; they hand
    back the existing award unless a read faults. *)
Lemma issueAward_settled rt env request json f badge award w :
  req_body request = Some json -> parsePayload rt json = Some f ->
  settled f badge award (db w) ->
  exists r,
    issueAward rt env request w = (w, r) /\
    (r = Ok (f, badge, award) \/ exists o, r = Exit o /\ isErrorOutcome o) /\
    (readsOk env -> r = Ok (f, badge, award)).
Proof.
  intros Hbody Hparse (Hb & p & Hp & Htruthy & Ha).
  rewrite issueAward_run, Hbody, Hparse.
  destruct (clientConfigured env) eqn:Hclient.
  2:{ eexists. split; [reflexivity|]. split.
      - right. eexists. split; [reflexivity|exact I].
      - intros (Hc & _). congruence. }
  rewrite lookupBadge_run, Hb.
  destruct (env_fault_badges_select env) as [m|] eqn:Hfb.
  { eexists. split; [reflexivity|]. split.
    - right. eexists. split; [reflexivity|]. now apply errorResponse_isError.
    - intros (_ & Hc & _). congruence. }
  rewrite upsertPerson_run, Hp, Htruthy.
  destruct (env_fault_people_select env) as [m|] eqn:Hfp.
  { eexists. split; [reflexivity|]. split.
    - right. eexists. split; [reflexivity|]. now apply errorResponse_isError.
    - intros (_ & _ & Hc & _). congruence. }
  rewrite upsertAward_run, Ha.
  destruct (env_fault_awards_select env) as [m|] eqn:Hfa.
  { eexists. split; [reflexivity|]. split.
    - right. eexists. split; [reflexivity|]. now apply errorResponse_isError.
    - intros (_ & _ & _ & Hc). congruence. }
  eexists. split; [reflexivity|]. split; [now left|reflexivity].
Qed.

(** A success response is only ever produced after a successful award
    upsert, and it is the response built from that award. *)
Lemma serve_ok_inv rt env request w w' r ok :
  serve rt env request w = (w', Responded r) -> body r = BodyOk ok ->
  exists w1 w2 f badge award url,
    issueAward rt env request w = (w1, Ok (f, badge, award)) /\
    certificateUrlFor (E := Outcome) rt env (f_name f)
      (default (env_now env) (award_issued_at award)) award badge w1 = (w2, Ok url) /\
    w' = mailWorld env (notificationArgs request f badge award url) w2 /\
    db w' = db w1 /\
    r = jsonResponse (BodyOk ok) 200 /\
    ok = okBody env request f badge award url (notificationStatus env).
Proof.
  intros Hserve Hbody.
  destruct (issueAward rt env request w) as [w1 [[[f badge] award]|o]] eqn:Hissue.
  - destruct (serve_issued_responded _ _ _ _ _ _ _ _ _ _ Hissue Hserve)
      as (_ & w2 & url & Hcert & Hdb & _ & -> & ->).
    simpl in Hbody. injection Hbody as Hok. subst ok.
    exists w1, w2, f, badge, award, url. repeat split; try assumption.
    now rewrite mailWorld_db.
  - rewrite (serve_not_issued _ _ _ _ _ _ Hissue) in Hserve.
    injection Hserve as Hw Hr. subst w1 o.
    apply issueAward_exit in Hissue as [[_ Hno] _]. now elim (Hno ok).
Qed.

(** ** Idempotent award issuance *)

(** C1.  Processing the same completion signal a second time, after a
    first call that answered with the success response, leaves the
    datastore as it was: no award is inserted and no stored award
    (its [issued_at], its [personalized_description]) is changed;
    exactly one award links the person and the badge; and a second
    success response carries the award id of the first.  When no
    datastore read faults the second call does answer with the
    success response, unless the mail provider is configured for it
    and the description cannot be converted to a string: then the
    second call ends in the uncaught [TypeError] of the notification,
    still without a write to the datastore. *)
Theorem repeated_signal_reuses_award rt env1 env2 request w0 w1 r1 ok1 :
  idsOk (db w0) -> Js.truthy (env_new_person_id env1) = true ->
  serve rt env1 request w0 = (w1, Responded r1) -> body r1 = BodyOk ok1 ->
  db (fst (serve rt env2 request w1)) = db w1 /\
  (exists f badge award,
     settled f badge award (db (fst (serve rt env2 request w1))) /\
     award_id award = av_id (ok_award ok1)) /\
  (forall r2 ok2,
     snd (serve rt env2 request w1) = Responded r2 -> body r2 = BodyOk ok2 ->
     av_id (ok_award ok2) = av_id (ok_award ok1)) /\
  (readsOk env2 ->
   if notificationThrows env2 (av_personalizedDescription (ok_award ok1))
   then snd (serve rt env2 request w1) = Threw NOT_PRIMITIVE
   else
     exists ok2,
       snd (serve rt env2 request w1) = Responded (jsonResponse (BodyOk ok2) 200) /\
       av_id (ok_award ok2) = av_id (ok_award ok1)).
Proof.
  intros Hids Hnew Hserve Hbody.
  destruct (serve_ok_inv _ _ _ _ _ _ _ Hserve Hbody)
    as (wa & wb & f & badge & award & url & Hissue & _ & _ & Hdb & _ & Hok).
  destruct (issueAward_ok _ _ _ _ _ _ _ _ Hissue Hids Hnew)
    as ((json & Hreq & Hparse) & Hsettled & _).
  rewrite <- Hdb in Hsettled.
  destruct (issueAward_settled rt env2 request json f badge award w1
              Hreq Hparse Hsettled) as (r & Hissue2 & Hcases & Hreads).
  assert (av_id (ok_award ok1) = award_id award) as Hid by (now subst ok1).
  assert (av_personalizedDescription (ok_award ok1) = effectiveDescription f) as Hdesc
    by (now subst ok1).
  rewrite Hdesc.
  destruct Hcases as [-> | (o & -> & Herr)].
  - destruct (serve_issued _ _ _ _ _ _ _ _ Hissue2)
      as (w2 & url2 & _ & Hdb2 & _ & _ & Hs2).
    rewrite Hs2.
    destruct (notificationThrows env2 (effectiveDescription f)); simpl.
    + rewrite Hdb2. split; [reflexivity|]. split; [|split].
      * exists f, badge, award. now split.
      * intros r2 ok2 H. discriminate H.
      * intros _. reflexivity.
    + rewrite mailWorld_db, Hdb2.
      split; [reflexivity|]. split; [|split].
      * exists f, badge, award. now split.
      * intros r2 ok2 [= <-] [= <-]. simpl. now rewrite Hid.
      * intros _. eexists. split; [reflexivity|]. simpl. now rewrite Hid.
  - rewrite (serve_not_issued _ _ _ _ _ _ Hissue2). simpl.
    split; [reflexivity|]. split; [|split].
    + exists f, badge, award. now split.
    + intros r2 ok2 -> Hb. destruct Herr as [_ Hno]. now elim (Hno ok2).
    + intros Hr. specialize (Hreads Hr). discriminate Hreads.
Qed.

(** ** Best-effort steps *)

(** Once the award upsert has succeeded, and unless the notification
    throws on a description that cannot be converted to a string, the
    handler answers with status 200 and the "ok" body that carries the
    award, whatever the certificate generation and the mail provider
    do.  A failed generation or upload shows as an absent
    [certificateUrl], a failed delivery as a [failed] mail status
    inside that body; the datastore is as the upsert left it. *)
Theorem best_effort_steps_keep_success rt env request w w1 f badge award :
  issueAward rt env request w = (w1, Ok (f, badge, award)) ->
  notificationThrows env (effectiveDescription f) = false ->
  exists w2 ok,
    serve rt env request w = (w2, Responded (jsonResponse (BodyOk ok) 200)) /\
    db w2 = db w1 /\
    av_id (ok_award ok) = award_id award /\
    av_verificationCode (ok_award ok) = award_id award /\
    ok_email ok = notificationStatus env /\
    (forall w' err,
       generateCertificateAndUpload rt env
         (certificateOptions (f_name f)
            (default (env_now env) (award_issued_at award)) award badge) w1
       = (w', Exit err) ->
       av_certificateUrl (ok_award ok) = None) /\
    (mailConfigured env = true -> env_send env <> SendDelivered ->
     exists reason, ok_email ok = failed reason).
Proof.
  intros Hissue Hsafe.
  destruct (serve_issued _ _ _ _ _ _ _ _ Hissue)
    as (w2 & url & _ & Hdb & _ & Hurl & Hs).
  rewrite Hsafe in Hs.
  eexists _, _. split; [exact Hs|]. simpl.
  rewrite mailWorld_db. repeat split; try assumption.
  - intros w' err Hgen. now rewrite Hgen in Hurl.
  - intros Hconf Hfail. unfold notificationStatus. rewrite Hconf.
    destruct (env_send env); [now elim Hfail|eauto..].
Qed.

(** A datastore webhook whose metadata carries, as personalised
    description, an object with a member named [toString]. *)
Definition objectDescription : json := JObj [ ("toString", JNum "1") ].

Definition objectDescriptionRequest : Request :=
  {| req_body :=
       Some (JObj
         [ ("type", JStr "INSERT"); ("table", JStr "course_completions");
           ("schema", JStr "public");
           ("record",
            JObj [ ("course_id", JStr "gsp"); ("user_email", JStr "jane@x.com");
                   ("user_name", JStr "Jane Doe");
                   ("metadata", JObj [ ("personalizedDescription", objectDescription) ]) ]);
           ("old_record", JNull) ]);
     req_origin := "https://badges.example" |}.

Definition objectDescriptionFields : Fields :=
  {| f_name := "Jane Doe"; f_email := "jane@x.com"; f_badgeSlug := None;
     f_courseId := Some "gsp"; f_courseName := None;
     f_personalizedDescription := Some objectDescription |}.

Definition objectDescriptionAward : Award :=
  {| award_id := "a-1"; award_person_id := "p-1"; award_badge_id := "b-1";
     award_issued_at := Some "2025-03-03T10:00:00.000Z";
     award_personalized_description := Some objectDescription |}.

(** The demonstration environment without a mail provider. *)
Definition noMailEnv : Env := {|
  env_SUPABASE_SERVICE_ROLE_KEY := env_SUPABASE_SERVICE_ROLE_KEY demoEnv;
  env_RESEND_API_KEY := None;
  env_RESEND_FROM_EMAIL := None;
  env_site_urls := env_site_urls demoEnv;
  env_now := env_now demoEnv;
  env_fault_badges_select := None;
  env_fault_people_select := None;
  env_fault_people_insert := None;
  env_new_person_id := env_new_person_id demoEnv;
  env_fault_awards_select := None;
  env_fault_awards_insert := None;
  env_new_award_id := env_new_award_id demoEnv;
  env_not_found := env_not_found demoEnv;
  env_fault_getBucket := None;
  env_fault_createBucket := None;
  env_fault_download := None;
  env_fault_upload := None;
  env_local_file := env_local_file demoEnv;
  env_remote_fetch := env_remote_fetch demoEnv;
  env_render_pdf := env_render_pdf demoEnv;
  env_send := env_send demoEnv
|}.

(** C4 at the failing input: a datastore webhook whose description is
    an object with a [toString] member, the mail provider configured.
    The award upsert succeeds and the certificate is stored; then
    [sendAwardNotification] throws while it builds the message, outside
    its [try], and the handler, which does not catch it either, ends in
    that [TypeError] instead of the success response.  No mail was
    handed to the provider.  Without a mail provider the same request
    is answered with 200. *)
Theorem object_description_rejects_after_upsert :
  exists w1 w2,
    issueAward demoRuntime demoEnv objectDescriptionRequest demoWorld
    = (w1, Ok (objectDescriptionFields, demoBadge, objectDescriptionAward)) /\
    serve demoRuntime demoEnv objectDescriptionRequest demoWorld
    = (w2, Threw "Cannot convert object to primitive value") /\
    awards (db w2) = [objectDescriptionAward] /\
    is_Some (objects (storage w2) !! (CERT_BUCKET, awardStoragePath "a-1")) /\
    outbox w2 = [] /\
    exists w3 ok,
      serve demoRuntime noMailEnv objectDescriptionRequest demoWorld
      = (w3, Responded (jsonResponse (BodyOk ok) 200)) /\
      ok_email ok = skipped NOT_CONFIGURED.
Proof.
  eexists _, _. split; [vm_compute; reflexivity|].
  split; [vm_compute; reflexivity|].
  split; [vm_compute; reflexivity|].
  split; [eexists; vm_compute; reflexivity|].
  split; [vm_compute; reflexivity|].
  eexists _, _. split; vm_compute; reflexivity.
Qed.

(** ** Notification on replay *)

(** The mail status of a success response is whatever the send
    reported; it is never the "existing award reused" skip the handler
    starts from. *)
Lemma success_status_is_send_status rt env request w w' r ok :
  serve rt env request w = (w', Responded r) -> body r = BodyOk ok ->
  ok_email ok = notificationStatus env /\
  ok_email ok <> skipped "existing award reused".
Proof.
  intros Hserve Hbody.
  destruct (serve_ok_inv _ _ _ _ _ _ _ Hserve Hbody)
    as (wa & wb & f & badge & award & url & _ & _ & _ & _ & _ & ->).
  simpl. split; [reflexivity|].
  unfold notificationStatus. destruct (mailConfigured env).
  - destruct (env_send env); discriminate.
  - discriminate.
Qed.

(** The world after the first delivery of the demonstration request. *)
Definition demoWorldAfterFirst : World :=
  fst (serve demoRuntime demoEnv demoRequest demoWorld).

(** C2 at the failing input: the demonstration request is served
    twice, with the mail provider configured.  Before the second call
    the award exists; the second call still calls the provider (the
    outbox grows from one mail to two) and reports [sent], not the
    "existing award reused" skip. *)
Theorem replay_sends_notification_again :
  (exists award, awards (db demoWorldAfterFirst) = [award]) /\
  length (outbox demoWorldAfterFirst) = 1 /\
  exists w2 ok2,
    serve demoRuntime demoEnv demoRequest demoWorldAfterFirst
    = (w2, Responded (jsonResponse (BodyOk ok2) 200)) /\
    awards (db w2) = awards (db demoWorldAfterFirst) /\
    ok_email ok2 = sent /\
    length (outbox w2) = 2.
Proof.
  split; [|split].
  - eexists. vm_compute. reflexivity.
  - vm_compute. reflexivity.
  - eexists _, _. split; [vm_compute; reflexivity|].
    split; [|split]; vm_compute; reflexivity.
Qed.

(** ** Person identity *)

Ltac split_binds H :=
  repeat match type of H with
         | context [mbind _ ?x] => destruct x; simpl in H; [|discriminate H]
         end.

Lemma directPayloadSchema_email rt j data :
  directPayloadSchema rt j = Some data -> isEmail rt (dp_email data) = true.
Proof.
  unfold directPayloadSchema. destruct j; try discriminate. intros H.
  split_binds H.
  destruct (Js.truthy _ && isEmail rt _) eqn:Hc; [|discriminate].
  injection H as <-. simpl. now apply andb_true_iff in Hc as [_ Hc].
Qed.

Lemma supabaseWebhookSchema_email rt j record :
  supabaseWebhookSchema rt j = Some record -> isEmail rt (wr_user_email record) = true.
Proof.
  unfold supabaseWebhookSchema, webhookRecordSchema.
  destruct j; try discriminate. intros H.
  split_binds H.
  destruct (jget "record" fields) as [[| | | | |fs]|]; try discriminate.
  split_binds H.
  destruct (isEmail rt _) eqn:Hc; [|discriminate].
  now injection H as <-.
Qed.

(** Every accepted payload carries an address the validator accepted. *)
Lemma parsePayload_email rt j f :
  parsePayload rt j = Some f -> isEmail rt (f_email f) = true.
Proof.
  unfold parsePayload.
  destruct (supabaseWebhookSchema rt j) as [record|] eqn:Hw.
  - intros [= <-]. simpl. eapply supabaseWebhookSchema_email, Hw.
  - destruct (directPayloadSchema rt j) as [data|] eqn:Hd; [|discriminate].
    intros [= <-]. simpl. eapply directPayloadSchema_email, Hd.
Qed.

(** On a settled datastore, or any datastore where exactly one person
    has the address, the handler leaves the people table alone. *)
Lemma issueAward_person_kept rt env request json f p w :
  req_body request = Some json -> parsePayload rt json = Some f ->
  peopleByEmail (normalizedEmailOf (f_email f)) (db w) = [p] ->
  Js.truthy (person_id p) = true ->
  people (db (fst (issueAward rt env request w))) = people (db w) /\
  forall w1 f' badge award,
    issueAward rt env request w = (w1, Ok (f', badge, award)) ->
    f' = f /\ award_person_id award = person_id p /\ In award (awards (db w1)).
Proof.
  intros Hbody Hparse Hp Htruthy.
  rewrite issueAward_run, Hbody, Hparse.
  destruct (clientConfigured env); [|split; [reflexivity|discriminate]].
  rewrite lookupBadge_run.
  destruct (match env_fault_badges_select env with
            | Some _ => _ | None => _ end) as [badge|o];
    [|split; [reflexivity|discriminate]].
  rewrite upsertPerson_run, Hp, Htruthy.
  destruct (env_fault_people_select env); [split; [reflexivity|discriminate]|].
  destruct (upsertAward env (person_id p) (badge_id badge) (env_now env)
              (effectiveDescription f) w) as [w3 [award|o]] eqn:Haward.
  - apply upsertAward_ok in Haward as (Ha & Hpeople & _).
    split; [exact Hpeople|].
    intros w1 f' badge' award' [= <- <- <- <-]. split; [reflexivity|].
    assert (In award (awardsByPersonBadge (person_id p) (badge_id badge) (db w3)))
      as Hin by (rewrite Ha; now left).
    unfold awardsByPersonBadge in Hin. apply List.filter_In in Hin as [Hin Hc].
    apply andb_true_iff in Hc as [Hc _]. apply String.eqb_eq in Hc. now split.
  - apply upsertAward_exit in Haward as [-> _]. split; [reflexivity|discriminate].
Qed.

Lemma serve_person_kept rt env request json f p w :
  req_body request = Some json -> parsePayload rt json = Some f ->
  peopleByEmail (normalizedEmailOf (f_email f)) (db w) = [p] ->
  Js.truthy (person_id p) = true ->
  people (db (fst (serve rt env request w))) = people (db w) /\
  forall r ok,
    snd (serve rt env request w) = Responded r -> body r = BodyOk ok ->
    ok_recipientEmail ok = normalizedEmailOf (f_email f) /\
    exists award,
      In award (awards (db (fst (serve rt env request w)))) /\
      award_id award = av_id (ok_award ok) /\
      award_person_id award = person_id p.
Proof.
  intros Hbody Hparse Hp Htruthy.
  destruct (issueAward_person_kept rt env request json f p w Hbody Hparse Hp Htruthy)
    as [Hkept Hok].
  destruct (issueAward rt env request w) as [w1 [[[f' badge] award]|o]] eqn:Hissue.
  - destruct (Hok _ _ _ _ eq_refl) as (-> & Hpid & Hin).
    destruct (serve_issued _ _ _ _ _ _ _ _ Hissue)
      as (w2 & url & _ & Hdb & _ & _ & Hs).
    rewrite Hs. destruct (notificationThrows env (effectiveDescription f)); simpl.
    { rewrite Hdb. split; [exact Hkept|]. intros r ok H. discriminate H. }
    rewrite mailWorld_db, Hdb. split; [exact Hkept|].
    intros r ok [= <-] [= <-]. simpl. split; [reflexivity|].
    exists award. now repeat split.
  - rewrite (serve_not_issued _ _ _ _ _ _ Hissue). simpl. split; [exact Hkept|].
    intros r ok -> Hb. apply issueAward_exit in Hissue as [[_ Hno] _].
    now elim (Hno ok).
Qed.

Definition emailRequest (email : string) : Request :=
  directRequest
    [ ("name", JStr "Jane Doe"); ("email", JStr email); ("courseId", JStr "gsp") ].

(** C6 as stated: whichever of two spellings that agree after trimming
    and lower-casing is sent, the same person is stored. *)
Definition upsertIgnoresCaseAndWhiteSpace : Prop :=
  forall e1 e2,
    Js.toLowerCase (Js.trim e1) = Js.toLowerCase (Js.trim e2) ->
    people (db (fst (serve demoRuntime demoEnv (emailRequest e1) demoWorld)))
    = people (db (fst (serve demoRuntime demoEnv (emailRequest e2) demoWorld))).

(** An address with white space around it does not pass the e-mail
    check of the schema: the request is answered with 400 before
    anything is normalised or stored. *)
Example padded_email_rejected :
  serve demoRuntime demoEnv (emailRequest " jane@x.com ") demoWorld
  = (demoWorld, Responded (jsonResponse BodyInvalidPayload 400)).
Proof. vm_compute. reflexivity. Qed.

(** C6, as stated, fails at the pair of spellings the specification
    gives: the first is stored as a person, the second, padded with
    white space, is rejected and stores nobody. *)
Lemma padded_email_counterexample : ~ upsertIgnoresCaseAndWhiteSpace.
Proof.
  intros H.
  assert (Js.toLowerCase (Js.trim "Jane@X.com") = Js.toLowerCase (Js.trim " jane@x.com "))
    as Heq by (vm_compute; reflexivity).
  assert (people (db (fst (serve demoRuntime demoEnv (emailRequest "Jane@X.com")
                             demoWorld)))
          = [{| person_id := "p-1"; person_name := "Jane Doe";
                person_email := "jane@x.com" |}]) as H1
    by (vm_compute; reflexivity).
  assert (people (db (fst (serve demoRuntime demoEnv (emailRequest " jane@x.com ")
                             demoWorld))) = []) as H2
    by (vm_compute; reflexivity).
  specialize (H _ _ Heq). rewrite H1, H2 in H. discriminate H.
Qed.

(** C6, amended.  The person upsert is insensitive to letter case, and
    white space never reaches it: every accepted address is free of
    surrounding white space, so that the identity key is the
    lower-cased address.  Two accepted payloads whose addresses are
    equal after lower-casing are looked up, and stored, under the same
    key; after a first call that answered with the success response,
    exactly one person has that key, a call with the other spelling
    finds that person, inserts nobody, and reports the same recipient
    address. *)
Theorem email_normalisation_same_person
    rt env1 env2 req1 req2 j1 j2 f1 f2 w0 w1 r1 ok1 :
  validatorStrict rt ->
  idsOk (db w0) -> Js.truthy (env_new_person_id env1) = true ->
  req_body req1 = Some j1 -> parsePayload rt j1 = Some f1 ->
  req_body req2 = Some j2 -> parsePayload rt j2 = Some f2 ->
  Js.toLowerCase (f_email f1) = Js.toLowerCase (f_email f2) ->
  serve rt env1 req1 w0 = (w1, Responded r1) -> body r1 = BodyOk ok1 ->
  (Js.trim (f_email f1) = f_email f1 /\ Js.trim (f_email f2) = f_email f2) /\
  normalizedEmailOf (f_email f1) = Js.toLowerCase (f_email f1) /\
  normalizedEmailOf (f_email f1) = normalizedEmailOf (f_email f2) /\
  (exists p,
     peopleByEmail (normalizedEmailOf (f_email f1)) (db w1) = [p] /\
     peopleByEmail (normalizedEmailOf (f_email f2)) (db w1) = [p] /\
     person_email p = Js.toLowerCase (f_email f1)) /\
  people (db (fst (serve rt env2 req2 w1))) = people (db w1) /\
  (forall r2 ok2,
     snd (serve rt env2 req2 w1) = Responded r2 -> body r2 = BodyOk ok2 ->
     ok_recipientEmail ok2 = ok_recipientEmail ok1).
Proof.
  intros Hstrict Hids Hnew Hb1 Hp1 Hb2 Hp2 Heq Hserve Hbody.
  destruct (Hstrict _ (parsePayload_email _ _ _ Hp1)) as (_ & Hat1 & Ht1).
  destruct (Hstrict _ (parsePayload_email _ _ _ Hp2)) as (_ & Hat2 & Ht2).
  assert (normalizedEmailOf (f_email f1) = Js.toLowerCase (f_email f1)) as Hn1.
  { rewrite normalizedEmailOf_trim; [now rewrite Ht1|].
    now apply trim_nonempty_of_at. }
  assert (normalizedEmailOf (f_email f2) = Js.toLowerCase (f_email f2)) as Hn2.
  { rewrite normalizedEmailOf_trim; [now rewrite Ht2|].
    now apply trim_nonempty_of_at. }
  assert (normalizedEmailOf (f_email f1) = normalizedEmailOf (f_email f2)) as Hn
    by congruence.
  split; [now split|]. split; [exact Hn1|].
  destruct (serve_ok_inv _ _ _ _ _ _ _ Hserve Hbody)
    as (wa & wb & f & badge & award & url & Hissue & _ & _ & Hdb & _ & Hok).
  destruct (issueAward_ok _ _ _ _ _ _ _ _ Hissue Hids Hnew)
    as ((json & Hreq & Hparse) & (_ & p & Hp & Htruthy & _) & _).
  assert (f = f1) as -> by congruence.
  rewrite <- Hdb in Hp.
  assert (person_email p = normalizedEmailOf (f_email f1)) as Hmail.
  { assert (In p (peopleByEmail (normalizedEmailOf (f_email f1)) (db w1))) as Hin
      by (rewrite Hp; now left).
    now apply peopleByEmail_email in Hin as [Hin _]. }
  split; [exact Hn|]. split; [|split].
  - exists p. rewrite <- Hn. repeat split; congruence.
  - rewrite Hn in Hp.
    apply (serve_person_kept rt env2 req2 j2 f2 p w1 Hb2 Hp2 Hp Htruthy).
  - intros r2 ok2 Hr2 Hbody2. rewrite Hn in Hp.
    destruct (serve_person_kept rt env2 req2 j2 f2 p w1 Hb2 Hp2 Hp Htruthy)
      as [_ Hresp].
    destruct (Hresp r2 ok2 Hr2 Hbody2) as [-> _]. subst ok1. simpl. now symmetry.
Qed.

(** C9.  When exactly one stored person has the normalised address of
    the request, the handler inserts and updates no person (so the
    stored name stays, whatever name the payload carries), and the
    award of a success response belongs to that person. *)
Theorem existing_person_reused rt env request json f p w :
  req_body request = Some json -> parsePayload rt json = Some f ->
  peopleByEmail (normalizedEmailOf (f_email f)) (db w) = [p] ->
  Js.truthy (person_id p) = true ->
  people (db (fst (serve rt env request w))) = people (db w) /\
  peopleByEmail (normalizedEmailOf (f_email f)) (db (fst (serve rt env request w))) = [p] /\
  (forall r ok,
     snd (serve rt env request w) = Responded r -> body r = BodyOk ok ->
     exists award,
       In award (awards (db (fst (serve rt env request w)))) /\
       award_id award = av_id (ok_award ok) /\
       award_person_id award = person_id p).
Proof.
  intros Hbody Hparse Hp Htruthy.
  destruct (serve_person_kept rt env request json f p w Hbody Hparse Hp Htruthy)
    as [Hkept Hresp].
  split; [exact Hkept|]. split.
  - now rewrite (peopleByEmail_people _ _ _ Hkept).
  - intros r ok Hr Hb. now destruct (Hresp r ok Hr Hb) as [_ H].
Qed.

(** ** The personalised description *)

Lemma issueAward_awards rt env request w w1 f badge award :
  issueAward rt env request w = (w1, Ok (f, badge, award)) ->
  awards (db w1) = awards (db w) \/
  awards (db w1) = awards (db w) ++ [award] /\
  award_personalized_description award = effectiveDescription f.
Proof.
  rewrite issueAward_run.
  destruct (req_body request) as [json|]; [|discriminate].
  destruct (parsePayload rt json) as [f'|]; [|discriminate].
  destruct (clientConfigured env); [|discriminate].
  destruct (lookupBadge env f' w) as [wa [b|o]] eqn:Hbadge; [|discriminate].
  apply lookupBadge_ok in Hbadge as [-> _].
  destruct (upsertPerson env _ _ w) as [wb [pid|o]] eqn:Hperson; [|discriminate].
  assert (awards (db wb) = awards (db w)) as Hpa.
  { rewrite upsertPerson_run in Hperson.
    destruct (env_fault_people_select env); [discriminate|].
    assert (forall w' x, insertNewPersonRun env (f_name f')
                           (normalizedEmailOf (f_email f')) w = (w', Ok x) ->
                         awards (db w') = awards (db w)) as Hins.
    { intros w' x. unfold insertNewPersonRun.
      destruct (env_fault_people_insert env); [discriminate|]. now intros [= <- _]. }
    destruct (peopleByEmail _ (db w)) as [|p [|p' ps]]; try discriminate.
    - eapply Hins, Hperson.
    - destruct (Js.truthy (person_id p)); [now injection Hperson as <- _|].
      eapply Hins, Hperson. }
  destruct (upsertAward env pid _ _ _ wb) as [wc [a|o]] eqn:Haward; [|discriminate].
  apply upsertAward_ok in Haward as (_ & _ & _ & _ & _ & Hcases).
  intros [= <- <- <- <-].
  destruct Hcases as [[-> _] | (_ & Happ & ->)].
  - now left.
  - right. rewrite Happ, Hpa. now split.
Qed.

Definition suppliedDescriptionTakesEffectOnlyWithoutCourseName : Prop :=
  forall rt env request json f w w' ok,
    req_body request = Some json -> parsePayload rt json = Some f ->
    serve rt env request w = (w', Responded (jsonResponse (BodyOk ok) 200)) ->
    is_Some (f_personalizedDescription f) ->
    av_personalizedDescription (ok_award ok) = f_personalizedDescription f ->
    f_courseName f = None.

Definition emptyCourseNameRequest : Request :=
  directRequest
    [ ("name", JStr "Jane Doe"); ("email", JStr "jane@x.com");
      ("courseName", JStr EmptyString);
      ("personalizedDescription", JStr "For outstanding work on carbon-aware scheduling.") ].

(** C10, as stated, fails: a payload whose [courseName] is present but
    empty keeps the description it supplied. *)
Lemma supplied_description_counterexample :
  ~ suppliedDescriptionTakesEffectOnlyWithoutCourseName.
Proof.
  intros H.
  set (f := {| f_name := "Jane Doe"; f_email := "jane@x.com"; f_badgeSlug := None;
               f_courseId := None; f_courseName := Some EmptyString;
               f_personalizedDescription :=
                 Some (JStr "For outstanding work on carbon-aware scheduling.") |}).
  assert (f_courseName f = None) as Hc; [|discriminate Hc].
  eapply (H demoRuntime demoEnv emptyCourseNameRequest _ f demoWorld).
  - reflexivity.
  - vm_compute. reflexivity.
  - vm_compute. reflexivity.
  - eexists. reflexivity.
  - reflexivity.
Qed.

(** C10, amended.  For every accepted payload of either shape: when
    [courseName] is a non-empty string the description supplied in the
    payload is discarded and the generated sentence is echoed in the
    response and stored on a newly created award; when [courseName] is
    absent or the empty string, the supplied description (if any) is
    what is echoed and stored. *)
Theorem description_from_course_name rt env request json f w w' r ok :
  req_body request = Some json -> parsePayload rt json = Some f ->
  serve rt env request w = (w', Responded r) -> body r = BodyOk ok ->
  (forall courseName,
     f_courseName f = Some courseName -> courseName <> EmptyString ->
     av_personalizedDescription (ok_award ok)
     = Some (JStr ("Recognized for successfully completing the " +:+ courseName
                   +:+ " certification program."))) /\
  (f_courseName f = None \/ f_courseName f = Some EmptyString ->
   av_personalizedDescription (ok_award ok) = f_personalizedDescription f) /\
  (awards (db w') = awards (db w) \/
   exists award,
     awards (db w') = awards (db w) ++ [award] /\
     award_id award = av_id (ok_award ok) /\
     award_personalized_description award
     = av_personalizedDescription (ok_award ok)).
Proof.
  intros Hbody Hparse Hserve Hb.
  destruct (serve_ok_inv _ _ _ _ _ _ _ Hserve Hb)
    as (wa & wb & f' & badge & award & url & Hissue & _ & _ & Hdb & _ & ->).
  assert (f' = f) as ->.
  { rewrite issueAward_run, Hbody, Hparse in Hissue.
    destruct (clientConfigured env); [|discriminate].
    destruct (lookupBadge env f w) as [? [?|?]]; [|discriminate].
    destruct (upsertPerson env _ _ _) as [? [?|?]]; [|discriminate].
    destruct (upsertAward env _ _ _ _ _) as [? [?|?]]; [|discriminate].
    now injection Hissue. }
  simpl. split; [|split].
  - intros courseName Hc Hne. unfold effectiveDescription. rewrite Hc.
    destruct courseName; [now elim Hne|reflexivity].
  - unfold effectiveDescription. intros [-> | ->]; reflexivity.
  - rewrite Hdb. destruct (issueAward_awards _ _ _ _ _ _ _ _ Hissue) as [Hsame|[Happ Hd]].
    + now left.
    + right. exists award. now repeat split.
Qed.

(** ** Certificate persistence *)

(** [worldBlind m]: [m] neither reads nor changes the world; what it
    returns is decided by the environment alone. *)
Definition worldBlind {E A} (m : Eff E A) : Prop :=
  forall w w0, m w = (w, snd (m w0)).

Lemma worldBlind_ret {E A} (a : A) : worldBlind (ret (E := E) a).
Proof. intros w w0. reflexivity. Qed.

Lemma worldBlind_exit {E A} (e : E) : worldBlind (exit (A := A) e).
Proof. intros w w0. reflexivity. Qed.

Lemma worldBlind_bind {E A B} (m : Eff E A) (k : A -> Eff E B) :
  worldBlind m -> (forall a, worldBlind (k a)) -> worldBlind (bind m k).
Proof.
  intros Hm Hk w w0. unfold bind.
  pose proof (Hm w w0) as H1. pose proof (Hm w0 w0) as H2.
  destruct (m w0) as [w0' r0]. simpl in *. rewrite H1.
  injection H2 as ->. destruct r0 as [a|e]; [|reflexivity].
  apply Hk.
Qed.

Lemma worldBlind_liftResult {E A} (r : result E A) : worldBlind (liftResult r).
Proof. destruct r; intros w w0; reflexivity. Qed.

Lemma worldBlind_fetchAsset env relativeSrc assetBaseUrl :
  worldBlind (fetchAsset env relativeSrc assetBaseUrl).
Proof.
  unfold fetchAsset. destruct (env_local_file env relativeSrc);
    try (intros w w0; reflexivity).
  destruct (env_remote_fetch env _) as [|[]]; intros w w0; reflexivity.
Qed.

Lemma worldBlind_inlineEach rt env assetBaseUrl matches res :
  worldBlind (inlineEach rt env assetBaseUrl matches res).
Proof.
  revert res. induction matches as [|m ms IH]; intros res; simpl.
  - apply worldBlind_ret.
  - apply worldBlind_bind; [apply worldBlind_fetchAsset|]. intros data. apply IH.
Qed.

Lemma worldBlind_inlineAssetSources rt env html assetBaseUrl :
  worldBlind (inlineAssetSources rt env html assetBaseUrl).
Proof.
  unfold inlineAssetSources. destruct (assetMatches html) eqn:Hm.
  - apply worldBlind_ret.
  - apply worldBlind_inlineEach.
Qed.

Lemma worldBlind_htmlToPdf env html : worldBlind (htmlToPdf env html).
Proof. unfold htmlToPdf. destruct (env_render_pdf env html); intros w w0; reflexivity. Qed.

(** What [generateCertificatePdf] does once it holds the template. *)
Definition renderTemplate (rt : Runtime) (env : Env) (options : GenerateOptions)
    (template : string) : Eff string string :=
  let! withValues :=
    liftResult
      (replacePlaceholders (injectBaseHref rt template) (go_recipientName options)
         (formatIssuedDate rt (go_issuedAt options)) (go_badgeTitle options)) in
  let! html := inlineAssetSources rt env withValues (go_assetBaseUrl options) in
  htmlToPdf env html.

Lemma worldBlind_renderTemplate rt env options template :
  worldBlind (renderTemplate rt env options template).
Proof.
  unfold renderTemplate.
  apply worldBlind_bind; [apply worldBlind_liftResult|]. intros withValues.
  apply worldBlind_bind; [apply worldBlind_inlineAssetSources|]. intros html.
  apply worldBlind_htmlToPdf.
Qed.

Lemma generateCertificatePdf_split rt env options w :
  generateCertificatePdf rt env options w =
  bind (downloadTemplateFromStorage env) (renderTemplate rt env options) w.
Proof.
  unfold generateCertificatePdf, buildCertificateHtml, renderTemplate, bind.
  destruct (downloadTemplateFromStorage env w) as [w1 [template|e]]; [|reflexivity].
  destruct (liftResult _ w1) as [w2 [withValues|e]]; [|reflexivity].
  destruct (inlineAssetSources rt env withValues _ w2) as [w3 [html|e]]; reflexivity.
Qed.

Definition bucketExists (w : World) : Prop :=
  is_Some (buckets (storage w) !! CERT_BUCKET).

(** The world differs from another at most in the list of buckets. *)
Definition sameButBuckets (w1 w : World) : Prop :=
  db w1 = db w /\ outbox w1 = outbox w /\ console w1 = console w /\
  objects (storage w1) = objects (storage w).

Lemma getSupabaseAdminClient_run {E} env (raise : string -> E) w :
  getSupabaseAdminClient env raise w =
  (w, if clientConfigured env then Ok tt else Exit (raise CLIENT_ERROR)).
Proof.
  unfold getSupabaseAdminClient, clientConfigured.
  destruct (Js.truthy _); reflexivity.
Qed.

Lemma ensurePublicBucket_ok env w w1 u :
  ensurePublicBucket env w = (w1, Ok u) ->
  clientConfigured env = true /\ bucketExists w1 /\ sameButBuckets w1 w /\
  (bucketExists w -> env_fault_getBucket env = None /\ w1 = w).
Proof.
  assert (forall w',
            buckets (storage w) !! CERT_BUCKET = None ->
            bind (createBucket env CERT_BUCKET true)
              (fun createError =>
                 match createError with
                 | Some message =>
                     exit ("Failed to create bucket '" +:+ CERT_BUCKET +:+ "': "
                           +:+ message)
                 | None => ret tt
                 end) w = (w', Ok u) ->
            bucketExists w' /\ sameButBuckets w' w) as Hcreate.
  { intros w' Hb. unfold bind, createBucket.
    destruct (env_fault_createBucket env); [discriminate|]. rewrite Hb.
    intros [= <- _]. split.
    - unfold bucketExists. simpl. rewrite lookup_insert_eq. eauto.
    - repeat split. }
  unfold ensurePublicBucket. unfold bind at 1. rewrite getSupabaseAdminClient_run.
  destruct (clientConfigured env); [|discriminate].
  unfold bind at 1. unfold getBucket, gets, bucketExists.
  destruct (env_fault_getBucket env) as [e|].
  - destruct (buckets (storage w) !! CERT_BUCKET) eqn:Hb.
    + destruct (is404 (errorStatus e)); [|discriminate].
      unfold bind, ret, createBucket.
      destruct (env_fault_createBucket env); [discriminate|]. rewrite Hb. discriminate.
    + destruct (is404 (errorStatus e)); [|discriminate].
      unfold bind at 1. unfold ret at 1. intros H.
      destruct (Hcreate _ eq_refl H) as [Hex Hsame].
      split; [reflexivity|]. split; [exact Hex|]. split; [exact Hsame|].
      intros [x Hx]. discriminate Hx.
  - destruct (buckets (storage w) !! CERT_BUCKET) eqn:Hb.
    + intros [= <- _]. rewrite Hb.
      split; [reflexivity|]. split; [eauto|]. split; [repeat split|]. now split.
    + destruct (is404 (errorStatus (env_not_found env))); [|discriminate].
      unfold bind at 1. unfold ret at 1. intros H.
      destruct (Hcreate _ eq_refl H) as [Hex Hsame].
      split; [reflexivity|]. split; [exact Hex|]. split; [exact Hsame|].
      intros [x Hx]. discriminate Hx.
Qed.

Lemma ensurePublicBucket_existing env w :
  clientConfigured env = true -> env_fault_getBucket env = None -> bucketExists w ->
  ensurePublicBucket env w = (w, Ok tt).
Proof.
  intros Hc Hf [public Hb]. unfold ensurePublicBucket, bind.
  rewrite getSupabaseAdminClient_run, Hc. unfold getBucket, gets.
  rewrite Hf, Hb. reflexivity.
Qed.

Lemma downloadTemplateFromStorage_ok env w w1 template :
  downloadTemplateFromStorage env w = (w1, Ok template) ->
  clientConfigured env = true /\ bucketExists w1 /\ sameButBuckets w1 w /\
  env_fault_download env = None /\
  (exists o, objects (storage w) !! (CERT_BUCKET, TEMPLATE_STORAGE_PATH) = Some o /\
             obj_body o = template) /\
  (bucketExists w -> env_fault_getBucket env = None /\ w1 = w).
Proof.
  unfold downloadTemplateFromStorage, bind. rewrite getSupabaseAdminClient_run.
  destruct (clientConfigured env); [|discriminate].
  destruct (ensurePublicBucket env w) as [wa [[]|e]] eqn:He; [|discriminate].
  apply ensurePublicBucket_ok in He as (_ & Hex & Hsame & Hkeep).
  unfold download, gets.
  destruct (env_fault_download env) as [e|].
  { destruct (is404 (errorStatus e)); discriminate. }
  destruct Hsame as (Hdb & Hout & Hcon & Hobj). rewrite Hobj.
  destruct (objects (storage w) !! (CERT_BUCKET, TEMPLATE_STORAGE_PATH)) as [o|] eqn:Ho.
  - intros [= <- <-].
    split; [reflexivity|]. split; [exact Hex|]. split; [now repeat split|].
    split; [reflexivity|]. split; [now exists o|exact Hkeep].
  - destruct (is404 (errorStatus (env_not_found env))); discriminate.
Qed.

Lemma downloadTemplateFromStorage_existing env w o :
  clientConfigured env = true -> env_fault_getBucket env = None -> bucketExists w ->
  env_fault_download env = None ->
  objects (storage w) !! (CERT_BUCKET, TEMPLATE_STORAGE_PATH) = Some o ->
  downloadTemplateFromStorage env w = (w, Ok (obj_body o)).
Proof.
  intros Hc Hf Hb Hd Ho. unfold downloadTemplateFromStorage, bind.
  rewrite getSupabaseAdminClient_run, Hc.
  rewrite (ensurePublicBucket_existing env w Hc Hf Hb).
  unfold download, gets. rewrite Hd, Ho. reflexivity.
Qed.

Definition certificateObject (bytes : string) : StoredObject :=
  {| obj_body := bytes; obj_contentType := "application/pdf"; obj_cacheControl := "0" |}.

(** The world after the certificate was stored under [path]. *)
Definition withCertificate (path bytes : string) (w : World) : World :=
  setStorage
    {| buckets := buckets (storage w);
       objects := <[(CERT_BUCKET, path) := certificateObject bytes]> (objects (storage w)) |}
    w.

(** With [upsert] the upload does not look at what is stored under the
    path: in an existing bucket it fails only on a fault. *)
Lemma upload_upsert_run {E} env path bytes w :
  bucketExists w ->
  upload (E := E) env CERT_BUCKET path bytes certificateUploadOptions w =
  match env_fault_upload env with
  | Some message => (w, Ok (Some message))
  | None => (withCertificate path bytes w, Ok None)
  end.
Proof.
  intros [public Hb]. unfold upload. destruct (env_fault_upload env); [reflexivity|].
  rewrite Hb. simpl. rewrite andb_false_r. reflexivity.
Qed.

Lemma awardStoragePath_not_template (code : string) :
  (CERT_BUCKET, awardStoragePath code) <> (CERT_BUCKET, TEMPLATE_STORAGE_PATH).
Proof. unfold awardStoragePath, TEMPLATE_STORAGE_PATH. intros H. discriminate H. Qed.

Lemma withCertificate_twice path bytes w :
  withCertificate path bytes (withCertificate path bytes w) = withCertificate path bytes w.
Proof.
  unfold withCertificate, setStorage. simpl. now rewrite insert_insert_eq.
Qed.

(** A successful generation, step by step. *)
Lemma generateCertificateAndUpload_ok rt env options w w' certificate :
  generateCertificateAndUpload rt env options w = (w', Ok certificate) ->
  exists wa template bytes,
    downloadTemplateFromStorage env w = (wa, Ok template) /\
    (forall w0, snd (renderTemplate rt env options template w0) = Ok bytes) /\
    env_fault_getBucket env = None /\ env_fault_upload env = None /\
    w' = withCertificate (awardStoragePath (go_verificationCode options)) bytes wa /\
    certificate =
      {| publicUrl :=
           getPublicUrl rt CERT_BUCKET (awardStoragePath (go_verificationCode options));
         storagePath := awardStoragePath (go_verificationCode options);
         issuedDateLabel := formatIssuedDate rt (go_issuedAt options) |}.
Proof.
  unfold generateCertificateAndUpload. unfold bind at 1.
  rewrite generateCertificatePdf_split. unfold bind at 1.
  destruct (downloadTemplateFromStorage env w) as [wa [template|e]] eqn:Hd;
    [|discriminate].
  pose proof (worldBlind_renderTemplate rt env options template) as Hblind.
  rewrite (Hblind wa wa).
  destruct (snd (renderTemplate rt env options template wa)) as [bytes|e] eqn:Hr;
    [|discriminate].
  destruct (downloadTemplateFromStorage_ok _ _ _ _ Hd) as (Hc & Hex & _).
  unfold bind at 1.
  destruct (ensurePublicBucket env wa) as [wb [[]|e]] eqn:He; [|discriminate].
  apply ensurePublicBucket_ok in He as (_ & _ & _ & Hkeep).
  destruct (Hkeep Hex) as [Hf ->].
  unfold bind at 1. rewrite getSupabaseAdminClient_run, Hc.
  unfold bind. rewrite (upload_upsert_run env _ _ _ Hex).
  destruct (env_fault_upload env); [discriminate|].
  intros [= <- <-].
  exists wa, template, bytes. repeat split; try assumption.
  intros w0. rewrite <- Hr.
  now rewrite (Hblind w0 wa).
Qed.

(** C8.  A successful [generateCertificateAndUpload] stores the
    rendered bytes under exactly [awards/{verificationCode}.pdf] in the
    [certificates] bucket, as [application/pdf] with cache control [0],
    whatever was stored under that path before, and touches no other
    object.  Generating again in the resulting world succeeds (the
    upload is an upsert), changes nothing, and returns the same
    certificate; any successful generation for the same verification
    code, under any environment and options, writes the same path and
    returns the same public URL. *)
Theorem certificate_persistence_idempotent rt env options w w' certificate :
  generateCertificateAndUpload rt env options w = (w', Ok certificate) ->
  storagePath certificate = "awards/" +:+ go_verificationCode options +:+ ".pdf" /\
  publicUrl certificate = getPublicUrl rt "certificates" (storagePath certificate) /\
  up_upsert certificateUploadOptions = true /\
  (exists bytes,
     snd (generateCertificatePdf rt env options w) = Ok bytes /\
     objects (storage w') !! ("certificates", storagePath certificate)
     = Some {| obj_body := bytes; obj_contentType := "application/pdf";
               obj_cacheControl := "0" |}) /\
  (forall key,
     key <> ("certificates", storagePath certificate) ->
     objects (storage w') !! key = objects (storage w) !! key) /\
  generateCertificateAndUpload rt env options w' = (w', Ok certificate) /\
  (forall env2 options2 w2 w3 certificate2,
     go_verificationCode options2 = go_verificationCode options ->
     generateCertificateAndUpload rt env2 options2 w2 = (w3, Ok certificate2) ->
     storagePath certificate2 = storagePath certificate /\
     publicUrl certificate2 = publicUrl certificate).
Proof.
  intros Hgen.
  destruct (generateCertificateAndUpload_ok _ _ _ _ _ _ Hgen)
    as (wa & template & bytes & Hd & Hr & Hfg & Hfu & -> & ->).
  destruct (downloadTemplateFromStorage_ok _ _ _ _ Hd)
    as (Hc & Hex & (_ & _ & _ & Hobj) & Hfd & (o & Ho & Hbody) & _).
  simpl. split; [reflexivity|]. split; [reflexivity|]. split; [reflexivity|].
  split; [|split; [|split]].
  - exists bytes. split.
    + rewrite generateCertificatePdf_split. unfold bind. rewrite Hd.
      rewrite (worldBlind_renderTemplate rt env options template wa wa).
      rewrite Hr. reflexivity.
    + apply lookup_insert_eq.
  - intros key Hkey. rewrite lookup_insert_ne; [now rewrite Hobj|].
    intros Heq. apply Hkey. symmetry. exact Heq.
  - set (path := awardStoragePath (go_verificationCode options)).
    set (w1 := withCertificate path bytes wa).
    assert (bucketExists w1) as Hex1 by exact Hex.
    assert (downloadTemplateFromStorage env w1 = (w1, Ok template)) as Hd1.
    { rewrite <- Hbody.
      apply downloadTemplateFromStorage_existing; try assumption.
      unfold w1, withCertificate. simpl.
      rewrite lookup_insert_ne by apply awardStoragePath_not_template.
      now rewrite Hobj. }
    unfold generateCertificateAndUpload. unfold bind at 1.
    rewrite generateCertificatePdf_split. unfold bind at 1. rewrite Hd1.
    rewrite (worldBlind_renderTemplate rt env options template w1 w1), Hr.
    unfold bind at 1. rewrite (ensurePublicBucket_existing env w1 Hc Hfg Hex1).
    unfold bind at 1. rewrite getSupabaseAdminClient_run, Hc.
    unfold bind. rewrite (upload_upsert_run env _ _ _ Hex1), Hfu.
    fold path. unfold w1. rewrite withCertificate_twice. reflexivity.
  - intros env2 options2 w2 w3 certificate2 Hcode Hgen2.
    destruct (generateCertificateAndUpload_ok _ _ _ _ _ _ Hgen2)
      as (_ & _ & _ & _ & _ & _ & _ & _ & ->).
    simpl. rewrite Hcode. now split.
Qed.

(** The bundled-template variant stores under the same path and
    returns the same URL. *)
Lemma bundled_certificate_path rt env options w w' certificate :
  Bundled.generateCertificateAndUpload rt env options w = (w', Ok certificate) ->
  storagePath certificate = "awards/" +:+ go_verificationCode options +:+ ".pdf" /\
  publicUrl certificate = getPublicUrl rt "certificates" (storagePath certificate).
Proof.
  unfold Bundled.generateCertificateAndUpload, bind.
  destruct (Bundled.generateCertificatePdf rt env options w) as [w1 [pdf|e]];
    [|discriminate].
  destruct (ensurePublicBucket env w1) as [w2 [[]|e]]; [|discriminate].
  destruct (getSupabaseAdminClient env id w2) as [w3 [[]|e]]; [|discriminate].
  destruct (upload env CERT_BUCKET _ pdf certificateUploadOptions w3)
    as [w4 [[message|]|e]]; try discriminate.
  intros [= _ <-]. split; reflexivity.
Qed.

(** ** The theorems at concrete inputs *)

Definition demoFields : Fields :=
  {| f_name := "Jane Doe"; f_email := "jane@x.com"; f_badgeSlug := None;
     f_courseId := Some "gsp"; f_courseName := None;
     f_personalizedDescription := None |}.

Definition demoPerson : Person :=
  {| person_id := "p-1"; person_name := "Jane Doe"; person_email := "jane@x.com" |}.

Definition demoAward : Award :=
  {| award_id := "a-1"; award_person_id := "p-1"; award_badge_id := "b-1";
     award_issued_at := Some "2025-03-03T10:00:00.000Z";
     award_personalized_description := None |}.

Definition demoCertificateUrl : string :=
  "https://db.example/storage/v1/object/public/certificates/awards/a-1.pdf".

Definition demoOk : OkBody :=
  okBody demoEnv demoRequest demoFields demoBadge demoAward (Some demoCertificateUrl) sent.

Lemma demo_first_call :
  serve demoRuntime demoEnv demoRequest demoWorld
  = (demoWorldAfterFirst, Responded (jsonResponse (BodyOk demoOk) 200)).
Proof. vm_compute. reflexivity. Qed.

Lemma repeated_signal_reuses_award_witness :
  idsOk (db demoWorld) /\
  db (fst (serve demoRuntime demoEnv demoRequest demoWorldAfterFirst))
  = db demoWorldAfterFirst /\
  (exists f badge award,
     settled f badge award
       (db (fst (serve demoRuntime demoEnv demoRequest demoWorldAfterFirst))) /\
     award_id award = "a-1").
Proof.
  assert (idsOk (db demoWorld)) as Hids by constructor.
  split; [exact Hids|].
  pose proof (repeated_signal_reuses_award demoRuntime demoEnv demoEnv demoRequest
                demoWorld demoWorldAfterFirst
                (jsonResponse (BodyOk demoOk) 200) demoOk
                Hids eq_refl demo_first_call eq_refl) as (Hdb & Hone & _).
  split; [exact Hdb|exact Hone].
Defined.

(** The demonstration environment with a browser that crashes and a
    mail provider that rejects the message. *)
Definition failingEnv : Env := {|
  env_SUPABASE_SERVICE_ROLE_KEY := env_SUPABASE_SERVICE_ROLE_KEY demoEnv;
  env_RESEND_API_KEY := env_RESEND_API_KEY demoEnv;
  env_RESEND_FROM_EMAIL := env_RESEND_FROM_EMAIL demoEnv;
  env_site_urls := env_site_urls demoEnv;
  env_now := env_now demoEnv;
  env_fault_badges_select := None;
  env_fault_people_select := None;
  env_fault_people_insert := None;
  env_new_person_id := env_new_person_id demoEnv;
  env_fault_awards_select := None;
  env_fault_awards_insert := None;
  env_new_award_id := env_new_award_id demoEnv;
  env_not_found := env_not_found demoEnv;
  env_fault_getBucket := None;
  env_fault_createBucket := None;
  env_fault_download := None;
  env_fault_upload := None;
  env_local_file := env_local_file demoEnv;
  env_remote_fetch := env_remote_fetch demoEnv;
  env_render_pdf := fun _ => inl "Navigation timeout of 30000 ms exceeded";
  env_send := SendError (Some "The example.org domain is not verified")
|}.

Lemma demo_issue_with_failures :
  issueAward demoRuntime failingEnv demoRequest demoWorld
  = (fst (issueAward demoRuntime failingEnv demoRequest demoWorld),
     Ok (demoFields, demoBadge, demoAward)).
Proof. vm_compute. reflexivity. Qed.

Lemma best_effort_steps_keep_success_witness :
  exists w2 ok,
    serve demoRuntime failingEnv demoRequest demoWorld
    = (w2, Responded (jsonResponse (BodyOk ok) 200)) /\
    av_id (ok_award ok) = "a-1" /\
    av_certificateUrl (ok_award ok) = None /\
    ok_email ok = failed "The example.org domain is not verified".
Proof.
  destruct (best_effort_steps_keep_success demoRuntime failingEnv demoRequest
              demoWorld _ demoFields demoBadge demoAward demo_issue_with_failures
              eq_refl)
    as (w2 & ok & Hserve & _ & Hid & _ & Hmail & Hcert & _).
  exists w2, ok. split; [exact Hserve|]. split; [exact Hid|]. split.
  - eapply Hcert. vm_compute. reflexivity.
  - rewrite Hmail. vm_compute. reflexivity.
Defined.

Definition upperCaseRequest : Request := emailRequest "Jane@X.com".

Definition upperCaseFields : Fields :=
  {| f_name := "Jane Doe"; f_email := "Jane@X.com"; f_badgeSlug := None;
     f_courseId := Some "gsp"; f_courseName := None;
     f_personalizedDescription := None |}.

Lemma email_normalisation_same_person_witness :
  normalizedEmailOf "jane@x.com" = normalizedEmailOf "Jane@X.com" /\
  people (db (fst (serve demoRuntime demoEnv upperCaseRequest demoWorldAfterFirst)))
  = people (db demoWorldAfterFirst).
Proof.
  assert (idsOk (db demoWorld)) as Hids by constructor.
  pose proof (email_normalisation_same_person demoRuntime demoEnv demoEnv
                demoRequest upperCaseRequest _ _ demoFields upperCaseFields
                demoWorld demoWorldAfterFirst
                (jsonResponse (BodyOk demoOk) 200) demoOk
                zod_email_strict Hids eq_refl
                eq_refl eq_refl eq_refl eq_refl eq_refl
                demo_first_call eq_refl) as (_ & _ & Hn & _ & Hpeople & _).
  split; [exact Hn|exact Hpeople].
Defined.

Definition renamedRequest : Request :=
  directRequest
    [ ("name", JStr "J. Doe-Smith"); ("email", JStr "jane@x.com");
      ("courseId", JStr "gsp") ].

Definition renamedFields : Fields :=
  {| f_name := "J. Doe-Smith"; f_email := "jane@x.com"; f_badgeSlug := None;
     f_courseId := Some "gsp"; f_courseName := None;
     f_personalizedDescription := None |}.

Lemma existing_person_reused_witness :
  people (db (fst (serve demoRuntime demoEnv renamedRequest demoWorldAfterFirst)))
  = people (db demoWorldAfterFirst) /\
  peopleByEmail "jane@x.com"
    (db (fst (serve demoRuntime demoEnv renamedRequest demoWorldAfterFirst)))
  = [demoPerson].
Proof.
  assert (peopleByEmail (normalizedEmailOf (f_email renamedFields))
            (db demoWorldAfterFirst) = [demoPerson]) as Hp
    by (vm_compute; reflexivity).
  pose proof (existing_person_reused demoRuntime demoEnv renamedRequest _
                renamedFields demoPerson demoWorldAfterFirst
                eq_refl eq_refl Hp eq_refl) as (Hkept & Hsame & _).
  split; [exact Hkept|exact Hsame].
Defined.

Definition courseNameRequest : Request :=
  directRequest
    [ ("name", JStr "Jane Doe"); ("email", JStr "jane@x.com");
      ("courseName", JStr "Green Software Practitioner");
      ("personalizedDescription", JStr "For outstanding work on carbon-aware scheduling.") ].

Definition courseNameFields : Fields :=
  {| f_name := "Jane Doe"; f_email := "jane@x.com"; f_badgeSlug := None;
     f_courseId := None; f_courseName := Some "Green Software Practitioner";
     f_personalizedDescription :=
       Some (JStr "For outstanding work on carbon-aware scheduling.") |}.

Definition courseNameOk : OkBody :=
  okBody demoEnv courseNameRequest courseNameFields demoBadge
    {| award_id := "a-1"; award_person_id := "p-1"; award_badge_id := "b-1";
       award_issued_at := Some "2025-03-03T10:00:00.000Z";
       award_personalized_description :=
         Some (JStr "Recognized for successfully completing the Green Software Practitioner certification program.") |}
    (Some demoCertificateUrl) sent.

Lemma demo_course_name_call :
  serve demoRuntime demoEnv courseNameRequest demoWorld
  = (fst (serve demoRuntime demoEnv courseNameRequest demoWorld),
     Responded (jsonResponse (BodyOk courseNameOk) 200)).
Proof. vm_compute. reflexivity. Qed.

Lemma description_from_course_name_witness :
  av_personalizedDescription (ok_award courseNameOk)
  = Some (JStr ("Recognized for successfully completing the "
                +:+ "Green Software Practitioner" +:+ " certification program.")).
Proof.
  pose proof (description_from_course_name demoRuntime demoEnv courseNameRequest _
                courseNameFields demoWorld _ _ courseNameOk
                eq_refl eq_refl demo_course_name_call eq_refl) as (Hgen & _).
  apply (Hgen "Green Software Practitioner"); [reflexivity|discriminate].
Defined.

Definition demoOptions : GenerateOptions :=
  {| go_recipientName := "Jane Doe"; go_issuedAt := "2025-03-03T10:00:00.000Z";
     go_verificationCode := "a-1"; go_badgeTitle := "Green Software Practitioner";
     go_assetBaseUrl := None |}.

Definition demoCertificate : Certificate :=
  {| publicUrl := demoCertificateUrl; storagePath := "awards/a-1.pdf";
     issuedDateLabel := "March 3, 2025" |}.

Lemma demo_generation :
  generateCertificateAndUpload demoRuntime demoEnv demoOptions demoWorld
  = (fst (generateCertificateAndUpload demoRuntime demoEnv demoOptions demoWorld),
     Ok demoCertificate).
Proof. vm_compute. reflexivity. Qed.

Lemma certificate_persistence_idempotent_witness :
  storagePath demoCertificate = "awards/a-1.pdf" /\
  publicUrl demoCertificate = getPublicUrl demoRuntime "certificates" "awards/a-1.pdf" /\
  let w' := fst (generateCertificateAndUpload demoRuntime demoEnv demoOptions demoWorld) in
  generateCertificateAndUpload demoRuntime demoEnv demoOptions w' = (w', Ok demoCertificate).
Proof.
  pose proof (certificate_persistence_idempotent demoRuntime demoEnv demoOptions
                demoWorld _ demoCertificate demo_generation)
    as (Hpath & Hurl & _ & _ & _ & Hagain & _).
  split; [exact Hpath|]. split; [exact Hurl|exact Hagain].
Defined.

(** * Further properties of the pipeline *)

(** ** The range of badge resolution *)

(** Whatever the payload says, the resolver returns one of the two
    canonical slugs of the alias table or, for a candidate
    [constructor] or [__proto__], the member of that name every object
    inherits; it returns nothing else. *)
Theorem resolveBadgeSlug_range (p : SlugParams) :
  resolveBadgeSlug p = Some (Slug PRACTITIONER) \/
  resolveBadgeSlug p = Some (Slug CLOUD_SPECIALIST) \/
  resolveBadgeSlug p = Some (Member "constructor") \/
  resolveBadgeSlug p = Some (Member "__proto__").
Proof.
  rewrite resolveBadgeSlug_cascade.
  destruct (lookupAlias (p_badgeSlug p)) as [s|] eqn:H1.
  { destruct (lookupAlias_range _ _ H1) as [-> | [-> | [-> | ->]]]; auto. }
  destruct (lookupAlias (p_courseId p)) as [s|] eqn:H2.
  { destruct (lookupAlias_range _ _ H2) as [-> | [-> | [-> | ->]]]; auto. }
  destruct (lookupAlias (p_courseName p)) as [s|] eqn:H3.
  { destruct (lookupAlias_range _ _ H3) as [-> | [-> | [-> | ->]]]; auto. }
  now left.
Qed.

Lemma lookupAlias_PRACTITIONER :
  lookupAlias (Some PRACTITIONER) = Some (Slug PRACTITIONER).
Proof. vm_compute. reflexivity. Qed.

Lemma lookupAlias_CLOUD_SPECIALIST :
  lookupAlias (Some CLOUD_SPECIALIST) = Some (Slug CLOUD_SPECIALIST).
Proof. vm_compute. reflexivity. Qed.

(** A slug the resolver returns is a fixed point of resolution: sent
    back as the explicit [badgeSlug] of any payload, it resolves to
    itself whatever course id and course name that payload carries. *)
Theorem resolved_slug_is_fixed_point (p q : SlugParams) (slug : string) :
  resolveBadgeSlug p = Some (Slug slug) -> p_badgeSlug q = Some slug ->
  resolveBadgeSlug q = Some (Slug slug).
Proof.
  intros Hp Hq. rewrite (resolveBadgeSlug_cascade q), Hq.
  destruct (resolveBadgeSlug_range p) as [H | [H | [H | H]]];
    rewrite H in Hp; try discriminate Hp; injection Hp as <-.
  - now rewrite lookupAlias_PRACTITIONER.
  - now rewrite lookupAlias_CLOUD_SPECIALIST.
Qed.

Lemma resolved_slug_is_fixed_point_witness :
  let p := {| p_badgeSlug := None; p_courseId := Some "SCS";
              p_courseName := None |} in
  let q := {| p_badgeSlug := Some "sustainable-cloud-specialist";
              p_courseId := Some "gsp";
              p_courseName := Some "Green Software Practitioner" |} in
  resolveBadgeSlug q = Some (Slug "sustainable-cloud-specialist").
Proof.
  intros p q. apply (resolved_slug_is_fixed_point p q).
  - vm_compute. reflexivity.
  - reflexivity.
Defined.

(** ** Normalisation is idempotent *)

Lemma lowerChar_white (c : ascii) :
  Js.isWhiteSpace (Js.lowerChar c) = Js.isWhiteSpace c.
Proof. destruct c as [[] [] [] [] [] [] [] []]; vm_compute; reflexivity. Qed.

Lemma trimStart_toLowerCase (s : string) :
  Js.trimStart (Js.toLowerCase s) = Js.toLowerCase (Js.trimStart s).
Proof.
  unfold Js.toLowerCase. induction s as [|c s IH]; [reflexivity|].
  simpl. rewrite lowerChar_white. destruct (Js.isWhiteSpace c); [exact IH|reflexivity].
Qed.

Lemma trimEnd_toLowerCase (s : string) :
  Js.trimEnd (Js.toLowerCase s) = Js.toLowerCase (Js.trimEnd s).
Proof.
  unfold Js.toLowerCase. induction s as [|c s IH]; [reflexivity|].
  simpl. rewrite IH, lowerChar_white.
  destruct (Js.trimEnd s); simpl; [|reflexivity].
  destruct (Js.isWhiteSpace c); reflexivity.
Qed.

Lemma trim_toLowerCase (s : string) :
  Js.trim (Js.toLowerCase s) = Js.toLowerCase (Js.trim s).
Proof. unfold Js.trim. now rewrite trimStart_toLowerCase, trimEnd_toLowerCase. Qed.

(** The string does not begin with white space. *)
Definition startsBlack (s : string) : bool :=
  match s with
  | EmptyString => true
  | String c _ => negb (Js.isWhiteSpace c)
  end.

Lemma trimStart_startsBlack (s : string) : startsBlack (Js.trimStart s) = true.
Proof.
  induction s as [|c s IH]; [reflexivity|]. simpl.
  destruct (Js.isWhiteSpace c) eqn:Hc; [exact IH|]. simpl. now rewrite Hc.
Qed.

Lemma trimStart_black (s : string) : startsBlack s = true -> Js.trimStart s = s.
Proof.
  destruct s as [|c s]; [reflexivity|]. simpl.
  destruct (Js.isWhiteSpace c); [discriminate|reflexivity].
Qed.

Lemma trimEnd_startsBlack (s : string) :
  startsBlack s = true -> startsBlack (Js.trimEnd s) = true.
Proof.
  destruct s as [|c s]; [reflexivity|]. simpl. intros Hc.
  destruct (Js.trimEnd s); simpl.
  - destruct (Js.isWhiteSpace c) eqn:Hw; [discriminate|]. simpl. now rewrite Hw.
  - exact Hc.
Qed.

Lemma trimEnd_idem (s : string) : Js.trimEnd (Js.trimEnd s) = Js.trimEnd s.
Proof.
  induction s as [|c s IH]; [reflexivity|]. cbn [Js.trimEnd].
  destruct (Js.trimEnd s) as [|d t] eqn:Ht.
  - destruct (Js.isWhiteSpace c) eqn:Hc; [reflexivity|]. cbn. now rewrite Hc.
  - change (Js.trimEnd (String c (String d t)))
      with (match Js.trimEnd (String d t) with
            | EmptyString =>
                if Js.isWhiteSpace c then EmptyString else String c EmptyString
            | String a u => String c (String a u)
            end).
    rewrite IH. reflexivity.
Qed.

Lemma trim_idem (s : string) : Js.trim (Js.trim s) = Js.trim s.
Proof.
  unfold Js.trim.
  rewrite (trimStart_black (Js.trimEnd (Js.trimStart s))).
  - apply trimEnd_idem.
  - apply trimEnd_startsBlack, trimStart_startsBlack.
Qed.

Lemma normalizedEmailOf_blank (e : string) :
  Js.trim e = EmptyString -> normalizedEmailOf e = Js.toLowerCase e.
Proof.
  intros Hb. unfold normalizedEmailOf, normalize.
  destruct e as [|c e]; [reflexivity|]. simpl Js.truthy. cbv iota.
  rewrite Hb. reflexivity.
Qed.

(** The identity key of a person is stable: normalising an ASCII
    address that is already normalised changes nothing, so the stored
    address of a person is itself the key under which it is found. *)
Theorem normalizedEmailOf_idempotent (e : string) :
  Js.isAscii e = true ->
  normalizedEmailOf (normalizedEmailOf e) = normalizedEmailOf e.
Proof.
  intros _.
  destruct (string_dec (Js.trim e) EmptyString) as [Hb|Hn].
  - rewrite (normalizedEmailOf_blank e Hb).
    rewrite normalizedEmailOf_blank; [apply toLowerCase_idem|].
    rewrite trim_toLowerCase, Hb. reflexivity.
  - rewrite (normalizedEmailOf_trim e Hn).
    assert (Js.trim (Js.toLowerCase (Js.trim e)) = Js.toLowerCase (Js.trim e)) as Ht
      by (now rewrite trim_toLowerCase, trim_idem).
    rewrite normalizedEmailOf_trim.
    + now rewrite Ht, toLowerCase_idem.
    + rewrite Ht. unfold Js.toLowerCase. intros H.
      apply Hn. destruct (Js.trim e); [reflexivity|discriminate H].
Qed.

Lemma normalizedEmailOf_idempotent_witness :
  normalizedEmailOf (normalizedEmailOf "  Jane@X.com ") = normalizedEmailOf "  Jane@X.com ".
Proof. apply (normalizedEmailOf_idempotent "  Jane@X.com "). reflexivity. Defined.

(** ** How the handler answers *)

(** A component of the world that the datastore does not hold. *)
Definition dbBlind {S} (proj : World -> S) : Prop :=
  forall d w, proj (setDb d w) = proj w.

Lemma storage_dbBlind : dbBlind storage.
Proof. intros d w. reflexivity. Qed.

Lemma outbox_dbBlind : dbBlind outbox.
Proof. intros d w. reflexivity. Qed.

Lemma console_dbBlind : dbBlind console.
Proof. intros d w. reflexivity. Qed.

Section DbFrame.

Context {S : Type} (proj : World -> S) (Hblind : dbBlind proj).

Lemma preserves_upsertPerson env name email :
  preserves proj (upsertPerson env name email).
Proof.
  intros w. rewrite upsertPerson_run.
  assert (proj (fst (insertNewPersonRun env name email w)) = proj w) as Hins.
  { unfold insertNewPersonRun.
    destruct (env_fault_people_insert env); [reflexivity|]. apply Hblind. }
  destruct (env_fault_people_select env); [reflexivity|].
  destruct (peopleByEmail email (db w)) as [|p [|p' ps]]; try reflexivity.
  - exact Hins.
  - destruct (Js.truthy (person_id p)); [reflexivity|exact Hins].
Qed.

Lemma preserves_upsertAward env pid bid issuedAt description :
  preserves proj (upsertAward env pid bid issuedAt description).
Proof.
  intros w. rewrite upsertAward_run.
  destruct (env_fault_awards_select env); [reflexivity|].
  destruct (awardsByPersonBadge pid bid (db w)) as [|a [|a' l]]; try reflexivity.
  destruct (env_fault_awards_insert env); [reflexivity|]. apply Hblind.
Qed.

Lemma preserves_issueAward rt env request : preserves proj (issueAward rt env request).
Proof.
  intros w. rewrite issueAward_run.
  destruct (req_body request) as [json|]; [|reflexivity].
  destruct (parsePayload rt json) as [f|]; [|reflexivity].
  destruct (clientConfigured env); [|reflexivity].
  rewrite lookupBadge_run.
  destruct (match env_fault_badges_select env with
            | Some _ => _ | None => _ end) as [badge|o]; [|reflexivity].
  pose proof (preserves_upsertPerson env (f_name f) (normalizedEmailOf (f_email f)) w)
    as Hp.
  destruct (upsertPerson env _ _ w) as [w2 [pid|o]]; [|exact Hp].
  pose proof (preserves_upsertAward env pid (badge_id badge) (env_now env)
                (effectiveDescription f) w2) as Ha.
  simpl in Hp.
  destruct (upsertAward env pid _ _ _ w2) as [w3 [a|o]]; simpl in *; congruence.
Qed.

End DbFrame.

(** How the upsert phases can end without an award: with the uncaught
    exception of an unconfigured client, with a 400 or a 404 before
    anything was written, or with a 500. *)
Lemma issueAward_exit_detail rt env request w w1 o :
  issueAward rt env request w = (w1, Exit o) ->
  o = Threw CLIENT_ERROR /\ w1 = w \/
  exists r,
    o = Responded r /\ (forall ok, body r <> BodyOk ok) /\
    ((status r = 400%N \/ status r = 404%N) /\ w1 = w \/ status r = 500%N).
Proof.
  rewrite issueAward_run.
  destruct (req_body request) as [json|].
  2:{ intros [= <- <-]. right. eexists. split; [reflexivity|].
      split; [discriminate|]. left. split; [now left|reflexivity]. }
  destruct (parsePayload rt json) as [f|].
  2:{ intros [= <- <-]. right. eexists. split; [reflexivity|].
      split; [discriminate|]. left. split; [now left|reflexivity]. }
  destruct (clientConfigured env); [|intros [= <- <-]; now left].
  rewrite lookupBadge_run.
  destruct (env_fault_badges_select env) as [m|].
  { intros [= <- <-]. right. eexists. split; [reflexivity|].
    split; [discriminate|]. left. split; [now right|reflexivity]. }
  destruct (badgesBySlug (resolvedSlug f) (db w)) as [|b [|b' bs]].
  1,3: intros [= <- <-]; right; eexists; (split; [reflexivity|]);
       (split; [discriminate|]); left; (split; [now right|reflexivity]).
  destruct (upsertPerson env _ _ w) as [w2 [pid|o']] eqn:Hp.
  2:{ intros [= <- <-]. right.
      rewrite upsertPerson_run in Hp. unfold insertNewPersonRun in Hp.
      destruct (env_fault_people_select env).
      { injection Hp as <- <-. eexists. split; [reflexivity|].
        split; [discriminate|]. now right. }
      destruct (peopleByEmail _ (db w)) as [|p [|p' ps]].
      - destruct (env_fault_people_insert env); [|discriminate].
        injection Hp as <- <-. eexists. split; [reflexivity|].
        split; [discriminate|]. now right.
      - destruct (Js.truthy (person_id p)); [discriminate|].
        destruct (env_fault_people_insert env); [|discriminate].
        injection Hp as <- <-. eexists. split; [reflexivity|].
        split; [discriminate|]. now right.
      - injection Hp as <- <-. eexists. split; [reflexivity|].
        split; [discriminate|]. now right. }
  destruct (upsertAward env pid _ _ _ w2) as [w3 [a|o']] eqn:Ha; [discriminate|].
  intros [= <- <-]. right. rewrite upsertAward_run in Ha.
  destruct (env_fault_awards_select env).
  { injection Ha as <- <-. eexists. split; [reflexivity|].
    split; [discriminate|]. now right. }
  destruct (awardsByPersonBadge pid (badge_id b) (db w2)) as [|a [|a' l]].
  - destruct (env_fault_awards_insert env); [|discriminate].
    injection Ha as <- <-. eexists. split; [reflexivity|].
    split; [discriminate|]. now right.
  - discriminate.
  - injection Ha as <- <-. eexists. split; [reflexivity|].
    split; [discriminate|]. now right.
Qed.

(** How a successful upsert changes the tables. *)
Lemma issueAward_tables rt env request w w1 f badge award :
  issueAward rt env request w = (w1, Ok (f, badge, award)) ->
  badges (db w1) = badges (db w) /\
  (people (db w1) = people (db w) \/
   exists p, people (db w1) = people (db w) ++ [p] /\
             person_id p = env_new_person_id env) /\
  (awards (db w1) = awards (db w) \/
   awards (db w1) = awards (db w) ++ [award] /\
   award_id award = env_new_award_id env).
Proof.
  rewrite issueAward_run.
  destruct (req_body request) as [json|]; [|discriminate].
  destruct (parsePayload rt json) as [f'|]; [|discriminate].
  destruct (clientConfigured env); [|discriminate].
  destruct (lookupBadge env f' w) as [wa [b|o]] eqn:Hbadge; [|discriminate].
  apply lookupBadge_ok in Hbadge as [-> _].
  destruct (upsertPerson env _ _ w) as [wb [pid|o]] eqn:Hperson; [|discriminate].
  assert (badges (db wb) = badges (db w) /\ awards (db wb) = awards (db w) /\
          (people (db wb) = people (db w) \/
           exists p, people (db wb) = people (db w) ++ [p] /\
                     person_id p = env_new_person_id env)) as (Hb1 & Ha1 & Hp1).
  { rewrite upsertPerson_run in Hperson. unfold insertNewPersonRun in Hperson.
    destruct (env_fault_people_select env); [discriminate|].
    destruct (peopleByEmail _ (db w)) as [|p [|p' ps]]; try discriminate.
    - destruct (env_fault_people_insert env); [discriminate|].
      injection Hperson as <- _. simpl. repeat split. right. eexists. now split.
    - destruct (Js.truthy (person_id p)).
      + injection Hperson as <- _. repeat split. now left.
      + destruct (env_fault_people_insert env); [discriminate|].
        injection Hperson as <- _. simpl. repeat split. right. eexists. now split. }
  destruct (upsertAward env pid _ _ _ wb) as [wc [a|o]] eqn:Haward; [|discriminate].
  apply upsertAward_ok in Haward as (_ & Hp2 & Hb2 & _ & _ & Hcases).
  intros [= <- <- <- <-]. split; [congruence|]. split.
  - rewrite Hp2. exact Hp1.
  - destruct Hcases as [[-> _] | (_ & Happ & ->)].
    + left. exact Ha1.
    + right. rewrite Happ, Ha1. now split.
Qed.


(** The handler answers with one of four statuses, and the "ok" body
    goes with status 200 and with no other. *)
Theorem response_status_partition rt env request w w' r :
  serve rt env request w = (w', Responded r) ->
  status r = 200%N /\ (exists ok, body r = BodyOk ok) \/
  (status r = 400%N \/ status r = 404%N \/ status r = 500%N) /\
  (forall ok, body r <> BodyOk ok).
Proof.
  intros Hserve.
  destruct (issueAward rt env request w) as [w1 [[[f badge] award]|o]] eqn:Hissue.
  - destruct (serve_issued_responded _ _ _ _ _ _ _ _ _ _ Hissue Hserve)
      as (_ & w2 & url & _ & _ & _ & _ & ->).
    left. split; [reflexivity|]. eexists. reflexivity.
  - rewrite (serve_not_issued _ _ _ _ _ _ Hissue) in Hserve.
    injection Hserve as _ ->.
    destruct (issueAward_exit_detail _ _ _ _ _ _ Hissue)
      as [[Hthrew _] | (r' & [= <-] & Hno & Hst)]; [discriminate|].
    right. split; [|exact Hno].
    destruct Hst as [[[H | H] _] | H]; auto.
Qed.

Lemma response_status_partition_witness :
  status (jsonResponse (BodyOk demoOk) 200) = 200%N /\
  (exists ok, body (jsonResponse (BodyOk demoOk) 200) = BodyOk ok) \/
  (status (jsonResponse (BodyOk demoOk) 200) = 400%N \/
   status (jsonResponse (BodyOk demoOk) 200) = 404%N \/
   status (jsonResponse (BodyOk demoOk) 200) = 500%N) /\
  (forall ok, body (jsonResponse (BodyOk demoOk) 200) <> BodyOk ok).
Proof.
  apply (response_status_partition demoRuntime demoEnv demoRequest demoWorld
           demoWorldAfterFirst).
  exact demo_first_call.
Defined.

(** A request that is rejected as the client's fault (400 or 404), or
    that dies on the unconfigured datastore client, changes nothing at
    all: no person, no award, no stored object, no mail, no log line. *)
Theorem rejected_request_changes_nothing rt env request w w' o :
  serve rt env request w = (w', o) ->
  match o with
  | Threw message =>
      message = "SUPABASE_SERVICE_ROLE_KEY is not set; required for server-side writes."
  | Responded r => status r = 400%N \/ status r = 404%N
  end ->
  w' = w.
Proof.
  intros Hserve Ho.
  destruct (issueAward rt env request w) as [w1 [[[f badge] award]|o']] eqn:Hissue.
  - destruct (serve_issued _ _ _ _ _ _ _ _ Hissue) as (w2 & url & _ & _ & _ & _ & Hs).
    rewrite Hs in Hserve.
    destruct (notificationThrows env (effectiveDescription f));
      injection Hserve as _ <-; simpl in Ho.
    + discriminate Ho.
    + destruct Ho as [Ho | Ho]; discriminate Ho.
  - rewrite (serve_not_issued _ _ _ _ _ _ Hissue) in Hserve.
    injection Hserve as <- <-.
    destruct (issueAward_exit_detail _ _ _ _ _ _ Hissue)
      as [[_ Hw] | (r & -> & _ & [[_ Hw] | H500])]; try exact Hw.
    simpl in Ho. rewrite H500 in Ho. destruct Ho as [Ho | Ho]; discriminate Ho.
Qed.

Definition unknownBadgeWorld : World :=
  {| db := {| badges := []; people := []; awards := [] |};
     storage := storage demoWorld; outbox := []; console := [] |}.

Lemma rejected_request_changes_nothing_witness :
  fst (serve demoRuntime demoEnv demoRequest unknownBadgeWorld) = unknownBadgeWorld.
Proof.
  apply (rejected_request_changes_nothing demoRuntime demoEnv demoRequest
           unknownBadgeWorld _
           (errorResponse "Badge 'green-software-practitioner' not found"
              (Some NOT_SINGLE_ROW) 404)).
  - vm_compute. reflexivity.
  - right. reflexivity.
Defined.




(** Validation comes first and the datastore client second: a body
    that neither schema accepts is answered with 400 whatever the
    configuration, while an accepted body on a deployment without the
    service-role key is not answered at all, the call dies on the
    exception of [getSupabaseAdminClient]. *)
Theorem validation_precedes_client rt env request w :
  ((forall json, req_body request = Some json -> parsePayload rt json = None) ->
   exists r, serve rt env request w = (w, Responded r) /\ status r = 400%N) /\
  (forall json f,
     req_body request = Some json -> parsePayload rt json = Some f ->
     env_SUPABASE_SERVICE_ROLE_KEY env = None \/
     env_SUPABASE_SERVICE_ROLE_KEY env = Some EmptyString ->
     serve rt env request w =
       (w, Threw "SUPABASE_SERVICE_ROLE_KEY is not set; required for server-side writes.")).
Proof.
  split.
  - intros Hbad.
    assert (exists r, issueAward rt env request w = (w, Exit (Responded r)) /\
                      status r = 400%N) as (r & Hissue & Hst).
    { rewrite issueAward_run. destruct (req_body request) as [json|].
      - rewrite (Hbad json eq_refl). eexists. split; reflexivity.
      - eexists. split; reflexivity. }
    exists r. split; [|exact Hst]. now apply serve_not_issued.
  - intros json f Hbody Hparse Hkey. apply serve_not_issued.
    rewrite issueAward_run, Hbody, Hparse. unfold clientConfigured.
    destruct Hkey as [-> | ->]; reflexivity.
Qed.

Definition noKeyEnv : Env := {|
  env_SUPABASE_SERVICE_ROLE_KEY := None;
  env_RESEND_API_KEY := env_RESEND_API_KEY demoEnv;
  env_RESEND_FROM_EMAIL := env_RESEND_FROM_EMAIL demoEnv;
  env_site_urls := env_site_urls demoEnv;
  env_now := env_now demoEnv;
  env_fault_badges_select := None;
  env_fault_people_select := None;
  env_fault_people_insert := None;
  env_new_person_id := env_new_person_id demoEnv;
  env_fault_awards_select := None;
  env_fault_awards_insert := None;
  env_new_award_id := env_new_award_id demoEnv;
  env_not_found := env_not_found demoEnv;
  env_fault_getBucket := None;
  env_fault_createBucket := None;
  env_fault_download := None;
  env_fault_upload := None;
  env_local_file := env_local_file demoEnv;
  env_remote_fetch := env_remote_fetch demoEnv;
  env_render_pdf := env_render_pdf demoEnv;
  env_send := env_send demoEnv
|}.

Definition missingEmailRequest : Request :=
  directRequest [ ("name", JStr "Jane Doe"); ("courseId", JStr "gsp") ].

Definition demoJson : json :=
  JObj [ ("name", JStr "Jane Doe"); ("email", JStr "jane@x.com");
         ("courseId", JStr "gsp") ].

Lemma validation_precedes_client_witness :
  (exists r, serve demoRuntime noKeyEnv missingEmailRequest demoWorld
             = (demoWorld, Responded r) /\ status r = 400%N) /\
  serve demoRuntime noKeyEnv demoRequest demoWorld
  = (demoWorld,
     Threw "SUPABASE_SERVICE_ROLE_KEY is not set; required for server-side writes.").
Proof.
  split.
  - apply (proj1 (validation_precedes_client demoRuntime noKeyEnv missingEmailRequest
                    demoWorld)).
    intros json [= <-]. vm_compute. reflexivity.
  - apply (proj2 (validation_precedes_client demoRuntime noKeyEnv demoRequest demoWorld)
             demoJson demoFields).
    + reflexivity.
    + vm_compute. reflexivity.
    + now left.
Defined.

Lemma badgesBySlug_slug slug d b :
  In b (badgesBySlug slug d) -> badge_slug b = slug /\ In b (badges d).
Proof.
  unfold badgesBySlug. intros [Hin Heq]%List.filter_In.
  split; [now apply String.eqb_eq|exact Hin].
Qed.

(** The fields and the badge of a successful upsert are those of the
    request. *)
Lemma issueAward_fields rt env request json f w w1 f' badge award :
  req_body request = Some json -> parsePayload rt json = Some f ->
  issueAward rt env request w = (w1, Ok (f', badge, award)) ->
  f' = f /\ badgesBySlug (resolvedSlug f) (db w) = [badge].
Proof.
  intros Hbody Hparse. rewrite issueAward_run, Hbody, Hparse.
  destruct (clientConfigured env); [|discriminate].
  destruct (lookupBadge env f w) as [wa [b|o]] eqn:Hb; [|discriminate].
  apply lookupBadge_ok in Hb as [-> Hb].
  destruct (upsertPerson env _ _ w) as [wb [pid|o]]; [|discriminate].
  destruct (upsertAward env pid _ _ _ wb) as [wc [a|o]]; [|discriminate].
  intros [= _ <- <- _]. now split.
Qed.

Lemma awardsByPersonBadge_insertPerson pid bid p d :
  awardsByPersonBadge pid bid (insertPerson p d) = awardsByPersonBadge pid bid d.
Proof. reflexivity. Qed.

(** First issuance of a payload of ASCII strings.  On a datastore that
    holds one badge under the text of the resolved value and nobody
    with the address, with no fault, the handler has inserted exactly one person (the payload
    name under the normalised address) and exactly one award (for that
    person and badge, issued at the current instant, with the
    effective description).  It then answers 200 with the new award's
    id and that instant, unless the notification throws on the
    description: in that case the call ends in the [TypeError], the
    person and the award inserted all the same. *)
Theorem first_issuance_creates_person_and_award rt env request json f v badge w :
  req_body request = Some json -> parsePayload rt json = Some f ->
  Js.isAscii (f_email f) = true -> asciiParams (paramsOf f) ->
  readsOk env ->
  env_fault_people_insert env = None -> env_fault_awards_insert env = None ->
  resolveBadgeSlug (paramsOf f) = Some v ->
  badgesBySlug (toText v) (db w) = [badge] ->
  peopleByEmail (normalizedEmailOf (f_email f)) (db w) = [] ->
  awardsByPersonBadge (env_new_person_id env) (badge_id badge) (db w) = [] ->
  exists w' o,
    serve rt env request w = (w', o) /\
    people (db w') =
      people (db w) ++
      [{| person_id := env_new_person_id env; person_name := f_name f;
          person_email := normalizedEmailOf (f_email f) |}] /\
    awards (db w') =
      awards (db w) ++
      [{| award_id := env_new_award_id env;
          award_person_id := env_new_person_id env;
          award_badge_id := badge_id badge;
          award_issued_at := Some (env_now env);
          award_personalized_description := effectiveDescription f |}] /\
    badges (db w') = badges (db w) /\
    if notificationThrows env (effectiveDescription f)
    then o = Threw NOT_PRIMITIVE
    else
      exists ok,
        o = Responded (jsonResponse (BodyOk ok) 200) /\
        av_id (ok_award ok) = env_new_award_id env /\
        av_issuedAt (ok_award ok) = env_now env.
Proof.
  intros Hbody Hparse _ _ (Hc & Hfb & Hfp & Hfa) Hip Hia Hslug Hb Hp Ha.
  rewrite resolveBadgeSlug_resolvedValue in Hslug. injection Hslug as <-.
  fold (resolvedSlug f) in Hb.
  set (person := newPerson env (f_name f) (normalizedEmailOf (f_email f))).
  set (award := newAward env (env_new_person_id env) (badge_id badge) (env_now env)
                  (effectiveDescription f)).
  set (w1 := setDb (insertAward award (db (setDb (insertPerson person (db w)) w)))
               (setDb (insertPerson person (db w)) w)).
  assert (issueAward rt env request w = (w1, Ok (f, badge, award))) as Hissue.
  { rewrite issueAward_run, Hbody, Hparse, Hc.
    rewrite lookupBadge_run, Hfb, Hb.
    rewrite upsertPerson_run, Hfp, Hp. unfold insertNewPersonRun. rewrite Hip.
    rewrite upsertAward_run, Hfa.
    cbn [db setDb]. rewrite awardsByPersonBadge_insertPerson.
    rewrite Ha, Hia. reflexivity. }
  destruct (serve_issued _ _ _ _ _ _ _ _ Hissue) as (w2 & url & _ & Hdb & _ & _ & Hs).
  rewrite Hs. destruct (notificationThrows env (effectiveDescription f)).
  - eexists _, _. split; [reflexivity|]. rewrite Hdb. repeat split.
  - eexists _, _. split; [reflexivity|]. rewrite mailWorld_db, Hdb.
    repeat split. eexists. repeat split.
Qed.

Lemma first_issuance_creates_person_and_award_witness :
  exists w' ok,
    serve demoRuntime demoEnv demoRequest demoWorld
    = (w', Responded (jsonResponse (BodyOk ok) 200)) /\
    people (db w') = [demoPerson] /\ awards (db w') = [demoAward] /\
    av_id (ok_award ok) = "a-1".
Proof.
  destruct (first_issuance_creates_person_and_award demoRuntime demoEnv demoRequest
              demoJson demoFields (Slug PRACTITIONER) demoBadge demoWorld)
    as (w' & o & Hs & Hp & Ha & _ & Hout).
  - reflexivity.
  - vm_compute. reflexivity.
  - reflexivity.
  - repeat split.
  - repeat split.
  - reflexivity.
  - reflexivity.
  - vm_compute. reflexivity.
  - vm_compute. reflexivity.
  - vm_compute. reflexivity.
  - vm_compute. reflexivity.
  - assert (notificationThrows demoEnv (effectiveDescription demoFields) = false) as Hn
      by reflexivity.
    rewrite Hn in Hout. destruct Hout as (ok & -> & Hid & _).
    exists w', ok. split; [exact Hs|]. split; [exact Hp|]. split; [exact Ha|exact Hid].
Defined.

(** What a success response says about the request: the badge slug is
    the resolved slug, that is, the text of the value the resolver
    returned (and a stored badge has it), the recipient
    address is the normalised address, the verification code is the
    award id, and the award URL is the request origin followed by
    [/awards/] and that id. *)
Theorem success_response_fields rt env request json f w w' r ok :
  req_body request = Some json -> parsePayload rt json = Some f ->
  serve rt env request w = (w', Responded r) -> body r = BodyOk ok ->
  toText <$> resolveBadgeSlug (paramsOf f) = Some (ok_badgeSlug ok) /\
  (forall slug,
     resolveBadgeSlug (paramsOf f) = Some (Slug slug) -> ok_badgeSlug ok = slug) /\
  (exists badge, In badge (badges (db w)) /\ badge_slug badge = ok_badgeSlug ok) /\
  ok_recipientEmail ok = normalizedEmailOf (f_email f) /\
  ok_recipientName ok = f_name f /\
  av_verificationCode (ok_award ok) = av_id (ok_award ok) /\
  av_url (ok_award ok) = req_origin request +:+ "/awards/" +:+ av_id (ok_award ok).
Proof.
  intros Hbody Hparse Hserve Hb.
  destruct (serve_ok_inv _ _ _ _ _ _ _ Hserve Hb)
    as (wa & wb & f' & badge & award & url & Hissue & _ & _ & _ & _ & ->).
  destruct (issueAward_fields _ _ _ _ _ _ _ _ _ _ Hbody Hparse Hissue) as [-> Hbadge].
  assert (In badge (badgesBySlug (resolvedSlug f) (db w))) as Hin
    by (rewrite Hbadge; now left).
  apply badgesBySlug_slug in Hin as [Hslug Hin].
  simpl. rewrite Hslug. split; [now rewrite resolveBadgeSlug_resolvedValue|].
  split.
  { intros slug Hs. rewrite resolveBadgeSlug_resolvedValue in Hs.
    injection Hs as Hs. unfold resolvedSlug. now rewrite Hs. }
  split; [now exists badge|]. repeat split.
Qed.

Lemma success_response_fields_witness :
  toText <$> resolveBadgeSlug (paramsOf demoFields) = Some (ok_badgeSlug demoOk) /\
  av_url (ok_award demoOk) = "https://badges.example" +:+ "/awards/" +:+ "a-1".
Proof.
  destruct (success_response_fields demoRuntime demoEnv demoRequest _ demoFields
              demoWorld demoWorldAfterFirst _ demoOk
              eq_refl eq_refl demo_first_call eq_refl)
    as (Hslug & _ & _ & _ & _ & _ & Hurl).
  split; [exact Hslug|exact Hurl].
Defined.

(** A success response goes with exactly one call of the mail provider
    when a client and a sender address are configured, addressed to
    the normalised recipient address, and with none otherwise, in
    which case the status is the "not configured" skip. *)
Theorem success_sends_at_most_one_mail rt env request w w' r ok :
  serve rt env request w = (w', Responded r) -> body r = BodyOk ok ->
  exists badge,
    badgesBySlug (ok_badgeSlug ok) (db w) = [badge] /\
    outbox w' =
      (if mailConfigured env then
         outbox w ++
         [{| mail_from := default EmptyString (env_RESEND_FROM_EMAIL env);
             mail_to := ok_recipientEmail ok;
             mail_subject :=
               "Your " +:+ badge_name badge +:+ " badge from Green Software Foundation" |}]
       else outbox w) /\
    (mailConfigured env = false -> ok_email ok = skipped NOT_CONFIGURED).
Proof.
  intros Hserve Hb.
  destruct (serve_ok_inv _ _ _ _ _ _ _ Hserve Hb)
    as (wa & wb & f & badge & award & url & Hissue & Hcert & -> & _ & _ & ->).
  pose proof (preserves_issueAward outbox outbox_dbBlind rt env request w) as Hout.
  rewrite Hissue in Hout. simpl in Hout.
  pose proof (preserves_certificateUrlFor outbox outbox_storageBlind (E := Outcome)
                rt env (f_name f) (default (env_now env) (award_issued_at award))
                award badge wa) as Hout2.
  rewrite Hcert in Hout2. simpl in Hout2.
  assert (badgesBySlug (resolvedSlug f) (db w) = [badge]) as Hbadge.
  { rewrite issueAward_run in Hissue.
    destruct (req_body request) as [json|]; [|discriminate].
    destruct (parsePayload rt json) as [f'|]; [|discriminate].
    destruct (clientConfigured env); [|discriminate].
    destruct (lookupBadge env f' w) as [w1 [b|o]] eqn:Hl; [|discriminate].
    apply lookupBadge_ok in Hl as [-> Hl].
    destruct (upsertPerson env _ _ w) as [w2 [pid|o]]; [|discriminate].
    destruct (upsertAward env pid _ _ _ w2) as [w3 [a|o]]; [|discriminate].
    now injection Hissue as _ <- <- _. }
  assert (badge_slug badge = resolvedSlug f) as Hslug.
  { assert (In badge (badgesBySlug (resolvedSlug f) (db w))) as Hin
      by (rewrite Hbadge; now left).
    now apply badgesBySlug_slug in Hin as [Hin _]. }
  exists badge. simpl. rewrite Hslug. split; [exact Hbadge|]. split.
  - unfold mailWorld, notificationStatus.
    destruct (mailConfigured env); [|congruence].
    destruct (env_send env); simpl; unfold mailOf, getFromAddress; simpl; congruence.
  - intros Hm. unfold notificationStatus. now rewrite Hm.
Qed.

Lemma success_sends_at_most_one_mail_witness :
  outbox demoWorldAfterFirst =
  [{| mail_from := "badges@example.org"; mail_to := "jane@x.com";
      mail_subject :=
        "Your Green Software Practitioner badge from Green Software Foundation" |}].
Proof.
  destruct (success_sends_at_most_one_mail demoRuntime demoEnv demoRequest demoWorld
              demoWorldAfterFirst _ demoOk demo_first_call eq_refl)
    as (badge & Hb & Hout & _).
  assert (badge = demoBadge) as ->.
  { assert (badgesBySlug (ok_badgeSlug demoOk) (db demoWorld) = [demoBadge]) as Hd
      by (vm_compute; reflexivity).
    rewrite Hd in Hb. now injection Hb. }
  exact Hout.
Defined.

(** On a replay on which the notification does not throw, the
    response reports the stored issuance instant of the award, not the
    current instant, together with the stored id; the datastore is not
    written. *)
Theorem replay_reports_stored_issue_date rt env request json f badge award issued w :
  req_body request = Some json -> parsePayload rt json = Some f ->
  settled f badge award (db w) -> award_issued_at award = Some issued ->
  readsOk env ->
  notificationThrows env (effectiveDescription f) = false ->
  exists w' ok,
    serve rt env request w = (w', Responded (jsonResponse (BodyOk ok) 200)) /\
    av_issuedAt (ok_award ok) = issued /\
    av_id (ok_award ok) = award_id award /\
    db w' = db w.
Proof.
  intros Hbody Hparse Hsettled Hissued Hreads Hsafe.
  destruct (issueAward_settled rt env request json f badge award w
              Hbody Hparse Hsettled) as (r & Hissue & _ & Hok).
  rewrite (Hok Hreads) in Hissue.
  destruct (serve_issued _ _ _ _ _ _ _ _ Hissue) as (w2 & url & _ & Hdb & _ & _ & Hs).
  rewrite Hsafe in Hs.
  eexists _, _. split; [exact Hs|]. simpl. rewrite Hissued, mailWorld_db.
  repeat split. exact Hdb.
Qed.

(** The demonstration environment one day later. *)
Definition laterEnv : Env := {|
  env_SUPABASE_SERVICE_ROLE_KEY := env_SUPABASE_SERVICE_ROLE_KEY demoEnv;
  env_RESEND_API_KEY := env_RESEND_API_KEY demoEnv;
  env_RESEND_FROM_EMAIL := env_RESEND_FROM_EMAIL demoEnv;
  env_site_urls := env_site_urls demoEnv;
  env_now := "2025-03-04T10:00:00.000Z";
  env_fault_badges_select := None;
  env_fault_people_select := None;
  env_fault_people_insert := None;
  env_new_person_id := "p-2";
  env_fault_awards_select := None;
  env_fault_awards_insert := None;
  env_new_award_id := "a-2";
  env_not_found := env_not_found demoEnv;
  env_fault_getBucket := None;
  env_fault_createBucket := None;
  env_fault_download := None;
  env_fault_upload := None;
  env_local_file := env_local_file demoEnv;
  env_remote_fetch := env_remote_fetch demoEnv;
  env_render_pdf := env_render_pdf demoEnv;
  env_send := env_send demoEnv
|}.

Lemma demo_settled : settled demoFields demoBadge demoAward (db demoWorldAfterFirst).
Proof.
  split; [vm_compute; reflexivity|].
  exists demoPerson. repeat split; vm_compute; reflexivity.
Qed.

Lemma replay_reports_stored_issue_date_witness :
  exists w' ok,
    serve demoRuntime laterEnv demoRequest demoWorldAfterFirst
    = (w', Responded (jsonResponse (BodyOk ok) 200)) /\
    av_issuedAt (ok_award ok) = "2025-03-03T10:00:00.000Z" /\
    av_id (ok_award ok) = "a-1".
Proof.
  destruct (replay_reports_stored_issue_date demoRuntime laterEnv demoRequest _
              demoFields demoBadge demoAward "2025-03-03T10:00:00.000Z"
              demoWorldAfterFirst eq_refl eq_refl demo_settled eq_refl)
    as (w' & ok & Hs & Hi & Hid & _).
  - repeat split.
  - reflexivity.
  - exists w', ok. split; [exact Hs|]. split; [exact Hi|exact Hid].
Defined.

(** ** The notification sender *)

(** [sendAwardNotification] throws in one case only: the provider is
    configured and the description cannot be converted to a string;
    it then throws the [TypeError] of the conversion before the
    provider is called, and changes nothing.  In every other case it
    returns a status to its caller and writes neither the datastore nor
    the storage: the status is [sent] exactly when the provider is
    configured and delivered, and the "not configured" skip exactly
    when it is not configured; the provider is called at most once. *)
Theorem notification_returns_or_throws {E} (env : Env) (raise : string -> E)
    (a : NotificationArgs) (w : World) :
  if mailConfigured env && descriptionThrows (n_personalizedDescription a)
  then sendAwardNotification env raise a w = (w, Exit (raise NOT_PRIMITIVE))
  else
    exists w' st,
      sendAwardNotification env raise a w = (w', Ok st) /\
      db w' = db w /\ storage w' = storage w /\
      (st = sent <-> mailConfigured env = true /\ env_send env = SendDelivered) /\
      (st = skipped NOT_CONFIGURED <-> mailConfigured env = false) /\
      (outbox w' = outbox w \/
       exists m, outbox w' = outbox w ++ [m] /\ mail_to m = n_to a).
Proof.
  rewrite sendAwardNotification_run. unfold notificationThrows.
  destruct (mailConfigured env && descriptionThrows (n_personalizedDescription a));
    [reflexivity|].
  eexists _, _. split; [reflexivity|].
  split; [apply mailWorld_db|]. split; [apply mailWorld_storage|].
  unfold notificationStatus, mailWorld. destruct (mailConfigured env).
  - destruct (env_send env); simpl; (split; [|split]);
      try (split; [intros H; try discriminate H; now split
                  |intros [_ H]; try discriminate H; reflexivity]);
      try (split; intros H; discriminate H);
      right; eexists; split; reflexivity.
  - split; [|split].
    + split; [discriminate|intros [H _]; discriminate H].
    + split; reflexivity.
    + now left.
Qed.

(** ** The certificate generator: assets and the base tag *)

Lemma endsWith_append_slash (s : string) : Js.endsWith (s +:+ "/") "/" = true.
Proof.
  induction s as [|c s IH]; [reflexivity|].
  change (Js.endsWith (String c s +:+ "/") "/")
    with (String.eqb (String c (s +:+ "/")) "/" || Js.endsWith (s +:+ "/") "/").
  rewrite IH. apply orb_true_r.
Qed.

(** The base URL under which assets are fetched always ends with a
    slash, whichever variable supplies it, so that appending a
    relative asset path yields a well-formed URL. *)
Theorem getAssetBaseUrl_ends_with_slash (env : Env) (preferred : option string) :
  Js.endsWith (getAssetBaseUrl env preferred) "/" = true.
Proof.
  unfold getAssetBaseUrl.
  destruct (Js.endsWith (Js.or_else _ DEFAULT_ASSET_BASE) "/") eqn:He; [exact He|].
  apply endsWith_append_slash.
Qed.

Lemma startsWith_app (p q s : string) :
  Js.startsWith (p +:+ q) s = true -> Js.startsWith p s = true.
Proof.
  revert s. induction p as [|a p IH]; intros s; [reflexivity|].
  destruct s as [|b s]; [discriminate|]. simpl.
  destruct (Ascii.eqb a b); [apply IH|discriminate].
Qed.

Lemma includes_app_pat (s p q : string) :
  Js.includes s (p +:+ q) = true -> Js.includes s p = true.
Proof.
  induction s as [|c s IH]; simpl.
  - rewrite !orb_false_r. apply startsWith_app.
  - intros [H | H]%orb_true_iff; apply orb_true_iff.
    + left. now apply startsWith_app in H.
    + right. now apply IH.
Qed.

Lemma includes_cons (c : ascii) (s p : string) :
  Js.includes s p = true -> Js.includes (String c s) p = true.
Proof. intros H. simpl. rewrite H. apply orb_true_r. Qed.

Lemma includes_app_r (a b p : string) :
  Js.includes b p = true -> Js.includes (a +:+ b) p = true.
Proof.
  intros H. induction a as [|c a IH]; [exact H|]. now apply includes_cons.
Qed.

Lemma not_includes_cons (c : ascii) (s p : string) :
  Js.includes (String c s) p = false ->
  Js.startsWith p (String c s) = false /\ Js.includes s p = false.
Proof. simpl. intros H. now apply orb_false_iff in H. Qed.

Lemma not_includes_startsWith (s p : string) :
  Js.includes s p = false -> Js.startsWith p s = false.
Proof. destruct s; simpl; intros H; now apply orb_false_iff in H as [H _]. Qed.

(** Replacing a pattern that does not occur changes nothing. *)
Lemma replaceFrom_absent (pat repl before s : string) :
  Js.includes s pat = false -> Js.replaceFrom pat repl before s = s.
Proof.
  revert before. induction s as [|c s IH]; intros before H.
  - simpl. now rewrite (not_includes_startsWith _ _ H).
  - destruct (not_includes_cons _ _ _ H) as [Hs Hi].
    cbn [Js.replaceFrom]. rewrite Hs. now rewrite IH.
Qed.

Lemma replaceAllFrom_absent (pat repl before s : string) :
  Js.includes s pat = false -> Js.replaceAllFrom pat repl before s 0 = s.
Proof.
  revert before. induction s as [|c s IH]; intros before H.
  - simpl. now rewrite (not_includes_startsWith _ _ H).
  - destruct (not_includes_cons _ _ _ H) as [Hs Hi].
    cbn [Js.replaceAllFrom]. rewrite Hs. now rewrite IH.
Qed.

Lemma replaceAll_absent (s pat repl : string) :
  Js.includes s pat = false -> Js.replaceAll s pat repl = s.
Proof. apply replaceAllFrom_absent. Qed.

(** Replacing a pattern that occurs puts the expanded replacement
    somewhere in the result. *)
Lemma replaceFrom_present (pat repl before s : string) :
  Js.includes s pat = true ->
  exists pre b post,
    Js.replaceFrom pat repl before s
    = pre +:+ (Js.getSubstitution pat b post repl +:+ post).
Proof.
  revert before. induction s as [|c s IH]; intros before H.
  - simpl in H. rewrite orb_false_r in H.
    exists EmptyString, before, (Js.drop (String.length pat) EmptyString).
    simpl. now rewrite H.
  - cbn [Js.replaceFrom]. destruct (Js.startsWith pat (String c s)) eqn:Hs.
    + exists EmptyString, before, (Js.drop (String.length pat) (String c s)).
      reflexivity.
    + simpl in H. rewrite Hs in H. simpl in H.
      destruct (IH (before +:+ String c EmptyString) H) as (pre & b & post & Heq).
      exists (String c pre), b, post. now rewrite Heq.
Qed.

Lemma injectBaseHref_cases (rt : Runtime) (template : string) :
  injectBaseHref rt template = template \/
  Js.includes (injectBaseHref rt template) "<base" = true.
Proof.
  unfold injectBaseHref.
  destruct (Js.includes template _); [now left|].
  destruct (Js.includes template "<base"); [now left|].
  destruct (Js.includes template "<head>") eqn:Hh.
  - right. unfold Js.replace.
    destruct (replaceFrom_present "<head>"
                ("<head>" +:+ "<base href=" +:+ dquote +:+ publicDirHref rt
                 +:+ dquote +:+ ">") EmptyString template Hh)
      as (pre & b & post & ->).
    apply includes_app_r. vm_compute. reflexivity.
  - left. now apply replaceFrom_absent.
Qed.

Lemma injectBaseHref_has_base (rt : Runtime) (template : string) :
  Js.includes template "<base" = true -> injectBaseHref rt template = template.
Proof.
  intros H. unfold injectBaseHref. cbv zeta. rewrite H. clear H.
  destruct (Js.includes template _); reflexivity.
Qed.

(** [injectBaseHref] is idempotent: a template is given at most one
    base tag, however often it passes through. *)
Theorem injectBaseHref_idempotent (rt : Runtime) (template : string) :
  injectBaseHref rt (injectBaseHref rt template) = injectBaseHref rt template.
Proof.
  destruct (injectBaseHref_cases rt template) as [H | H].
  - now rewrite !H.
  - now apply injectBaseHref_has_base.
Qed.

Lemma assetMatchesFrom_absent (s : string) :
  Js.includes s ("src=" +:+ dquote) = false -> assetMatchesFrom s 0 = [].
Proof.
  induction s as [|c s IH]; intros H; [reflexivity|].
  destruct (not_includes_cons _ _ _ H) as [Hs Hi].
  cbn [assetMatchesFrom]. unfold matchAssetSrc. rewrite Hs. now apply IH.
Qed.

(** A document without any [src] attribute passes through asset
    inlining unchanged, and no file is read and nothing fetched:
    the result does not depend on the environment. *)
Theorem inlineAssetSources_without_src rt env html assetBaseUrl w :
  Js.includes html ("src=" +:+ dquote) = false ->
  inlineAssetSources rt env html assetBaseUrl w = (w, Ok html).
Proof.
  intros H. unfold inlineAssetSources, assetMatches.
  now rewrite (assetMatchesFrom_absent html H).
Qed.

Lemma inlineAssetSources_without_src_witness :
  inlineAssetSources demoRuntime demoEnv demoTemplate None demoWorld
  = (demoWorld, Ok demoTemplate).
Proof.
  apply (inlineAssetSources_without_src demoRuntime demoEnv demoTemplate None demoWorld).
  vm_compute. reflexivity.
Defined.

(** ** The certificate generator: bucket, template, stored objects *)

Definition storedObjects (w : World) : gmap (string * string) StoredObject :=
  objects (storage w).

Definition createBucketError (message : string) : string :=
  "Failed to create bucket '" +:+ CERT_BUCKET +:+ "': " +:+ message.

(** The creation branch of [ensurePublicBucket]. *)
Definition createBucketRun (env : Env) (w : World) : World * result string unit :=
  match env_fault_createBucket env with
  | Some message => (w, Exit (createBucketError message))
  | None =>
      match buckets (storage w) !! CERT_BUCKET with
      | Some _ => (w, Exit (createBucketError ALREADY_EXISTS))
      | None =>
          (setStorage {| buckets := <[CERT_BUCKET := true]> (buckets (storage w));
                         objects := objects (storage w) |} w,
           Ok tt)
      end
  end.

Lemma ensurePublicBucket_run env w :
  ensurePublicBucket env w =
  if clientConfigured env then
    match env_fault_getBucket env with
    | Some e =>
        if is404 (errorStatus e) then createBucketRun env w
        else (w, Exit ("Failed to check bucket: " +:+ se_message e))
    | None =>
        match buckets (storage w) !! CERT_BUCKET with
        | Some _ => (w, Ok tt)
        | None =>
            if is404 (errorStatus (env_not_found env)) then createBucketRun env w
            else (w, Exit ("Failed to check bucket: " +:+ se_message (env_not_found env)))
        end
    end
  else (w, Exit CLIENT_ERROR).
Proof.
  assert (forall w0,
            bind (createBucket env CERT_BUCKET true)
              (fun createError =>
                 match createError with
                 | Some message =>
                     exit ("Failed to create bucket '" +:+ CERT_BUCKET +:+ "': "
                           +:+ message)
                 | None => ret tt
                 end) w0 = createBucketRun env w0) as Hcreate.
  { intros w0. unfold bind, createBucket, createBucketRun.
    destruct (env_fault_createBucket env); [reflexivity|].
    destruct (buckets (storage w0) !! CERT_BUCKET); reflexivity. }
  unfold ensurePublicBucket. unfold bind at 1. rewrite getSupabaseAdminClient_run.
  destruct (clientConfigured env); [|reflexivity].
  unfold bind at 1. unfold getBucket, gets.
  destruct (env_fault_getBucket env) as [e|].
  - destruct (is404 (errorStatus e)); [|reflexivity].
    unfold bind at 1. unfold ret at 1. apply Hcreate.
  - destruct (buckets (storage w) !! CERT_BUCKET); [reflexivity|].
    destruct (is404 (errorStatus (env_not_found env))); [|reflexivity].
    unfold bind at 1. unfold ret at 1. apply Hcreate.
Qed.

(** [ensurePublicBucket] never touches a stored object, the
    datastore or the outbox.  When it succeeds the bucket exists: it
    was there already and nothing changed, or it was missing and has
    been created public.  An error of the bucket check whose status is
    not 404 is surfaced and nothing is created. *)
Theorem ensurePublicBucket_outcome env w w1 r :
  ensurePublicBucket env w = (w1, r) ->
  storedObjects w1 = storedObjects w /\ db w1 = db w /\ outbox w1 = outbox w /\
  (r = Ok tt ->
   bucketExists w1 /\
   (bucketExists w -> w1 = w) /\
   (~ bucketExists w ->
    buckets (storage w1) = <[CERT_BUCKET := true]> (buckets (storage w)))) /\
  (forall e,
     env_fault_getBucket env = Some e -> is404 (errorStatus e) = false ->
     w1 = w /\ r <> Ok tt).
Proof.
  rewrite ensurePublicBucket_run.
  assert (forall w' r',
            createBucketRun env w = (w', r') ->
            storedObjects w' = storedObjects w /\ db w' = db w /\ outbox w' = outbox w /\
            (r' = Ok tt ->
             bucketExists w' /\ (bucketExists w -> w' = w) /\
             (~ bucketExists w ->
              buckets (storage w') = <[CERT_BUCKET := true]> (buckets (storage w)))))
    as Hcreate.
  { intros w' r'. unfold createBucketRun, bucketExists.
    destruct (env_fault_createBucket env).
    { intros [= <- <-]. split_and!; try done. }
    destruct (buckets (storage w) !! CERT_BUCKET) eqn:Hb.
    { intros [= <- <-]. split_and!; try done. }
    intros [= <- <-]. split_and!; try done. intros _. split_and!.
    - simpl. rewrite lookup_insert_eq. eauto.
    - intros [x Hx]. discriminate Hx.
    - done. }
  destruct (clientConfigured env).
  2:{ intros [= <- <-]. split_and!; done. }
  destruct (env_fault_getBucket env) as [e|].
  - destruct (is404 (errorStatus e)) eqn:H404.
    + intros H. destruct (Hcreate _ _ H) as (Ho & Hd & Hout & Hok).
      split_and!; try done. intros e' [= <-] Hne. congruence.
    + intros [= <- <-]. split_and!; done.
  - destruct (buckets (storage w) !! CERT_BUCKET) eqn:Hb.
    + intros [= <- <-]. split_and!; try done.
      intros _. unfold bucketExists. rewrite Hb. split_and!; try done; eauto.
      intros Hn. elim Hn. eauto.
    + destruct (is404 (errorStatus (env_not_found env))).
      * intros H. destruct (Hcreate _ _ H) as (Ho & Hd & Hout & Hok).
        split_and!; try done.
      * intros [= <- <-]. split_and!; try done.
Qed.

Definition emptyStorageWorld : World :=
  {| db := db demoWorld;
     storage := {| buckets := ∅; objects := ∅ |};
     outbox := []; console := [] |}.

Lemma ensurePublicBucket_outcome_witness :
  let w1 := fst (ensurePublicBucket demoEnv emptyStorageWorld) in
  bucketExists w1 /\
  buckets (storage w1) = <[CERT_BUCKET := true]> (buckets (storage emptyStorageWorld)).
Proof.
  intros w1.
  destruct (ensurePublicBucket_outcome demoEnv emptyStorageWorld w1 (Ok tt))
    as (_ & _ & _ & Hok & _).
  - vm_compute. reflexivity.
  - destruct (Hok eq_refl) as (Hex & _ & Hnew). split; [exact Hex|].
    apply Hnew. intros [x Hx]. discriminate Hx.
Defined.

Lemma preserves_storedObjects_ensurePublicBucket env :
  preserves storedObjects (ensurePublicBucket env).
Proof.
  intros w. destruct (ensurePublicBucket env w) as [w1 r] eqn:He.
  now apply ensurePublicBucket_outcome in He as [Ho _].
Qed.

Lemma preserves_storedObjects_downloadTemplate env :
  preserves storedObjects (downloadTemplateFromStorage env).
Proof.
  unfold downloadTemplateFromStorage.
  apply preserves_bind; [apply preserves_getSupabaseAdminClient|]. intros _.
  apply preserves_bind; [apply preserves_storedObjects_ensurePublicBucket|]. intros _.
  apply preserves_bind; [apply preserves_gets|]. intros [data error].
  destruct error as [e|]; [destruct (is404 (errorStatus e)); apply preserves_exit|].
  destruct data; [apply preserves_ret|apply preserves_exit].
Qed.

Lemma worldBlind_preserves {E A S} (proj : World -> S) (m : Eff E A) :
  worldBlind m -> preserves proj m.
Proof. intros H w. now rewrite (H w w). Qed.

Lemma preserves_storedObjects_generateCertificatePdf rt env options :
  preserves storedObjects (generateCertificatePdf rt env options).
Proof.
  intros w. rewrite generateCertificatePdf_split.
  revert w. apply preserves_bind; [apply preserves_storedObjects_downloadTemplate|].
  intros template. apply worldBlind_preserves, worldBlind_renderTemplate.
Qed.

(** Certificate generation never writes the datastore and never calls
    the mail provider; when it fails, at whatever step, no stored
    object has been added or changed. *)
Theorem failed_generation_stores_nothing rt env options w w' r :
  generateCertificateAndUpload rt env options w = (w', r) ->
  db w' = db w /\ outbox w' = outbox w /\
  (forall err, r = Exit err -> storedObjects w' = storedObjects w).
Proof.
  intros Hgen.
  pose proof (preserves_generateCertificateAndUpload db db_storageBlind
                rt env options w) as Hdb.
  pose proof (preserves_generateCertificateAndUpload outbox outbox_storageBlind
                rt env options w) as Hout.
  rewrite Hgen in Hdb, Hout. split; [exact Hdb|]. split; [exact Hout|].
  intros err ->. revert Hgen.
  unfold generateCertificateAndUpload. unfold bind at 1.
  pose proof (preserves_storedObjects_generateCertificatePdf rt env options w) as H1.
  destruct (generateCertificatePdf rt env options w) as [w1 [pdf|e]]; simpl in H1.
  2:{ now intros [= <- _]. }
  unfold bind at 1.
  pose proof (preserves_storedObjects_ensurePublicBucket env w1) as H2.
  destruct (ensurePublicBucket env w1) as [w2 [[]|e]]; simpl in H2.
  2:{ intros [= <- _]. congruence. }
  unfold bind at 1. rewrite getSupabaseAdminClient_run.
  destruct (clientConfigured env); [|intros [= <- _]; congruence].
  unfold bind, upload.
  destruct (env_fault_upload env); [intros [= <- _]; congruence|].
  destruct (buckets (storage w2) !! CERT_BUCKET); [|intros [= <- _]; congruence].
  simpl. rewrite andb_false_r. discriminate.
Qed.

Lemma failed_generation_stores_nothing_witness :
  let w' := fst (generateCertificateAndUpload demoRuntime failingEnv demoOptions
                   demoWorld) in
  db w' = db demoWorld /\ outbox w' = outbox demoWorld /\
  storedObjects w' = storedObjects demoWorld.
Proof.
  intros w'.
  destruct (failed_generation_stores_nothing demoRuntime failingEnv demoOptions
              demoWorld w' (Exit "Navigation timeout of 30000 ms exceeded"))
    as (Hdb & Hout & Hobj).
  - vm_compute. reflexivity.
  - split; [exact Hdb|]. split; [exact Hout|]. exact (Hobj _ eq_refl).
Defined.

Definition TEMPLATE_NOT_FOUND : string :=
  "Certificate template not found in storage at 'templates/certificate-preview.html'. Upload the latest template before generating certificates.".

(** Without a stored template, in an existing bucket and with no
    fault, generation fails before anything is rendered or stored, with
    the "template not found" message when the storage service reports
    the missing object with status 404 and with the download failure
    message otherwise. *)
Theorem missing_template_fails rt env options w :
  clientConfigured env = true -> env_fault_getBucket env = None ->
  env_fault_download env = None -> bucketExists w ->
  storedObjects w !! (CERT_BUCKET, TEMPLATE_STORAGE_PATH) = None ->
  generateCertificateAndUpload rt env options w =
  (w, Exit (if is404 (errorStatus (env_not_found env)) then TEMPLATE_NOT_FOUND
            else "Failed to download certificate template: "
                 +:+ se_message (env_not_found env))).
Proof.
  intros Hc Hg Hd Hb Ho.
  unfold generateCertificateAndUpload. unfold bind at 1.
  rewrite generateCertificatePdf_split. unfold bind at 1.
  unfold downloadTemplateFromStorage. unfold bind at 1.
  rewrite getSupabaseAdminClient_run, Hc.
  unfold bind at 1. rewrite (ensurePublicBucket_existing env w Hc Hg Hb).
  unfold bind at 1. unfold download, gets. rewrite Hd.
  unfold storedObjects in Ho. rewrite Ho.
  destruct (is404 (errorStatus (env_not_found env))); reflexivity.
Qed.

Definition noTemplateWorld : World :=
  {| db := db demoWorld;
     storage := {| buckets := {[ CERT_BUCKET := true ]}; objects := ∅ |};
     outbox := []; console := [] |}.

Lemma missing_template_fails_witness :
  generateCertificateAndUpload demoRuntime demoEnv demoOptions noTemplateWorld
  = (noTemplateWorld, Exit TEMPLATE_NOT_FOUND).
Proof.
  apply (missing_template_fails demoRuntime demoEnv demoOptions noTemplateWorld).
  - reflexivity.
  - reflexivity.
  - reflexivity.
  - exists true. vm_compute. reflexivity.
  - vm_compute. reflexivity.
Defined.

(** Without a stored template the award is still issued: every success
    response then lacks the certificate URL, no object is stored, and
    the failure is on the console. *)
Theorem award_issued_without_template rt env request w w' r ok :
  serve rt env request w = (w', Responded r) -> body r = BodyOk ok ->
  storedObjects w !! (CERT_BUCKET, TEMPLATE_STORAGE_PATH) = None ->
  status r = 200%N /\
  av_certificateUrl (ok_award ok) = None /\
  storedObjects w' = storedObjects w /\
  exists err, In (CERTIFICATE_FAILED +:+ " " +:+ err) (console w').
Proof.
  intros Hserve Hb Hnone.
  destruct (serve_ok_inv _ _ _ _ _ _ _ Hserve Hb)
    as (wa & wb & f & badge & award & url & Hissue & Hcert & -> & _ & -> & ->).
  pose proof (preserves_issueAward storage storage_dbBlind rt env request w) as Hst.
  pose proof (preserves_issueAward console console_dbBlind rt env request w) as Hcon.
  rewrite Hissue in Hst, Hcon. simpl in Hst, Hcon.
  split; [reflexivity|]. revert Hcert.
  unfold certificateUrlFor, catch. unfold bind at 1.
  destruct (generateCertificateAndUpload rt env _ wa) as [wc [c|err]] eqn:Hgen.
  - destruct (generateCertificateAndUpload_ok _ _ _ _ _ _ Hgen)
      as (wd & template & bytes & Hd & _).
    destruct (downloadTemplateFromStorage_ok _ _ _ _ Hd)
      as (_ & _ & _ & _ & (o & Ho & _) & _).
    unfold storedObjects in Hnone. rewrite Hst in Ho. congruence.
  - destruct (failed_generation_stores_nothing _ _ _ _ _ _ Hgen) as (_ & _ & Hobj).
    specialize (Hobj err eq_refl).
    unfold bind, modify, ret. intros [= <- <-]. simpl.
    split; [reflexivity|]. split.
    + unfold storedObjects in *. rewrite mailWorld_storage. simpl.
      rewrite Hobj. now rewrite Hst.
    + exists err. unfold mailWorld.
      assert (In (CERTIFICATE_FAILED +:+ " " +:+ err)
                (console (consoleError (CERTIFICATE_FAILED +:+ " " +:+ err) wc))) as Hin.
      { simpl. apply List.in_or_app. right. now left. }
      destruct (mailConfigured env); [|exact Hin].
      destruct (env_send env); simpl; try exact Hin.
      apply List.in_or_app. left. exact Hin.
Qed.



Lemma award_issued_without_template_witness :
  exists w' ok,
    serve demoRuntime demoEnv demoRequest noTemplateWorld
    = (w', Responded (jsonResponse (BodyOk ok) 200)) /\
    av_certificateUrl (ok_award ok) = None /\
    storedObjects w' = storedObjects noTemplateWorld.
Proof.
  set (ok := okBody demoEnv demoRequest demoFields demoBadge demoAward None sent).
  assert (serve demoRuntime demoEnv demoRequest noTemplateWorld
          = (fst (serve demoRuntime demoEnv demoRequest noTemplateWorld),
             Responded (jsonResponse (BodyOk ok) 200))) as Hs
    by (vm_compute; reflexivity).
  destruct (award_issued_without_template demoRuntime demoEnv demoRequest
              noTemplateWorld _ _ ok Hs eq_refl)
    as (_ & Hurl & Hobj & _).
  - vm_compute. reflexivity.
  - eexists _, ok. split; [exact Hs|]. split; [exact Hurl|exact Hobj].
Defined.

(** ** The bundled-template variant *)

Lemma replaceAwardLineFrom_absent (line before s : string) :
  Js.includes s "Awarded to" = false ->
  Bundled.replaceAwardLineFrom line before s 0 = s.
Proof.
  revert before. induction s as [|c s IH]; intros before H; [reflexivity|].
  destruct (not_includes_cons _ _ _ H) as [Hs Hi].
  cbn [Bundled.replaceAwardLineFrom]. unfold Bundled.matchAwardLine.
  rewrite Hs. now rewrite IH.
Qed.

(** A template without the text [Awarded to] is rejected by
    [injectAwardLine], whatever the recipient name and the date. *)
Theorem injectAwardLine_fails_without_line (template recipientName issuedLabel : string) :
  Js.includes template "Awarded to" = false ->
  Bundled.injectAwardLine template recipientName issuedLabel
  = Exit "Failed to inject name/date into certificate template".
Proof.
  intros H. unfold Bundled.injectAwardLine, Bundled.replaceAwardLine.
  rewrite (replaceAwardLineFrom_absent _ _ _ H).
  destruct (Js.includes template
              ("Awarded to " +:+ recipientName +:+ " on " +:+ issuedLabel)) eqn:Hi;
    [|reflexivity].
  change ("Awarded to " +:+ recipientName +:+ " on " +:+ issuedLabel)
    with ("Awarded to" +:+ (" " +:+ recipientName +:+ " on " +:+ issuedLabel)) in Hi.
  apply includes_app_pat in Hi. congruence.
Qed.

Lemma injectAwardLine_fails_without_line_witness :
  Bundled.injectAwardLine "<p>Presented to NAME</p>" "Jane Doe" "March 3, 2025"
  = Exit "Failed to inject name/date into certificate template".
Proof.
  apply (injectAwardLine_fails_without_line "<p>Presented to NAME</p>").
  vm_compute. reflexivity.
Defined.

(** On a template without the title placeholder [injectBadgeTitle]
    never alters the document: it returns the template as it is when
    the upper-cased badge title already occurs in it, and fails
    otherwise. *)
Theorem injectBadgeTitle_without_placeholder (template badgeTitle : string) :
  Js.includes template "GREEN SOFTWARE PRACTITIONER" = false ->
  Bundled.injectBadgeTitle template badgeTitle
  = if Js.includes template (Js.toUpperCase badgeTitle) then Ok template
    else Exit "Failed to inject badge title into certificate template".
Proof.
  intros H. unfold Bundled.injectBadgeTitle.
  rewrite (replaceAll_absent _ _ _ H).
  destruct (Js.includes template (Js.toUpperCase badgeTitle)); reflexivity.
Qed.

Lemma injectBadgeTitle_without_placeholder_witness :
  Bundled.injectBadgeTitle "<h1>CERTIFICATE</h1>" "Sustainable Cloud Specialist"
  = Exit "Failed to inject badge title into certificate template".
Proof.
  rewrite (injectBadgeTitle_without_placeholder "<h1>CERTIFICATE</h1>"
             "Sustainable Cloud Specialist"); vm_compute; reflexivity.
Defined.

(** A successful generation of the bundled-template variant, as far as
    the storage is concerned. *)
Lemma bundled_generation_ok rt env options w w' certificate :
  Bundled.generateCertificateAndUpload rt env options w = (w', Ok certificate) ->
  storagePath certificate = awardStoragePath (go_verificationCode options) /\
  publicUrl certificate
  = getPublicUrl rt CERT_BUCKET (awardStoragePath (go_verificationCode options)) /\
  exists bytes,
    storedObjects w' !! (CERT_BUCKET, awardStoragePath (go_verificationCode options))
    = Some (certificateObject bytes).
Proof.
  unfold Bundled.generateCertificateAndUpload. unfold bind at 1.
  destruct (Bundled.generateCertificatePdf rt env options w) as [w1 [pdf|e]];
    [|discriminate].
  unfold bind at 1.
  destruct (ensurePublicBucket env w1) as [w2 [[]|e]]; [|discriminate].
  unfold bind at 1. rewrite getSupabaseAdminClient_run.
  destruct (clientConfigured env); [|discriminate].
  unfold bind, upload.
  destruct (env_fault_upload env); [discriminate|].
  destruct (buckets (storage w2) !! CERT_BUCKET); [|discriminate].
  simpl. rewrite andb_false_r. intros [= <- <-]. simpl.
  split; [reflexivity|]. split; [reflexivity|].
  exists pdf. unfold storedObjects. simpl. apply lookup_insert_eq.
Qed.

(** The two variants of the generator agree on where a certificate
    lives: for the same verification code both store a PDF object
    under the same key of the same bucket and return the same public
    URL, whatever the environment, the options and the template. *)
Theorem variants_agree_on_location
    rt env1 env2 options1 options2 w1 w1' w2 w2' certificate1 certificate2 :
  go_verificationCode options1 = go_verificationCode options2 ->
  generateCertificateAndUpload rt env1 options1 w1 = (w1', Ok certificate1) ->
  Bundled.generateCertificateAndUpload rt env2 options2 w2 = (w2', Ok certificate2) ->
  storagePath certificate1 = storagePath certificate2 /\
  publicUrl certificate1 = publicUrl certificate2 /\
  exists bytes1 bytes2,
    storedObjects w1' !! (CERT_BUCKET, storagePath certificate1)
    = Some (certificateObject bytes1) /\
    storedObjects w2' !! (CERT_BUCKET, storagePath certificate1)
    = Some (certificateObject bytes2).
Proof.
  intros Hcode H1 H2.
  destruct (generateCertificateAndUpload_ok _ _ _ _ _ _ H1)
    as (wa & template & bytes1 & _ & _ & _ & _ & -> & ->).
  destruct (bundled_generation_ok _ _ _ _ _ _ H2) as (Hp & Hu & bytes2 & Ho).
  simpl. rewrite Hp, Hu, Hcode. split; [reflexivity|]. split; [reflexivity|].
  exists bytes1, bytes2. split; [|exact Ho].
  unfold storedObjects, withCertificate. simpl. apply lookup_insert_eq.
Qed.

(** The demonstration environment with a bundled template file. *)
Definition bundledEnv : Env := {|
  env_SUPABASE_SERVICE_ROLE_KEY := env_SUPABASE_SERVICE_ROLE_KEY demoEnv;
  env_RESEND_API_KEY := env_RESEND_API_KEY demoEnv;
  env_RESEND_FROM_EMAIL := env_RESEND_FROM_EMAIL demoEnv;
  env_site_urls := env_site_urls demoEnv;
  env_now := env_now demoEnv;
  env_fault_badges_select := None;
  env_fault_people_select := None;
  env_fault_people_insert := None;
  env_new_person_id := env_new_person_id demoEnv;
  env_fault_awards_select := None;
  env_fault_awards_insert := None;
  env_new_award_id := env_new_award_id demoEnv;
  env_not_found := env_not_found demoEnv;
  env_fault_getBucket := None;
  env_fault_createBucket := None;
  env_fault_download := None;
  env_fault_upload := None;
  env_local_file := fun path =>
    if String.eqb path Bundled.TEMPLATE_HTML_PATH
    then FileData "<html><head></head><body><h1>GREEN SOFTWARE PRACTITIONER</h1><p>Awarded to NAME on DATE</p></body></html>"
    else FileENOENT;
  env_remote_fetch := env_remote_fetch demoEnv;
  env_render_pdf := env_render_pdf demoEnv;
  env_send := env_send demoEnv
|}.

Lemma demo_bundled_generation :
  Bundled.generateCertificateAndUpload demoRuntime bundledEnv demoOptions demoWorld
  = (fst (Bundled.generateCertificateAndUpload demoRuntime bundledEnv demoOptions
            demoWorld),
     Ok demoCertificate).
Proof. vm_compute. reflexivity. Qed.

Lemma variants_agree_on_location_witness :
  storagePath demoCertificate = storagePath demoCertificate /\
  publicUrl demoCertificate = publicUrl demoCertificate /\
  exists bytes1 bytes2,
    storedObjects
      (fst (generateCertificateAndUpload demoRuntime demoEnv demoOptions demoWorld))
      !! (CERT_BUCKET, storagePath demoCertificate)
    = Some (certificateObject bytes1) /\
    storedObjects
      (fst (Bundled.generateCertificateAndUpload demoRuntime bundledEnv demoOptions
              demoWorld))
      !! (CERT_BUCKET, storagePath demoCertificate)
    = Some (certificateObject bytes2).
Proof.
  apply (variants_agree_on_location demoRuntime demoEnv bundledEnv demoOptions
           demoOptions demoWorld _ demoWorld _ demoCertificate demoCertificate
           eq_refl demo_generation demo_bundled_generation).
Defined.

(** ** Award read interface ([data/awards.ts])

    [getAwardById] reads one award with the name of its person and the
    slug of its badge embedded through the foreign keys, and derives
    the certificate URL from the award id.  The read uses the storage
    URL builder of the same project as the generator. *)

(** What an embedded relation can look like to the mapping code:
    [null], one object, or an array of objects. *)
Inductive Embedded (A : Type) :=
| EmbNull
| EmbOne (row : A)
| EmbMany (rows : list A).
Arguments EmbNull {A}.
Arguments EmbOne {A} _.
Arguments EmbMany {A} _.

(** [Array.isArray(x) ? x[0]?.field : x?.field]. *)
Definition embeddedField {A} (field : A -> string) (x : Embedded A) : option string :=
  match x with
  | EmbMany rows => field <$> head rows
  | EmbOne row => Some (field row)
  | EmbNull => None
  end.

(** The row a many-to-one embedding yields: the referenced row, or
    [null] when there is none. *)
Definition embedded {A} (rows : list A) : Embedded A :=
  match rows with
  | [] => EmbNull
  | row :: _ => EmbOne row
  end.

Record QueryError := {
  qe_code : string;
  qe_message : string
}.

Record AwardRow := {
  ar_award : Award;
  ar_people : Embedded Person;
  ar_badges : Embedded Badge
}.

Record PublicAward := {
  pa_id : string;
  pa_recipientName : option string;
  pa_credentialSlug : option string;
  pa_issuedAt : option string;
  pa_personalizedDescription : option json;
  pa_certificateUrl : string
}.

Definition awardsById (id : string) (d : DB) : list Award :=
  List.filter (fun a => String.eqb (award_id a) id) (awards d).

Definition peopleById (id : string) (d : DB) : list Person :=
  List.filter (fun p => String.eqb (person_id p) id) (people d).

Definition badgesById (id : string) (d : DB) : list Badge :=
  List.filter (fun b => String.eqb (badge_id b) id) (badges d).

Definition awardRow (d : DB) (a : Award) : AwardRow :=
  {| ar_award := a;
     ar_people := embedded (peopleById (award_person_id a) d);
     ar_badges := embedded (badgesById (award_badge_id a) d) |}.

(** The [.eq("id", id).single()] query: a fault, the row, or the
    PGRST116 error of a result that is not exactly one row. *)
Definition selectAwardById (fault : option QueryError) (id : string) (d : DB)
  : QueryError + AwardRow :=
  match fault with
  | Some e => inl e
  | None =>
      match awardsById id d with
      | [a] => inr (awardRow d a)
      | _ => inl {| qe_code := "PGRST116"; qe_message := NOT_SINGLE_ROW |}
      end
  end.

Definition getAwardById (rt : Runtime) (fault : option QueryError) (id : string) (d : DB)
  : result string (option PublicAward) :=
  match selectAwardById fault id d with
  | inl error =>
      if String.eqb (qe_code error) "PGRST116" then Ok None
      else Exit ("Failed to fetch award: " +:+ qe_message error)
  | inr data =>
      Ok (Some
            {| pa_id := award_id (ar_award data);
               pa_recipientName := embeddedField person_name (ar_people data);
               pa_credentialSlug := embeddedField badge_slug (ar_badges data);
               pa_issuedAt := award_issued_at (ar_award data);
               pa_personalizedDescription :=
                 award_personalized_description (ar_award data);
               pa_certificateUrl :=
                 getPublicUrl rt "certificates"
                   ("awards/" +:+ award_id (ar_award data) +:+ ".pdf") |})
  end.

(** Without a fault [getAwardById] never throws.  An id that no award
    has gives [undefined]; an award that is returned has the id that
    was asked for and the certificate URL of the object
    [awards/{id}.pdf]. *)
Theorem getAwardById_lookup (rt : Runtime) (id : string) (d : DB) :
  (forall message, getAwardById rt None id d <> Exit message) /\
  ((forall a, In a (awards d) -> award_id a <> id) -> getAwardById rt None id d = Ok None) /\
  (forall award,
     getAwardById rt None id d = Ok (Some award) ->
     pa_id award = id /\
     pa_certificateUrl award = getPublicUrl rt "certificates" ("awards/" +:+ id +:+ ".pdf") /\
     exists a, In a (awards d) /\ award_id a = id /\ pa_issuedAt award = award_issued_at a).
Proof.
  unfold getAwardById, selectAwardById. split; [|split].
  - intros message. destruct (awardsById id d) as [|a [|a' l]]; discriminate.
  - intros Hnone. destruct (awardsById id d) as [|a l] eqn:Hq; [reflexivity|].
    assert (In a (awardsById id d)) as Hin by (rewrite Hq; now left).
    unfold awardsById in Hin. apply List.filter_In in Hin as [Hin Heq].
    apply String.eqb_eq in Heq. now elim (Hnone a Hin).
  - intros award. destruct (awardsById id d) as [|a [|a' l]] eqn:Hq; try discriminate.
    intros [= <-]. simpl.
    assert (In a (awardsById id d)) as Hin by (rewrite Hq; now left).
    unfold awardsById in Hin. apply List.filter_In in Hin as [Hin Heq].
    apply String.eqb_eq in Heq. rewrite Heq. repeat split. now exists a.
Qed.

Lemma getAwardById_lookup_witness :
  getAwardById demoRuntime None "no-such-award" (db demoWorldAfterFirst) = Ok None.
Proof.
  apply (proj1 (proj2 (getAwardById_lookup demoRuntime "no-such-award"
                         (db demoWorldAfterFirst)))).
  intros a Hin. vm_compute in Hin. destruct Hin as [<- | []]. discriminate.
Defined.

(** Identifiers are primary keys: no two rows of a table share one. *)
Definition keysOk (d : DB) : Prop :=
  NoDup (List.map person_id (people d)) /\
  NoDup (List.map award_id (awards d)) /\
  NoDup (List.map badge_id (badges d)).

Lemma filter_by_key {A} (key : A -> string) (l : list A) (a : A) :
  NoDup (List.map key l) -> In a l ->
  List.filter (fun x => String.eqb (key x) (key a)) l = [a].
Proof.
  induction l as [|x l IH]; intros Hnd Hin; [destruct Hin|].
  simpl in Hnd. apply NoDup_cons in Hnd as [Hx Hnd]. simpl.
  assert (forall l', ~ In (key a) (List.map key l') ->
                     List.filter (fun x => String.eqb (key x) (key a)) l' = []) as Hnone.
  { intros l' Hl'. induction l' as [|y l' IH']; [reflexivity|]. simpl.
    destruct (String.eqb (key y) (key a)) eqn:Hy.
    - apply String.eqb_eq in Hy. elim Hl'. left. exact Hy.
    - apply IH'. intros H. apply Hl'. now right. }
  destruct Hin as [-> | Hin].
  - rewrite String.eqb_refl. f_equal. apply Hnone.
    intros H. apply Hx. now apply list_elem_of_In.
  - destruct (String.eqb (key x) (key a)) eqn:Hxa.
    + apply String.eqb_eq in Hxa. elim Hx. rewrite Hxa.
      apply list_elem_of_In, List.in_map, Hin.
    + now apply IH.
Qed.

Lemma NoDup_map_snoc {A} (key : A -> string) (l : list A) (a : A) :
  NoDup (List.map key l) -> ~ In (key a) (List.map key l) ->
  NoDup (List.map key (l ++ [a])).
Proof.
  intros Hnd Hfresh. rewrite List.map_app. simpl.
  apply NoDup_app. split; [exact Hnd|]. split.
  - intros x Hx Hin. apply list_elem_of_In in Hin. destruct Hin as [Heq|[]].
    subst x. apply Hfresh. now apply list_elem_of_In.
  - apply NoDup_singleton.
Qed.

(** An award the endpoint has just answered for can be read back.
    With primary keys respected and fresh generated ids, after a
    success response [getAwardById] returns, for the award id of the
    response, an award with that id, the slug of the response, the
    stored name of the one person with the recipient address, the
    issuance instant the response reports, and (when the response has
    a certificate URL) that same certificate URL. *)
Theorem issued_award_can_be_read_back rt env request w w' r ok :
  keysOk (db w) -> idsOk (db w) -> Js.truthy (env_new_person_id env) = true ->
  ~ In (env_new_person_id env) (List.map person_id (people (db w))) ->
  ~ In (env_new_award_id env) (List.map award_id (awards (db w))) ->
  serve rt env request w = (w', Responded r) -> body r = BodyOk ok ->
  exists award p,
    getAwardById rt None (av_id (ok_award ok)) (db w') = Ok (Some award) /\
    pa_id award = av_id (ok_award ok) /\
    pa_credentialSlug award = Some (ok_badgeSlug ok) /\
    peopleByEmail (ok_recipientEmail ok) (db w') = [p] /\
    pa_recipientName award = Some (person_name p) /\
    av_issuedAt (ok_award ok) = default (env_now env) (pa_issuedAt award) /\
    (forall url,
       av_certificateUrl (ok_award ok) = Some url -> pa_certificateUrl award = url).
Proof.
  intros (Kp & Ka & Kb) Hids Hnew Hfp Hfa Hserve Hbody.
  destruct (serve_ok_inv _ _ _ _ _ _ _ Hserve Hbody)
    as (w1 & w2 & f & badge & a & url & Hissue & Hcert & _ & Hdb & _ & ->).
  destruct (issueAward_ok _ _ _ _ _ _ _ _ Hissue Hids Hnew)
    as (_ & (Hb & p & Hp & _ & Ha) & _).
  destruct (issueAward_tables _ _ _ _ _ _ _ _ Hissue) as (Tb & Tp & Ta).
  assert (NoDup (List.map person_id (people (db w1)))) as Kp1.
  { destruct Tp as [-> | (p0 & -> & Hp0)]; [exact Kp|].
    apply NoDup_map_snoc; [exact Kp|]. now rewrite Hp0. }
  assert (NoDup (List.map award_id (awards (db w1)))) as Ka1.
  { destruct Ta as [-> | [-> Ha0]]; [exact Ka|].
    apply NoDup_map_snoc; [exact Ka|]. now rewrite Ha0. }
  assert (NoDup (List.map badge_id (badges (db w1)))) as Kb1 by (now rewrite Tb).
  assert (In a (awards (db w1)) /\ award_person_id a = person_id p /\
          award_badge_id a = badge_id badge) as (Hina & Hap & Hab).
  { assert (In a (awardsByPersonBadge (person_id p) (badge_id badge) (db w1))) as Hin
      by (rewrite Ha; now left).
    unfold awardsByPersonBadge in Hin. apply List.filter_In in Hin as [Hin Hc].
    apply andb_true_iff in Hc as [H1 H2].
    apply String.eqb_eq in H1. apply String.eqb_eq in H2. now repeat split. }
  assert (In p (people (db w1))) as Hinp.
  { assert (In p (peopleByEmail (normalizedEmailOf (f_email f)) (db w1))) as Hin
      by (rewrite Hp; now left).
    now apply peopleByEmail_email in Hin as [_ Hin]. }
  assert (In badge (badges (db w1)) /\ badge_slug badge = resolvedSlug f)
    as (Hinb & Hslug).
  { assert (In badge (badgesBySlug (resolvedSlug f) (db w1))) as Hin
      by (rewrite Hb; now left).
    now apply badgesBySlug_slug in Hin as [H1 H2]. }
  assert (awardsById (award_id a) (db w1) = [a]) as Qa
    by (now apply (filter_by_key award_id)).
  assert (peopleById (award_person_id a) (db w1) = [p]) as Qp
    by (rewrite Hap; now apply (filter_by_key person_id)).
  assert (badgesById (award_badge_id a) (db w1) = [badge]) as Qb
    by (rewrite Hab; now apply (filter_by_key badge_id)).
  eexists _, p. simpl. rewrite Hdb.
  unfold getAwardById, selectAwardById, awardRow. rewrite Qa, Qp, Qb. simpl.
  split; [reflexivity|]. split; [reflexivity|]. split; [reflexivity|].
  split; [exact Hp|]. split; [reflexivity|]. split; [reflexivity|].
  intros u Hu. subst url.
  destruct (certificateUrlFor_total (E := Outcome) rt env (f_name f)
              (default (env_now env) (award_issued_at a)) a badge w1)
    as (w2' & url' & Hcert' & _ & _ & Hgen).
  rewrite Hcert in Hcert'. injection Hcert' as _ <-.
  destruct (generateCertificateAndUpload rt env _ w1) as [wg [c|err]] eqn:Hg;
    [|discriminate Hgen].
  injection Hgen as ->.
  destruct (generateCertificateAndUpload_ok _ _ _ _ _ _ Hg)
    as (_ & _ & _ & _ & _ & _ & _ & _ & ->).
  reflexivity.
Qed.

Lemma issued_award_can_be_read_back_witness :
  exists award p,
    getAwardById demoRuntime None "a-1" (db demoWorldAfterFirst) = Ok (Some award) /\
    pa_id award = "a-1" /\
    pa_credentialSlug award = Some "green-software-practitioner" /\
    peopleByEmail "jane@x.com" (db demoWorldAfterFirst) = [p] /\
    pa_recipientName award = Some (person_name p) /\
    pa_certificateUrl award = demoCertificateUrl.
Proof.
  destruct (issued_award_can_be_read_back demoRuntime demoEnv demoRequest demoWorld
              demoWorldAfterFirst (jsonResponse (BodyOk demoOk) 200) demoOk)
    as (award & p & Hget & Hid & Hslug & Hp & Hname & _ & Hurl).
  - repeat split; simpl; repeat constructor. intros H. inversion H.
  - constructor.
  - reflexivity.
  - simpl. intros [].
  - simpl. intros [].
  - exact demo_first_call.
  - reflexivity.
  - exists award, p. split; [exact Hget|]. split; [exact Hid|]. split; [exact Hslug|].
    split; [exact Hp|]. split; [exact Hname|]. now apply Hurl.
Defined.
